(** * Slot allocation and collision resolution of chatgpt-to-ppt

    A shallow embedding of the occupancy tracker, the existing-content
    scanner, the mapping parsers and the allocation resolver of
    [imgins.py], and of the position manager, the JSON generator and the
    document parsers of [doc_json.py] / [doc_json2.py].

    Conventions.  Python [int] is [Z]; [len(prs.slides)] and
    [len(self.image_files)] are [nat]; a [dict] is a [gmap], a [set] a
    [gset]; the sentinel string ['auto'] in [slide_number] is the
    constructor [Auto]; [position is None] is [None].  Text is ASCII
    text.  The lengths in inches that a mapping carries (Python floats,
    handed on as they are) are rationals [Q]; where the code computes
    with a float, in [Inches], it is a binary64 number with the
    rounding of IEEE 754.  What the code gets from
    a library is a parameter of the definitions that use it: the outcome
    of [add_picture], [float], the searches of [re] over a list of
    patterns; a Word document is its paragraphs and tables, a paragraph
    its text and the number of images it embeds. *)

From Stdlib Require Import ZArith QArith List Bool Ascii String.
From Stdlib Require SpecFloat.
From stdpp Require Import gmap strings list fin_maps sorting.

Local Open Scope Z_scope.

(** ** The slot vocabulary ([class Position(Enum)], identical in every script) *)

Inductive Position : Set :=
  | TOP_LEFT | TOP_RIGHT | BOTTOM_LEFT | BOTTOM_RIGHT | CENTER | CUSTOM.

#[global] Instance Position_eq_dec : EqDecision Position.
Proof. solve_decision. Defined.

Definition Position_to_nat (p : Position) : nat :=
  match p with
  | TOP_LEFT => 0 | TOP_RIGHT => 1 | BOTTOM_LEFT => 2
  | BOTTOM_RIGHT => 3 | CENTER => 4 | CUSTOM => 5
  end%nat.

Definition Position_of_nat (n : nat) : option Position :=
  match n with
  | 0 => Some TOP_LEFT | 1 => Some TOP_RIGHT | 2 => Some BOTTOM_LEFT
  | 3 => Some BOTTOM_RIGHT | 4 => Some CENTER | 5 => Some CUSTOM
  | _ => None
  end%nat.

#[global] Program Instance Position_countable : Countable Position :=
  inj_countable Position_to_nat Position_of_nat _.
Next Obligation. by intros []. Qed.

(** [self.available_positions]: the preference-ordered eligible slots. *)
Definition available_positions : list Position :=
  [BOTTOM_LEFT; BOTTOM_RIGHT; TOP_RIGHT].

(** The occupancy table: [Dict[int, Set[Position]]]. *)
Abbreviation OccupancyTable := (gmap Z (gset Position)).

(** [Position.value] and the lookup by value [Position(position_str)],
    which raises [ValueError] ([None]) on any other string. *)
Definition Position_value (p : Position) : string :=
  match p with
  | TOP_LEFT => "top-left"
  | TOP_RIGHT => "top-right"
  | BOTTOM_LEFT => "bottom-left"
  | BOTTOM_RIGHT => "bottom-right"
  | CENTER => "center"
  | CUSTOM => "custom"
  end.

Definition Position_of_value (position_str : string) : option Position :=
  List.find (fun p => String.eqb (Position_value p) position_str)
            [TOP_LEFT; TOP_RIGHT; BOTTOM_LEFT; BOTTOM_RIGHT; CENTER; CUSTOM].

(** ** The Python built-ins the parsers call, on ASCII text *)
Module Py.

(** [c.isspace()] on the ASCII range. *)
Definition isspace (c : ascii) : bool :=
  let n := nat_of_ascii c in
  (((9 <=? n) && (n <=? 13)) || ((28 <=? n) && (n <=? 32)))%nat.

Fixpoint lstrip (s : string) : string :=
  match s with
  | EmptyString => EmptyString
  | String c s' => if isspace c then lstrip s' else s
  end.

Fixpoint rstrip (s : string) : string :=
  match s with
  | EmptyString => EmptyString
  | String c s' =>
      match rstrip s' with
      | EmptyString => if isspace c then EmptyString else String c EmptyString
      | r => String c r
      end
  end.

(** [s.strip()]. *)
Definition strip (s : string) : string := rstrip (lstrip s).

(** Truth value of a string: [bool(s)]. *)
Definition truthy (s : string) : bool :=
  match s with
  | EmptyString => false
  | String _ _ => true
  end.

(** [s.startswith(c)] for a one-character prefix. *)
Definition startswith (c : ascii) (s : string) : bool :=
  match s with
  | EmptyString => false
  | String c' _ => Ascii.eqb c' c
  end.

(** [c in s] for a one-character needle. *)
Fixpoint contains (c : ascii) (s : string) : bool :=
  match s with
  | EmptyString => false
  | String c' s' => Ascii.eqb c' c || contains c s'
  end.

(** [s.split(sep)] for a one-character separator. *)
Fixpoint split (sep : ascii) (s : string) : list string :=
  match s with
  | EmptyString => [EmptyString]
  | String c s' =>
      if Ascii.eqb c sep then EmptyString :: split sep s'
      else
        match split sep s' with
        | w :: ws => String c w :: ws
        | [] => [String c EmptyString]
        end
  end.

(** [s.split()]: runs of whitespace separate, none yields an empty word. *)
Fixpoint split_whitespace (s : string) : list string :=
  match s with
  | EmptyString => []
  | String c s' =>
      if isspace c then split_whitespace s'
      else
        match s' with
        | EmptyString => [String c EmptyString]
        | String c' _ =>
            if isspace c' then String c EmptyString :: split_whitespace s'
            else
              match split_whitespace s' with
              | w :: ws => String c w :: ws
              | [] => [String c EmptyString]
              end
        end
  end.

Definition digit (c : ascii) : option Z :=
  let n := Z.of_nat (nat_of_ascii c) in
  if (48 <=? n) && (n <=? 57) then Some (n - 48) else None.

(** Decimal digits, with single underscores allowed between digits. *)
Fixpoint int_digits (acc : Z) (after_digit : bool) (s : string) : option Z :=
  match s with
  | EmptyString => if after_digit then Some acc else None
  | String c s' =>
      match digit c with
      | Some d => int_digits (10 * acc + d) true s'
      | None =>
          if Ascii.eqb c "_" && after_digit then int_digits acc false s'
          else None
      end
  end.

(** The whitespace that [int] skips before and after the number: tab,
    newline, vertical tab, form feed, carriage return and space.  The
    separators U+001C to U+001F, which [str.strip] and [str.split] take
    for whitespace, are none for [int]: [int] of a digit followed by
    U+001F raises. *)
Definition int_space (c : ascii) : bool :=
  let n := nat_of_ascii c in
  (((9 <=? n) && (n <=? 13)) || (n =? 32))%nat.

Fixpoint int_lstrip (s : string) : string :=
  match s with
  | EmptyString => EmptyString
  | String c s' => if int_space c then int_lstrip s' else s
  end.

Fixpoint int_rstrip (s : string) : string :=
  match s with
  | EmptyString => EmptyString
  | String c s' =>
      match int_rstrip s' with
      | EmptyString => if int_space c then EmptyString else String c EmptyString
      | r => String c r
      end
  end.

(** [int(s)] of an ASCII text: whitespace, an optional sign, decimal
    digits; [None] is [ValueError]. *)
Definition int (s : string) : option Z :=
  match int_rstrip (int_lstrip s) with
  | String "-" r => Z.opp <$> int_digits 0 false r
  | String "+" r => int_digits 0 false r
  | r => int_digits 0 false r
  end.


(** [s.lower()] on the ASCII range. *)
Definition lower_char (c : ascii) : ascii :=
  let n := nat_of_ascii c in
  if ((65 <=? n) && (n <=? 90))%nat then ascii_of_nat (n + 32) else c.

Fixpoint lower (s : string) : string :=
  match s with
  | EmptyString => EmptyString
  | String c s' => String (lower_char c) (lower s')
  end.

(** Truth value of an [Optional[int]]: [None] and 0 are false. *)
Definition truthy_int (n : option Z) : bool :=
  match n with
  | Some n => negb (n =? 0)
  | None => false
  end.

End Py.

(** ** [imgins.py] *)
Module Imgins.

(** *** [class SlidePositionTracker] *)

Definition is_position_occupied (tr : OccupancyTable) (slide_number : Z)
    (position : Position) : bool :=
  match tr !! slide_number with
  | None => false
  | Some occupied => bool_decide (position ∈ occupied)
  end.

Definition occupy_position (tr : OccupancyTable) (slide_number : Z)
    (position : Position) : OccupancyTable :=
  let tr1 :=
    match tr !! slide_number with
    | None => <[slide_number := ∅]> tr
    | Some _ => tr
    end in
  <[slide_number := default ∅ (tr1 !! slide_number) ∪ {[position]}]> tr1.

Definition get_next_available_position (tr : OccupancyTable)
    (slide_number : Z) : option Position :=
  List.find (fun position => negb (is_position_occupied tr slide_number position))
            available_positions.

Definition is_slide_full (tr : OccupancyTable) (slide_number : Z) : bool :=
  match get_next_available_position tr slide_number with
  | None => true
  | Some _ => false
  end.

Definition get_occupied_positions (tr : OccupancyTable) (slide_number : Z)
    : gset Position :=
  default ∅ (tr !! slide_number).

(** *** [@dataclass ImagePlacement] *)

Inductive SlideNumber : Set :=
  | Auto
  | Slide (n : Z).

Record ImagePlacement : Set := mkPlacement {
  image_number : option Z;
  slide_number : SlideNumber;
  position : option Position;
  left : option Q;
  top : option Q;
  width : option Q;
  height : option Q
}.

(** *** [class PPTImageInserter]: the resolver state is the tracker
    together with the deck, of which only [len(prs.slides)] is observed. *)

Record Inserter : Type := mkInserter {
  position_tracker : OccupancyTable;
  slides : nat
}.

(** The loop [for slide_num in range(1, len(prs.slides) + 1)] of
    [auto_assign_position], over the list of slide numbers. *)
Fixpoint scan_slides (tr : OccupancyTable) (range : list Z)
    : option (Z * Position) :=
  match range with
  | [] => None
  | slide_num :: rest =>
      match get_next_available_position tr slide_num with
      | Some available_pos => Some (slide_num, available_pos)
      | None => scan_slides tr rest
      end
  end.

(** [range(1, n + 1)]. *)
Definition range1 (n : nat) : list Z := map Z.of_nat (seq 1 n).

(** [prs.slides.add_slide(blank_layout)]. *)
Definition add_slide (st : Inserter) : Inserter :=
  mkInserter (position_tracker st) (S (slides st)).

Definition auto_assign_position (st : Inserter) (placement : ImagePlacement)
    : Inserter * (Z * Position) :=
  let tr := position_tracker st in
  let on_named_slide :=
    match slide_number placement, position placement with
    | Slide slide_num, None =>
        if bool_decide (slide_num ≤ Z.of_nat (slides st)) then
          match get_next_available_position tr slide_num with
          | Some available_pos => Some (slide_num, available_pos)
          | None => None
          end
        else None
    | _, _ => None
    end in
  match on_named_slide with
  | Some r => (st, r)
  | None =>
      match scan_slides tr (range1 (slides st)) with
      | Some r => (st, r)
      | None =>
          let st' := add_slide st in
          (st', (Z.of_nat (slides st'), hd BOTTOM_LEFT available_positions))
      end
  end.

(** Lines 417-437 of [process_mappings]: from a request to the assigned
    [(slide, position)], possibly appending a slide. *)
Definition resolve (st : Inserter) (placement : ImagePlacement)
    : Inserter * (Z * Position) :=
  match slide_number placement, position placement with
  | Slide assigned_slide, Some assigned_position =>
      if is_position_occupied (position_tracker st) assigned_slide assigned_position
      then
        match get_next_available_position (position_tracker st) assigned_slide with
        | Some alt_position => (st, (assigned_slide, alt_position))
        | None => auto_assign_position st placement
        end
      else (st, (assigned_slide, assigned_position))
  | _, _ => auto_assign_position st placement
  end.

(** What one iteration of the placement loop reports. *)
Inductive Outcome : Set :=
  | InvalidImageNumber
  | InvalidSlideNumber (assigned_slide : Z)
  | SlideIndexError (assigned_slide : Z)
  | Inserted (assigned_slide : Z) (assigned_position : Position)
  | FailedToInsert (assigned_slide : Z) (assigned_position : Position).

(** *** The existing-content scanner *)

(** [shape.shape_type == MSO_SHAPE_TYPE.PICTURE] and the corner of the
    shape, [shape.left] and [shape.top], in EMU (an [int] subclass). *)
Inductive ShapeType : Set := PICTURE | OTHER_SHAPE.

Record Shape : Set := mkShape {
  shape_type : ShapeType;
  shape_left : Z;
  shape_top : Z
}.

(** [left.inches]: EMU to inches.  The code divides in binary64 and
    compares with 3.0 and 2.5; rounding is monotone and keeps 3.0 and
    2.5, and a whole number of EMU below a threshold is below it by more
    than a rounding step, so the comparisons come out as on the exact
    quotient. *)
Definition inches (emu : Z) : Q := emu # 914400.

Definition Qltb (x y : Q) : bool := negb (Qle_bool y x).
Definition Qgeb (x y : Q) : bool := Qle_bool y x.

Definition _determine_position_from_coordinates
    (left top : Z) (slide_width slide_height : Q) : Position :=
  let left_inches := inches left in
  let top_inches := inches top in
  let left_threshold : Q := 3 # 1 in
  let top_threshold : Q := 5 # 2 in
  if Qltb left_inches left_threshold && Qltb top_inches top_threshold
  then TOP_LEFT
  else if Qgeb left_inches left_threshold && Qltb top_inches top_threshold
  then TOP_RIGHT
  else if Qltb left_inches left_threshold && Qgeb top_inches top_threshold
  then BOTTOM_LEFT
  else if Qgeb left_inches left_threshold && Qgeb top_inches top_threshold
  then BOTTOM_RIGHT
  else CENTER.

(** The inner loop [for shape in slide.shapes]. *)
Definition scan_slide (tr : OccupancyTable) (slide_num : Z)
    (shapes : list Shape) : OccupancyTable :=
  fold_left
    (fun tr shape =>
       match shape_type shape with
       | PICTURE =>
           occupy_position tr slide_num
             (_determine_position_from_coordinates
                (shape_left shape) (shape_top shape) (10 # 1) (15 # 2))
       | OTHER_SHAPE => tr
       end)
    shapes tr.

(** The outer loop [for slide_num, slide in enumerate(prs.slides, 1)],
    with the counter threaded explicitly. *)
Fixpoint scan_from (tr : OccupancyTable) (slide_num : Z)
    (prs : list (list Shape)) : OccupancyTable :=
  match prs with
  | [] => tr
  | slide :: rest => scan_from (scan_slide tr slide_num slide) (slide_num + 1) rest
  end.

Definition scan_existing_images (tr : OccupancyTable)
    (prs : list (list Shape)) : OccupancyTable :=
  scan_from tr 1 prs.

Section Resolver.

(** [len(self.image_files)]. *)
Variable image_files : nat.

(** [insert_image_to_slide]: the drawing collaborator; it reports
    success as a boolean and swallows its own exceptions.  Its
    arguments are the slide index, the image number, the position and
    the geometry overrides of the request. *)
Variable insert_image_to_slide :
  Z -> Z -> Position -> option Q -> option Q -> option Q -> option Q -> bool.

(** [not placement.image_number or placement.image_number < 1 or
    placement.image_number > len(self.image_files)]. *)
Definition invalid_image_number (placement : ImagePlacement) : bool :=
  match image_number placement with
  | None => true
  | Some i =>
      bool_decide (i = 0) || bool_decide (i < 1)
      || bool_decide (i > Z.of_nat image_files)
  end.

(** The body of [for i, placement in enumerate(placements, 1)].
    [prs.slides[assigned_slide - 1]] indexes a Python list, so an index
    below [-len(prs.slides)] raises [IndexError], which nothing in
    [process_mappings] catches. *)
Definition process_placement (st : Inserter) (placement : ImagePlacement)
    : Inserter * Outcome :=
  if invalid_image_number placement then (st, InvalidImageNumber)
  else
    let '(st1, (assigned_slide, assigned_position)) := resolve st placement in
    if bool_decide (assigned_slide > Z.of_nat (slides st1))
    then (st1, InvalidSlideNumber assigned_slide)
    else if bool_decide (assigned_slide - 1 < - Z.of_nat (slides st1))
    then (st1, SlideIndexError assigned_slide)
    else
      if insert_image_to_slide assigned_slide
           (default 0 (image_number placement)) assigned_position
           (left placement) (top placement) (width placement) (height placement)
      then
        (mkInserter
           (occupy_position (position_tracker st1) assigned_slide assigned_position)
           (slides st1),
         Inserted assigned_slide assigned_position)
      else (st1, FailedToInsert assigned_slide assigned_position).

(** The placement loop of [process_mappings]; an uncaught
    [IndexError] ends it. *)
Fixpoint process_placements (st : Inserter) (placements : list ImagePlacement)
    : Inserter * list Outcome :=
  match placements with
  | [] => (st, [])
  | placement :: rest =>
      let '(st1, o) := process_placement st placement in
      match o with
      | SlideIndexError _ => (st1, [o])
      | _ =>
          let '(st2, os) := process_placements st1 rest in
          (st2, o :: os)
      end
  end.

(** [process_mappings], from the loaded (or freshly created) deck on;
    [prs = None] is the branch [Presentation()] with one blank slide,
    and the tracker starts as [SlidePositionTracker()]. *)
Definition initial_inserter (prs : option (list (list Shape))) : Inserter :=
  match prs with
  | Some deck => mkInserter (scan_existing_images ∅ deck) (length deck)
  | None => mkInserter ∅ 1
  end.

Definition process_mappings (prs : option (list (list Shape)))
    (placements : list ImagePlacement) : Inserter * list Outcome :=
  process_placements (initial_inserter prs) placements.

End Resolver.

(** *** Mapping ingestion *)

(** What a parser call does: it returns, it raises [ValueError] (fatal
    for the run: [process_mappings] reports the error and stops), or it
    stores a value that is not of the annotated type of the
    [ImagePlacement] field (outside this model). *)
Inductive Parse (A : Type) : Type :=
  | Returned (a : A)
  | ValueError
  | IllTyped.
Arguments Returned {A} a.
Arguments ValueError {A}.
Arguments IllTyped {A}.

(** A decoded JSON value ([json.load]). *)
Inductive JValue : Set :=
  | JNull
  | JBool (b : bool)
  | JInt (z : Z)
  | JNum (q : Q)
  | JStr (s : string)
  | JArray
  | JObject.

(** What one line of the line-oriented form does. *)
Inductive LineResult : Set :=
  | Ignored
  | SkippedInvalid
  | SkippedError
  | Parsed (placement : ImagePlacement).

Section Parsers.

Local Open Scope string_scope.

(** [float(s)]; [None] is [ValueError]. *)
Variable float : string -> option Q.

(** **** [_parse_json_mapping]: [data] is a list of objects. *)

Definition json_position (item : gmap string JValue) : option (option Position) :=
  match item !! "position" with
  | None => Some None
  | Some (JStr position_str) =>
      if String.eqb position_str "auto" then Some None
      else Some <$> Position_of_value position_str
  | Some _ => None
  end.

Definition json_image_number (item : gmap string JValue) : Parse (option Z) :=
  match item !! "image_number" with
  | None | Some JNull => Returned None
  | Some (JInt z) => Returned (Some z)
  | Some _ => IllTyped
  end.

Definition json_slide_number (item : gmap string JValue) : Parse SlideNumber :=
  match item !! "slide_number" with
  | None => Returned Auto
  | Some (JStr s) => if String.eqb s "auto" then Returned Auto else IllTyped
  | Some (JInt z) => Returned (Slide z)
  | Some _ => IllTyped
  end.

Definition json_number (item : gmap string JValue) (key : string)
    : Parse (option Q) :=
  match item !! key with
  | None | Some JNull => Returned None
  | Some (JInt z) => Returned (Some (inject_Z z))
  | Some (JNum q) => Returned (Some q)
  | Some _ => IllTyped
  end.

Definition parse_json_item (item : gmap string JValue) : Parse ImagePlacement :=
  match json_position item with
  | None => ValueError
  | Some position =>
      match json_image_number item, json_slide_number item,
            json_number item "left", json_number item "top",
            json_number item "width", json_number item "height" with
      | Returned i, Returned s, Returned l, Returned t, Returned w, Returned h =>
          Returned (mkPlacement i s position l t w h)
      | _, _, _, _, _, _ => IllTyped
      end
  end.

Fixpoint _parse_json_mapping (data : list (gmap string JValue))
    : Parse (list ImagePlacement) :=
  match data with
  | [] => Returned []
  | item :: rest =>
      match parse_json_item item with
      | Returned placement =>
          match _parse_json_mapping rest with
          | Returned placements => Returned (placement :: placements)
          | ValueError => ValueError
          | IllTyped => IllTyped
          end
      | ValueError => ValueError
      | IllTyped => IllTyped
      end
  end.

(** **** [_parse_csv_mapping]: the rows of [csv.DictReader], a value
    being [None] where the row is shorter than the header. *)

(** [row.get(key, dflt)]. *)
Definition row_get (row : gmap string (option string)) (key : string)
    (dflt : option string) : option string :=
  match row !! key with
  | Some v => v
  | None => dflt
  end.

Definition csv_float (row : gmap string (option string)) (key : string)
    : option (option Q) :=
  match row_get row key None with
  | Some v =>
      if Py.truthy v && Py.truthy (Py.strip v) then Some <$> float v
      else Some None
  | None => Some None
  end.

Definition parse_csv_row (row : gmap string (option string))
    : option ImagePlacement :=
  position ←
    match row_get row "position" (Some "auto") with
    | Some position_str =>
        if String.eqb position_str "auto" then Some None
        else Some <$> Position_of_value position_str
    | None => None
    end;
  slide_number ←
    match row_get row "slide_number" (Some "auto") with
    | Some slide_number =>
        if String.eqb slide_number "auto" then Some Auto
        else if Py.truthy slide_number then Slide <$> Py.int slide_number
        else Some Auto
    | None => Some Auto
    end;
  image_number ←
    match row_get row "image_number" None with
    | Some v => if Py.truthy v then Some <$> Py.int v else Some None
    | None => Some None
    end;
  left ← csv_float row "left";
  top ← csv_float row "top";
  width ← csv_float row "width";
  height ← csv_float row "height";
  Some (mkPlacement image_number slide_number position left top width height).

Fixpoint _parse_csv_mapping (reader : list (gmap string (option string)))
    : Parse (list ImagePlacement) :=
  match reader with
  | [] => Returned []
  | row :: rest =>
      match parse_csv_row row with
      | Some placement =>
          match _parse_csv_mapping rest with
          | Returned placements => Returned (placement :: placements)
          | e => e
          end
      | None => ValueError
      end
  end.

(** **** [_parse_txt_mapping]: the lines of the file. *)

(** [parts[i].strip() if len(parts) > i and parts[i].strip() else 'auto']. *)
Definition part_or_auto (parts : list string) (i : nat) : string :=
  match parts !! i with
  | Some part => if Py.truthy (Py.strip part) then Py.strip part else "auto"
  | None => "auto"
  end.

(** [float(parts[i]) if len(parts) > i and parts[i].strip() else None]. *)
Definition part_float (parts : list string) (i : nat) : option (option Q) :=
  match parts !! i with
  | Some part => if Py.truthy (Py.strip part) then Some <$> float part else Some None
  | None => Some None
  end.

(** The [try] block; [None] is the [except (ValueError, IndexError)]. *)
Definition parse_txt_parts (parts : list string) : option ImagePlacement :=
  slide_number ←
    (let slide_number := part_or_auto parts 1 in
     if String.eqb slide_number "auto" then Some Auto
     else Slide <$> Py.int slide_number);
  position ←
    (let position_str := part_or_auto parts 2 in
     if String.eqb position_str "auto" then Some None
     else Some <$> Position_of_value position_str);
  image_number ←
    match parts !! 0%nat with
    | Some part => if Py.truthy (Py.strip part) then Some <$> Py.int part else Some None
    | None => None
    end;
  left ← part_float parts 3;
  top ← part_float parts 4;
  width ← part_float parts 5;
  height ← part_float parts 6;
  Some (mkPlacement image_number slide_number position left top width height).

(** The body of [for line_num, line in enumerate(f, 1)]. *)
Definition parse_txt_line (line : string) : LineResult :=
  let line := Py.strip line in
  if negb (Py.truthy line) || Py.startswith "#" line then Ignored
  else
    let parts :=
      if Py.contains ":" line then Py.split ":" line
      else Py.split_whitespace line in
    if (length parts <? 1)%nat then SkippedInvalid
    else
      match parse_txt_parts parts with
      | Some placement => Parsed placement
      | None => SkippedError
      end.

(** The loop, returning [placements] and the line numbers for which a
    warning was printed. *)
Fixpoint parse_txt_lines (line_num : nat) (f : list string)
    : list ImagePlacement * list nat :=
  match f with
  | [] => ([], [])
  | line :: rest =>
      let '(placements, warnings) := parse_txt_lines (S line_num) rest in
      match parse_txt_line line with
      | Ignored => (placements, warnings)
      | SkippedInvalid | SkippedError => (placements, line_num :: warnings)
      | Parsed placement => (placement :: placements, warnings)
      end
  end.

Definition _parse_txt_mapping (f : list string) : list ImagePlacement :=
  fst (parse_txt_lines 1 f).

End Parsers.


(** *** The coordinate mapper *)

(** A Python float is a binary64 number: 53 bits of precision,
    exponents below 1024, results rounded to the nearest, ties to
    even. *)
Definition binary64 : Set := SpecFloat.spec_float.

(** The float nearest to [m * 2 ** e].  A whole number below [2 ** 53]
    is itself ([float_of m 0]); the literal [0.5] is [float_of 1 (-1)]. *)
Definition float_of (m e : Z) : binary64 :=
  SpecFloat.binary_normalize 53 1024 m e false.

(** [x * y] and [x / y] on floats. *)
Definition float_mul (x y : binary64) : binary64 :=
  SpecFloat.SFmul 53 1024 x y.

Definition float_div (x y : binary64) : binary64 :=
  SpecFloat.SFdiv 53 1024 x y.

(** [int(x)] of a float: the value cut towards zero; [None] is the
    [OverflowError] for an infinity and the [ValueError] for a NaN. *)
Definition int_of_float (x : binary64) : option Z :=
  match x with
  | SpecFloat.S754_zero _ => Some 0
  | SpecFloat.S754_finite negative m e =>
      let magnitude :=
        if 0 <=? e then Z.shiftl (Zpos m) e else Z.shiftr (Zpos m) (- e) in
      Some (if negative then - magnitude else magnitude)
  | SpecFloat.S754_infinity _ | SpecFloat.S754_nan => None
  end.

(** [Inches(inches)] of [pptx.util]: the length [int(inches * 914400)]
    in EMU, the product being that of two floats. *)
Definition Inches (inches : binary64) : option Z :=
  int_of_float (float_mul inches (float_of 914400 0)).

(** [get_position_coordinates]: the anchor, in inches, of each key of
    the dictionary [positions].  For any other position the [else]
    branch divides a difference of lengths by 2, which gives a [float],
    and then reads its attribute [inches], which a [float] does not
    have: [None] is that [AttributeError].  The only caller,
    [insert_image_to_slide], handles center and custom before it gets
    here.  The literals [0.5], [5.0] and [6.0] of the dictionary are
    exact floats. *)
Definition get_position_coordinates (position : Position)
    (width height : option Q) : option (binary64 * binary64) :=
  let half := float_of 1 (-1) in
  let five := float_of 5 0 in
  let six := float_of 6 0 in
  match position with
  | TOP_LEFT => Some (half, half)
  | TOP_RIGHT => Some (six, half)
  | BOTTOM_LEFT => Some (half, five)
  | BOTTOM_RIGHT => Some (six, five)
  | CENTER | CUSTOM => None
  end.

End Imgins.

(** ** [doc_json.py] (the same classes appear in [doc_json2.py]) *)
Module DocJson.

(** *** [class PositionManager]; a query returns the table as well,
    because [get_next_available_position] writes to it. *)

Definition get_next_available_position (m : OccupancyTable) (slide_number : Z)
    : OccupancyTable * option Position :=
  let m1 :=
    match m !! slide_number with
    | None => <[slide_number := ∅]> m
    | Some _ => m
    end in
  (m1,
   List.find
     (fun position => negb (bool_decide (position ∈ default ∅ (m1 !! slide_number))))
     available_positions).

Definition occupy_position (m : OccupancyTable) (slide_number : Z)
    (position : Position) : OccupancyTable :=
  let m1 :=
    match m !! slide_number with
    | None => <[slide_number := ∅]> m
    | Some _ => m
    end in
  <[slide_number := default ∅ (m1 !! slide_number) ∪ {[position]}]> m1.

Definition is_slide_full (m : OccupancyTable) (slide_number : Z)
    : OccupancyTable * bool :=
  let '(m1, r) := get_next_available_position m slide_number in
  (m1, match r with None => true | Some _ => false end).

Definition get_available_count (m : OccupancyTable) (slide_number : Z) : Z :=
  match m !! slide_number with
  | None => Z.of_nat (length available_positions)
  | Some occupied => Z.of_nat (length available_positions) - Z.of_nat (size occupied)
  end.

(** *** [@dataclass SlideMapping] *)
Record SlideMapping : Set := mkSlideMapping {
  slide_number : Z;
  image_numbers : list Z;
  positions : list Position
}.

(** One record of [json_entries]. *)
Record Entry : Set := mkEntry {
  entry_image_number : Z;
  entry_slide_number : Z;
  entry_position : Position;
  entry_width : Q;
  entry_height : Q
}.

(** *** [class JSONGenerator] *)

(** The largest slide number the table knows, or [d]. *)
Definition max_slide (m : OccupancyTable) (d : Z) : Z :=
  foldr Z.max d (map fst (map_to_list m)).

(** The loop [while self.position_manager.is_slide_full(next_slide):
    next_slide += 1], unrolled at most [fuel] times; [None] when the
    fuel runs out before the loop exits. *)
Fixpoint find_slide_loop (fuel : nat) (m : OccupancyTable) (next_slide : Z)
    : option (OccupancyTable * Z) :=
  match fuel with
  | O => None
  | S fuel' =>
      let '(m1, full) := is_slide_full m next_slide in
      if full then find_slide_loop fuel' m1 (next_slide + 1)
      else Some (m1, next_slide)
  end.

(** Iterations that always suffice: a full slide is a key of the table,
    so the loop stops at the latest just past the largest key. *)
Definition loop_fuel (m : OccupancyTable) (next_slide : Z) : nat :=
  S (Z.to_nat (max_slide m next_slide + 1 - next_slide)).

Definition _find_or_create_slide (m : OccupancyTable) (current_slide : Z)
    : option (OccupancyTable * Z) :=
  let next_slide := current_slide + 1 in
  find_slide_loop (loop_fuel m next_slide) m next_slide.

Section Generator.

Variables default_width default_height : Q.

(** The body of [for i, img_num in enumerate(image_numbers)]; the
    state is the table, the running [slide_num] and [json_entries]. *)
Definition assign_image (st : OccupancyTable * Z * list Entry) (img_num : Z)
    : option (OccupancyTable * Z * list Entry) :=
  let '(m, slide_num, json_entries) := st in
  let '(m1, full) := is_slide_full m slide_num in
  '(m2, slide_num) ← (if full then _find_or_create_slide m1 slide_num
                       else Some (m1, slide_num));
  let '(m3, position) := get_next_available_position m2 slide_num in
  match position with
  | Some position =>
      Some (occupy_position m3 slide_num position, slide_num,
            json_entries ++
              [mkEntry img_num slide_num position default_width default_height])
  | None => Some (m3, slide_num, json_entries)
  end.

Fixpoint assign_images (st : OccupancyTable * Z * list Entry)
    (image_numbers : list Z) : option (OccupancyTable * Z * list Entry) :=
  match image_numbers with
  | [] => Some st
  | img_num :: rest => st1 ← assign_image st img_num; assign_images st1 rest
  end.

(** The second pass of [generate_json_mapping]: [for mapping in
    mappings], returning the table and [json_entries]. *)
Fixpoint assign_mappings (m : OccupancyTable) (json_entries : list Entry)
    (mappings : list SlideMapping) : option (OccupancyTable * list Entry) :=
  match mappings with
  | [] => Some (m, json_entries)
  | mapping :: rest =>
      '(m1, _, json_entries1) ←
        assign_images (m, slide_number mapping, json_entries)
                      (image_numbers mapping);
      assign_mappings m1 json_entries1 rest
  end.

Definition generate_json_mapping (mappings : list SlideMapping)
    : option (OccupancyTable * list Entry) :=
  assign_mappings ∅ [] mappings.

End Generator.


(** The dictionary [slide_usage] that [_analyze_slide_usage] builds
    before it prints its report: images per slide number. *)
Definition _analyze_slide_usage (mappings : list SlideMapping) : gmap Z Z :=
  fold_left
    (fun slide_usage mapping =>
       let slide_num := slide_number mapping in
       let image_count := Z.of_nat (length (image_numbers mapping)) in
       match slide_usage !! slide_num with
       | Some count => <[slide_num := count + image_count]> slide_usage
       | None => <[slide_num := image_count]> slide_usage
       end)
    mappings ∅.

(** The report line of a slide says [exceeds] when [count >
    max_positions]. *)
Definition reported_exceeding (count : Z) : bool :=
  bool_decide (count > Z.of_nat (length available_positions)).


(** The dictionary [entry] that [generate_json_mapping] appends to
    [json_entries], as the JSON object that [json.dump] writes and
    [json.load] reads back: integers, a string and two reals. *)
Definition entry_json (e : Entry) : gmap string Imgins.JValue :=
  {[ "image_number" := Imgins.JInt (entry_image_number e);
     "slide_number" := Imgins.JInt (entry_slide_number e);
     "position" := Imgins.JStr (Position_value (entry_position e));
     "width" := Imgins.JNum (entry_width e);
     "height" := Imgins.JNum (entry_height e) ]}.


(** *** [DocumentParser._parse_number_list] (both generator scripts) *)

(** A character of the class [[,\s]]. *)
Definition is_separator (c : ascii) : bool :=
  Ascii.eqb c "," || Py.isspace c.

(** [re.split(r'[,\s]+', s)]: the texts between the runs of separators,
    an empty text before a leading run and after a trailing one;
    [in_run] says that the character before was a separator. *)
Fixpoint re_split_separators (in_run : bool) (s : string) : list string :=
  match s with
  | EmptyString => [EmptyString]
  | String c s' =>
      if is_separator c then
        if in_run then re_split_separators true s'
        else EmptyString :: re_split_separators true s'
      else
        match re_split_separators false s' with
        | w :: ws => String c w :: ws
        | [] => [String c EmptyString]
        end
  end.

(** [part.split(sep, 1)] when [sep in part]: the text before the first
    separator and the text after it. *)
Fixpoint split_once (sep : ascii) (s : string) : option (string * string) :=
  match s with
  | EmptyString => None
  | String c s' =>
      if Ascii.eqb c sep then Some (EmptyString, s')
      else
        match split_once sep s' with
        | Some (a, b) => Some (String c a, b)
        | None => None
        end
  end.

(** What one pass of the loop [for part in parts] adds to [numbers]. *)
Definition part_numbers (part : string) : list Z :=
  let single :=
    match Py.int part with
    | Some n => [n]
    | None => []
    end in
  if Py.contains "-" part && negb (Py.startswith "-" part) then
    match split_once "-" part with
    | Some (a, b) =>
        match Py.int a, Py.int b with
        | Some start, Some end_ => seqZ start (end_ + 1 - start)
        | _, _ => single
        end
    | None => single
    end
  else single.

(** [sorted(list(set(numbers)))]. *)
Definition sorted_set (numbers : list Z) : list Z :=
  merge_sort Z.le (remove_dups numbers).

Definition _parse_number_list (numbers_str : string) : list Z :=
  let parts := re_split_separators false (Py.strip numbers_str) in
  sorted_set (flat_map part_numbers parts).


(** *** [DocumentParser._parse_slide_mappings] ([doc_json2.py]) *)

Section SlideMappings.

(** [_find_slide_number]: the first pattern of [slide_patterns] that
    [re.search] finds in the line, and [int] of its group [(\d+)]. *)
Variable _find_slide_number : string -> option Z.

(** The group 1 of the first pattern of [image_patterns] that [re.search]
    finds in the line. *)
Variable image_match : string -> option string.

Definition _find_image_numbers (line : string) : list Z :=
  match image_match line with
  | Some numbers_str => _parse_number_list numbers_str
  | None => []
  end.

(** One pass of [for line_num, line in enumerate(lines, 1)]; the state
    is [current_slide] and [mappings]. *)
Definition slide_mappings_step (state : option Z * list SlideMapping)
    (line : string) : option Z * list SlideMapping :=
  let '(current_slide, mappings) := state in
  let line := Py.lower (Py.strip line) in
  if negb (Py.truthy line) then state
  else
    let slide_match := _find_slide_number line in
    if Py.truthy_int slide_match then (slide_match, mappings)
    else
      match current_slide with
      | Some slide =>
          let image_numbers := _find_image_numbers line in
          match image_numbers with
          | _ :: _ =>
              (None, mappings ++ [mkSlideMapping slide image_numbers []])
          | [] => state
          end
      | None => state
      end.

Definition _parse_slide_mappings (text : string) : list SlideMapping :=
  let lines := Py.split "010" text in
  snd (fold_left slide_mappings_step lines (None, [])).

End SlideMappings.

(** *** [DocumentParser._parse_document_with_images] ([doc_json.py]) *)

(** A paragraph of the Word document: its text, and how many embedded
    images [_extract_images_from_paragraph] gets to save from it. *)
Record Paragraph : Set := mkParagraph {
  para_text : string;
  para_images : nat
}.

(** A table cell: its text and its paragraphs. *)
Record Cell : Set := mkCell {
  cell_text : string;
  cell_paragraphs : list Paragraph
}.

(** [doc.paragraphs] and [doc.tables], a table being its rows of cells. *)
Record Document : Set := mkDocument {
  paragraphs : list Paragraph;
  tables : list (list (list Cell))
}.

(** [_extract_images_from_paragraph]: every image saved gets the number
    [self.image_counter], which then goes up by one; the numbers are
    returned, and the counter with them. *)
Definition _extract_images_from_paragraph (image_counter : Z) (para : Paragraph)
    : list Z * Z :=
  (seqZ image_counter (Z.of_nat (para_images para)),
   image_counter + Z.of_nat (para_images para)).

(** [if current_slide is not None and slide_images: mappings.append(...)]. *)
Definition append_slide (mappings : list SlideMapping)
    (current_slide : option Z) (slide_images : list Z) : list SlideMapping :=
  match current_slide, slide_images with
  | Some slide, _ :: _ => mappings ++ [mkSlideMapping slide slide_images []]
  | _, _ => mappings
  end.

Section DocumentWithImages.

Variable _find_slide_number : string -> option Z.

(** One pass of [for para in doc.paragraphs]; the state is [mappings],
    [current_slide], [slide_images] and [self.image_counter]. *)
Definition paragraph_step
    (state : list SlideMapping * option Z * list Z * Z) (para : Paragraph)
    : list SlideMapping * option Z * list Z * Z :=
  let '(mappings, current_slide, slide_images, image_counter) := state in
  let text := Py.strip (para_text para) in
  let slide_match :=
    if Py.truthy text then _find_slide_number (Py.lower text) else None in
  let '(mappings, current_slide, slide_images) :=
    if Py.truthy_int slide_match
    then (append_slide mappings current_slide slide_images, slide_match, [])
    else (mappings, current_slide, slide_images) in
  match current_slide with
  | Some _ =>
      let '(para_images, image_counter) :=
        _extract_images_from_paragraph image_counter para in
      (mappings, current_slide, slide_images ++ para_images, image_counter)
  | None => (mappings, current_slide, slide_images, image_counter)
  end.

(** [for para in cell.paragraphs: slide_images.extend(...)]. *)
Definition extend_from_paragraph (state : list Z * Z) (para : Paragraph)
    : list Z * Z :=
  let '(slide_images, image_counter) := state in
  let '(para_images, image_counter) :=
    _extract_images_from_paragraph image_counter para in
  (slide_images ++ para_images, image_counter).

(** One pass of [for cell in row.cells]. *)
Definition cell_step (state : option Z * list Z * Z) (cell : Cell)
    : option Z * list Z * Z :=
  let '(current_slide, slide_images, image_counter) := state in
  let cell_text := Py.lower (Py.strip (cell_text cell)) in
  let slide_match :=
    if Py.truthy cell_text then _find_slide_number cell_text else None in
  let current_slide :=
    if Py.truthy_int slide_match then slide_match else current_slide in
  match current_slide with
  | Some _ =>
      let '(slide_images, image_counter) :=
        fold_left extend_from_paragraph (cell_paragraphs cell)
                  (slide_images, image_counter) in
      (current_slide, slide_images, image_counter)
  | None => (current_slide, slide_images, image_counter)
  end.

(** One pass of [for row in table.rows]. *)
Definition row_step (state : list SlideMapping * Z) (row : list Cell)
    : list SlideMapping * Z :=
  let '(mappings, image_counter) := state in
  let '(current_slide, slide_images, image_counter) :=
    fold_left cell_step row (None, [], image_counter) in
  (append_slide mappings current_slide slide_images, image_counter).

Definition _process_table_with_images (image_counter : Z)
    (table : list (list Cell)) : list SlideMapping * Z :=
  fold_left row_step table ([], image_counter).

(** One pass of [for table in doc.tables]. *)
Definition table_step (state : list SlideMapping * Z)
    (table : list (list Cell)) : list SlideMapping * Z :=
  let '(mappings, image_counter) := state in
  let '(table_mappings, image_counter) :=
    _process_table_with_images image_counter table in
  (mappings ++ table_mappings, image_counter).

(** The mappings, and [self.image_counter] at the end. *)
Definition _parse_document_with_images (image_counter : Z) (doc : Document)
    : list SlideMapping * Z :=
  let '(mappings, current_slide, slide_images, image_counter) :=
    fold_left paragraph_step (paragraphs doc) ([], None, [], image_counter) in
  let '(mappings, image_counter) :=
    fold_left table_step (tables doc) (mappings, image_counter) in
  (append_slide mappings current_slide slide_images, image_counter).

End DocumentWithImages.

End DocJson.

(** * Specifications used by the statements *)

(** [r] is the first slot of the preference order that [occupied] does
    not hold, or [None] when it holds all three. *)
Definition first_free (occupied : Position -> bool) (r : option Position) : Prop :=
  match r with
  | Some p =>
      exists before after,
        available_positions = before ++ p :: after
        /\ occupied p = false
        /\ forall q, In q before -> occupied q = true
  | None => forall q, In q available_positions -> occupied q = true
  end.

(** [isOccupied(slide, slot)] read off a table: an absent slide holds
    nothing. *)
Definition isOccupied (m : OccupancyTable) (slide : Z) (slot : Position) : bool :=
  bool_decide (slot ∈ default ∅ (m !! slide)).

(** Rule (1) of the resolver, search then create: the first existing
    slide, in ascending order, with a free eligible slot, that slot being
    the next available one there; when every existing slide is full, a
    slide appended to the deck and the first slot of the preference
    order. *)
Definition search_then_create (st : Imgins.Inserter)
    (r : Imgins.Inserter * (Z * Position)) : Prop :=
  let tr := Imgins.position_tracker st in
  let n := Z.of_nat (Imgins.slides st) in
  let '(st', (k, q)) := r in
  (st' = st /\ 1 <= k <= n
   /\ Imgins.get_next_available_position tr k = Some q
   /\ forall j, 1 <= j < k -> Imgins.get_next_available_position tr j = None)
  \/
  (st' = Imgins.add_slide st /\ k = n + 1 /\ q = BOTTOM_LEFT
   /\ forall j, 1 <= j <= n -> Imgins.get_next_available_position tr j = None).

(** No eligible slot of the slide is marked. *)
Definition empty_slide (tr : OccupancyTable) (s : Z) : Prop :=
  forall p, In p available_positions -> Imgins.is_position_occupied tr s p = false.

(** No slide the table knows lies beyond the end of the deck. *)
Definition within_deck (st : Imgins.Inserter) : Prop :=
  forall s, is_Some (Imgins.position_tracker st !! s) ->
            s <= Z.of_nat (Imgins.slides st).

(** The table after the manager of [doc_json.py] was asked about a
    slide: the slide is a key, with the empty set if it was absent. *)
Definition touched (m : OccupancyTable) (s : Z) : OccupancyTable :=
  match m !! s with
  | Some _ => m
  | None => <[s := ∅]> m
  end.

(** Every stored slot is one of the three eligible ones. *)
Definition eligible_only (m : OccupancyTable) : Prop :=
  forall s occ p, m !! s = Some occ -> p ∈ occ -> In p available_positions.

(** A slide is a key only once a slot was marked on it: no key holds
    the empty set. *)
Definition marked_only (tr : OccupancyTable) : Prop :=
  forall s occ, tr !! s = Some occ -> occ <> ∅.

(** The positions that requests naming both a slide and a position ask
    for. *)
Definition requested_positions (placements : list Imgins.ImagePlacement)
    : list Position :=
  flat_map
    (fun pl =>
       match Imgins.slide_number pl, Imgins.position pl with
       | Imgins.Slide _, Some p => [p]
       | _, _ => []
       end)
    placements.

(** Every stored slot is an eligible slot, or top-left, or a position
    that some request named. *)
Definition stored_from (tr : OccupancyTable) (requested : list Position) : Prop :=
  forall s occ p,
    tr !! s = Some occ -> p ∈ occ ->
    In p available_positions \/ p = TOP_LEFT \/ In p requested.

(** The fields of a line of the line-oriented form, as
    [_parse_txt_mapping] cuts them. *)
Definition txt_parts (line : string) : list string :=
  let line := Py.strip line in
  if Py.contains ":" line then Py.split ":" line else Py.split_whitespace line.

(** A blank line or a comment line. *)
Definition blank_or_comment (line : string) : bool :=
  negb (Py.truthy (Py.strip line)) || Py.startswith "#" (Py.strip line).

(** A record whose image-number field is not blank and is not an
    integer. *)
Definition unparsable_image_number (line : string) : bool :=
  negb (blank_or_comment line)
  && match txt_parts line with
     | part :: _ =>
         Py.truthy (Py.strip part)
         && match Py.int part with Some _ => false | None => true end
     | [] => false
     end.

(** A record whose image-number field is blank. *)
Definition missing_image_number (line : string) : bool :=
  negb (blank_or_comment line)
  && match txt_parts line with
     | part :: _ => negb (Py.truthy (Py.strip part))
     | [] => false
     end.

(** The [i]-th field of a record as written, empty when left out. *)
Definition field_text (parts : list string) (i : nat) : string :=
  default EmptyString (parts !! i).

Definition readable {A : Type} (value : option A) : bool :=
  match value with
  | Some _ => true
  | None => false
  end.

(** The slide field is blank, [auto] or an integer. *)
Definition slide_field_ok (text : string) : bool :=
  negb (Py.truthy (Py.strip text))
  || String.eqb (Py.strip text) "auto"
  || readable (Py.int (Py.strip text)).

(** The position field is blank, [auto] or the name of a position. *)
Definition position_field_ok (text : string) : bool :=
  negb (Py.truthy (Py.strip text))
  || String.eqb (Py.strip text) "auto"
  || readable (Position_of_value (Py.strip text)).

(** A number field is blank or a number. *)
Definition number_field_ok (float : string -> option Q) (text : string)
    : bool :=
  negb (Py.truthy (Py.strip text)) || readable (float text).

(** The fields of a record after the image number can all be read. *)
Definition other_fields_parse (float : string -> option Q)
    (parts : list string) : bool :=
  slide_field_ok (field_text parts 1)
  && position_field_ok (field_text parts 2)
  && forallb (fun i => number_field_ok float (field_text parts i))
       [3; 4; 5; 6]%nat.

(** *** One record as text, and its three encodings *)

(** The seven fields of a record as they are written in a mapping file;
    an empty text stands for a field left out. *)
Record RecordText : Set := mkRecordText {
  image_text : string;
  slide_text : string;
  position_text : string;
  left_text : string;
  top_text : string;
  width_text : string;
  height_text : string
}.

Definition fields (r : RecordText) : list string :=
  [image_text r; slide_text r; position_text r;
   left_text r; top_text r; width_text r; height_text r].

(** A field is written without a colon and without blanks around it. *)
Definition plain (t : string) : Prop :=
  Py.contains ":" t = false /\ Py.strip t = t.

(** What the fields mean: [auto] or nothing for the slide is [Auto]; the
    slot is spelled out, as a position value or as [auto]. *)
Definition text_slide (t : string) : option Imgins.SlideNumber :=
  if String.eqb t "auto" || negb (Py.truthy t) then Some Imgins.Auto
  else Imgins.Slide <$> Py.int t.

Definition text_position (t : string) : option (option Position) :=
  if String.eqb t "auto" then Some None else Some <$> Position_of_value t.

Definition text_number (float : string -> option Q) (t : string)
    : option (option Q) :=
  if Py.truthy t then Some <$> float t else Some None.

Definition placement_of (float : string -> option Q) (r : RecordText)
    : option Imgins.ImagePlacement :=
  i ← Py.int (image_text r);
  s ← text_slide (slide_text r);
  p ← text_position (position_text r);
  l ← text_number float (left_text r);
  t ← text_number float (top_text r);
  w ← text_number float (width_text r);
  h ← text_number float (height_text r);
  Some (Imgins.mkPlacement (Some i) s p l t w h).

(** The line-oriented form: the fields joined by colons. *)
Definition txt_line (r : RecordText) : string :=
  (image_text r ++ ":" ++ slide_text r ++ ":" ++ position_text r ++ ":"
   ++ left_text r ++ ":" ++ top_text r ++ ":" ++ width_text r ++ ":"
   ++ height_text r)%string.

(** The delimited form: the row [csv.DictReader] makes of the cells. *)
Definition csv_row (r : RecordText) : gmap string (option string) :=
  {[ "image_number" := Some (image_text r);
     "slide_number" := Some (slide_text r);
     "position" := Some (position_text r);
     "left" := Some (left_text r);
     "top" := Some (top_text r);
     "width" := Some (width_text r);
     "height" := Some (height_text r) ]}.

(** The sequential-record form: the object [json.load] makes of the same
    literals, a number left out being [null]. *)
Definition json_integer (t : string) : Imgins.JValue :=
  match Py.int t with
  | Some z => Imgins.JInt z
  | None => Imgins.JStr t
  end.

Definition json_real (float : string -> option Q) (t : string) : Imgins.JValue :=
  match text_number float t with
  | Some (Some q) => Imgins.JNum q
  | _ => Imgins.JNull
  end.

Definition json_item (float : string -> option Q) (r : RecordText)
    : gmap string Imgins.JValue :=
  {[ "image_number" := json_integer (image_text r);
     "slide_number" :=
       (if String.eqb (slide_text r) "auto" || negb (Py.truthy (slide_text r))
        then Imgins.JStr "auto" else json_integer (slide_text r));
     "position" := Imgins.JStr (position_text r);
     "left" := json_real float (left_text r);
     "top" := json_real float (top_text r);
     "width" := json_real float (width_text r);
     "height" := json_real float (height_text r) ]}.

(** The quadrant rule as the specification words it: the corner against
    the midpoints of the 10 x 7.5 canvas. *)
Definition classify_by_midpoints (left top : Z) : Position :=
  let midX : Q := 5 # 1 in
  let midY : Q := 15 # 4 in
  let l := Imgins.inches left in
  let t := Imgins.inches top in
  if Imgins.Qltb l midX && Imgins.Qltb t midY then TOP_LEFT
  else if Imgins.Qgeb l midX && Imgins.Qltb t midY then TOP_RIGHT
  else if Imgins.Qltb l midX && Imgins.Qgeb t midY then BOTTOM_LEFT
  else BOTTOM_RIGHT.


(** *** What a run did *)

(** The pairs at which the placement loop inserted an image, in order. *)
Definition inserted_pairs (outcomes : list Imgins.Outcome) : list (Z * Position) :=
  flat_map
    (fun o =>
       match o with
       | Imgins.Inserted s p => [(s, p)]
       | _ => []
       end)
    outcomes.


(** A request leaves the slide to the resolver or names a slide
    numbered 1 or more. *)
Definition names_slide_from_1 (pl : Imgins.ImagePlacement) : Prop :=
  match Imgins.slide_number pl with
  | Imgins.Auto => True
  | Imgins.Slide s => 1 <= s
  end.

(** The slide, counted from 1, that [prs.slides[assigned_slide - 1]]
    is in a deck of [n] slides: Python counts an index below 0 from the
    end of the sequence. *)
Definition slide_drawn_on (n : nat) (assigned_slide : Z) : Z :=
  if 1 <=? assigned_slide then assigned_slide
  else Z.of_nat n + assigned_slide.


(** *** What the scanner sees *)

(** Slide [s] of the deck, counted from 1, holds a picture whose corner
    the scanner classifies as [p]. *)
Definition picture_at (deck : list (list Imgins.Shape)) (s : Z) (p : Position)
    : Prop :=
  exists (i : nat) shapes shape,
    deck !! i = Some shapes
    /\ s = Z.of_nat i + 1
    /\ In shape shapes
    /\ Imgins.shape_type shape = Imgins.PICTURE
    /\ Imgins._determine_position_from_coordinates
         (Imgins.shape_left shape) (Imgins.shape_top shape) (10 # 1) (15 # 2)
       = p.


(** *** What the generator is asked and what it answers *)

(** The (image, slide) requests of a list of mappings, in order. *)
Definition requests (mappings : list DocJson.SlideMapping) : list (Z * Z) :=
  flat_map
    (fun mapping =>
       map (fun img_num => (img_num, DocJson.slide_number mapping))
           (DocJson.image_numbers mapping))
    mappings.

(** The (slide, position) pairs of a list of entries, in order. *)
Definition entry_pairs (entries : list DocJson.Entry) : list (Z * Position) :=
  map (fun e => (DocJson.entry_slide_number e, DocJson.entry_position e)) entries.

(** The table of the generator says what its entries say, no pair is
    given twice, and only eligible slots are stored. *)
Definition generator_consistent (m : OccupancyTable) (entries : list DocJson.Entry)
    : Prop :=
  eligible_only m
  /\ NoDup (entry_pairs entries)
  /\ forall s p, isOccupied m s p = true <-> In (s, p) (entry_pairs entries).


(** How many of the requests name slide [s]. *)
Fixpoint count_on (s : Z) (reqs : list (Z * Z)) : Z :=
  match reqs with
  | [] => 0
  | r :: rest => (if decide (snd r = s) then 1 else 0) + count_on s rest
  end.

(** The slots marked on a slide; none when the slide is absent. *)
Definition marked (m : OccupancyTable) (s : Z) : gset Position :=
  default ∅ (m !! s).


(** The request that an entry of the generator asks for. *)
Definition entry_request (e : DocJson.Entry) : Imgins.ImagePlacement :=
  Imgins.mkPlacement (Some (DocJson.entry_image_number e))
    (Imgins.Slide (DocJson.entry_slide_number e))
    (Some (DocJson.entry_position e))
    None None (Some (DocJson.entry_width e)) (Some (DocJson.entry_height e)).

(** The (slide, position) pairs that requests naming both ask for. *)
Definition requested_pairs (placements : list Imgins.ImagePlacement)
    : list (Z * Position) :=
  flat_map
    (fun pl =>
       match Imgins.slide_number pl, Imgins.position pl with
       | Imgins.Slide s, Some p => [(s, p)]
       | _, _ => []
       end)
    placements.

(** A request names a slide of the deck and a position, and its image
    number is valid. *)
Definition well_addressed (image_files slides : nat) (pl : Imgins.ImagePlacement)
    : Prop :=
  Imgins.invalid_image_number image_files pl = false
  /\ exists s p,
       Imgins.slide_number pl = Imgins.Slide s
       /\ Imgins.position pl = Some p
       /\ 1 <= s <= Z.of_nat slides.


(** *** Words of a line *)

(** A word: not empty, no blank and no colon in it. *)
Fixpoint no_blank (t : string) : bool :=
  match t with
  | EmptyString => true
  | String c t' => negb (Py.isspace c) && no_blank t'
  end.

Definition word (t : string) : Prop :=
  t <> EmptyString /\ no_blank t = true /\ Py.contains ":" t = false.

(** [sep.join(words)]. *)
Fixpoint join (sep : string) (words : list string) : string :=
  match words with
  | [] => EmptyString
  | [w] => w
  | w :: rest => (w ++ sep ++ join sep rest)%string
  end.


(** No comma and no blank in the text. *)
Fixpoint no_separator (t : string) : bool :=
  match t with
  | EmptyString => true
  | String c t' => negb (DocJson.is_separator c) && no_separator t'
  end.


(** *** Lines of the text that [doc_json2.py] reads *)

(** The line as the loop of [_parse_slide_mappings] looks at it. *)
Definition normalised (line : string) : string := Py.lower (Py.strip line).

(** The line is a heading for slide [s]. *)
Definition heading_line (find_slide : string -> option Z) (line : string)
    (s : Z) : Prop :=
  normalised line <> EmptyString
  /\ find_slide (normalised line) = Some s /\ s <> 0.

(** No slide number is found in the line, or the number 0. *)
Definition names_no_slide (find_slide : string -> option Z) (line : string)
    : Prop :=
  find_slide (normalised line) = None \/ find_slide (normalised line) = Some 0.

(** The line is no heading and lists the images [imgs], at least one. *)
Definition image_line (find_slide : string -> option Z)
    (image_match : string -> option string) (line : string) (imgs : list Z)
    : Prop :=
  normalised line <> EmptyString
  /\ names_no_slide find_slide line
  /\ DocJson._find_image_numbers image_match (normalised line) = imgs
  /\ imgs <> [].

(** The line is blank, or is no heading and lists no image. *)
Definition inert_line (find_slide : string -> option Z)
    (image_match : string -> option string) (line : string) : Prop :=
  normalised line = EmptyString
  \/ (names_no_slide find_slide line
      /\ DocJson._find_image_numbers image_match (normalised line) = []).

(** *** Images of a Word document *)

(** The text of a paragraph or of a cell is a heading. *)
Definition names_slide (find_slide : string -> option Z) (text : string)
    : bool :=
  Py.truthy (Py.strip text)
  && Py.truthy_int (find_slide (Py.lower (Py.strip text))).

(** The items of a list from the first one that satisfies [P] on. *)
Fixpoint from_first {A : Type} (P : A -> bool) (l : list A) : list A :=
  match l with
  | [] => []
  | x :: l' => if P x then l else from_first P l'
  end.

(** The images embedded in a list of paragraphs. *)
Definition images_of (paras : list DocJson.Paragraph) : nat :=
  sum_list (map DocJson.para_images paras).

(** The images of the body from the first heading on. *)
Definition images_under_headings (find_slide : string -> option Z)
    (paras : list DocJson.Paragraph) : nat :=
  images_of
    (from_first (fun p => names_slide find_slide (DocJson.para_text p)) paras).

(** The images of a table row from its first heading cell on. *)
Definition images_of_row (find_slide : string -> option Z)
    (row : list DocJson.Cell) : nat :=
  images_of
    (flat_map DocJson.cell_paragraphs
       (from_first (fun c => names_slide find_slide (DocJson.cell_text c)) row)).

(** The images of the document that stand under a heading. *)
Definition images_to_place (find_slide : string -> option Z)
    (doc : DocJson.Document) : nat :=
  (images_under_headings find_slide (DocJson.paragraphs doc)
   + sum_list (map (images_of_row find_slide) (concat (DocJson.tables doc))))%nat.

(** A mapping names a slide other than 0, at least one image and no
    position. *)
Definition proper_mapping (mapping : DocJson.SlideMapping) : Prop :=
  DocJson.slide_number mapping <> 0
  /\ DocJson.image_numbers mapping <> []
  /\ DocJson.positions mapping = [].


(** A slide number that is set is not 0. *)
Definition set_slide (current_slide : option Z) : Prop :=
  forall s, current_slide = Some s -> s <> 0.

(** * Decks and requests of the scenarios *)
Module Scenario.

(** A collaborator that always succeeds. *)
Definition insert_ok (_ _ : Z) (_ : Position) (_ _ _ _ : option Q) : bool := true.

(** A new presentation: one blank slide, nothing marked. *)
Definition one_empty_slide : Imgins.Inserter := Imgins.mkInserter ∅ 1.

Definition auto_auto (i : Z) : Imgins.ImagePlacement :=
  Imgins.mkPlacement (Some i) Imgins.Auto None None None None None.

(** A loaded deck of one slide with a picture at (0.5 in, 5 in). *)
Definition deck_bottom_left : list (list Imgins.Shape) :=
  [[Imgins.mkShape Imgins.PICTURE 457200 4572000]].

Definition bottom_left_taken : Imgins.Inserter :=
  Imgins.initial_inserter (Some deck_bottom_left).

Definition request (i s : Z) (p : Position) : Imgins.ImagePlacement :=
  Imgins.mkPlacement (Some i) (Imgins.Slide s) (Some p) None None None None.

(** A request naming the slide and leaving the slot to the resolver. *)
Definition slot_auto (i s : Z) : Imgins.ImagePlacement :=
  Imgins.mkPlacement (Some i) (Imgins.Slide s) None None None None None.

Definition request_auto_slide (i : Z) (p : Position) : Imgins.ImagePlacement :=
  Imgins.mkPlacement (Some i) Imgins.Auto (Some p) None None None None.

(** The table of a generator that has filled slide 2 and nothing else. *)
Definition second_slide_full : OccupancyTable :=
  {[ 2 := {[BOTTOM_LEFT; BOTTOM_RIGHT; TOP_RIGHT]} ]}.

(** A loaded deck of one slide with a picture in its top-left corner. *)
Definition deck_top_left : list (list Imgins.Shape) :=
  [[Imgins.mkShape Imgins.PICTURE 0 0]].

(** A stand-in for [float] that reads integer literals, on which it
    agrees with Python; the examples use no other number. *)
Definition float_of_integer_literal (s : string) : option Q :=
  inject_Z <$> Py.int s.

(** A mapping file in the line-oriented form with one malformed
    record. *)
Definition lines_before : list string :=
  ["# image:slide:position"; ""; "1:auto:auto"].
Definition malformed_line : string := "abc:1:bottom-left".
Definition lines_after : list string := ["2:1:top-right"; "3 2 bottom-right"].

(** A record with nothing before the first colon. *)
Definition line_without_image_number : string := ":1:bottom-left".

(** Five records in the manner of the sample mapping files, the fourth
    with its slide left out. *)
Definition sample_records : list RecordText :=
  [mkRecordText "1" "auto" "auto" "" "" "3" "2";
   mkRecordText "2" "auto" "auto" "" "" "3" "2";
   mkRecordText "3" "1" "bottom-left" "" "" "3" "2";
   mkRecordText "4" "" "auto" "" "" "3" "2";
   mkRecordText "5" "auto" "top-right" "" "" "3" "2"].

(** One record, slide 1 and no slot, in each of the three forms. *)
Definition txt_no_slot : list string := ["1:1:"].
Definition json_no_slot : list (gmap string Imgins.JValue) :=
  [ {[ "image_number" := Imgins.JInt 1; "slide_number" := Imgins.JInt 1 ]} ].
Definition csv_no_slot : list (gmap string (option string)) :=
  [ {[ "image_number" := Some "1"; "slide_number" := Some "1";
       "position" := Some "" ]} ].
Definition placement_no_slot : Imgins.ImagePlacement :=
  Imgins.mkPlacement (Some 1) (Imgins.Slide 1) None None None None None.

(** Two slides, the first of them full. *)
Definition first_slide_full : Imgins.Inserter :=
  Imgins.mkInserter {[ 1 := {[BOTTOM_LEFT; BOTTOM_RIGHT; TOP_RIGHT]} ]} 2.


(** A one-slide deck whose slide is full. *)
Definition only_slide_full : Imgins.Inserter :=
  Imgins.mkInserter {[ 1 := {[BOTTOM_LEFT; BOTTOM_RIGHT; TOP_RIGHT]} ]} 1.

(** Mappings that ask for no more than three images on any slide. *)
Definition mappings_within_capacity : list DocJson.SlideMapping :=
  [DocJson.mkSlideMapping 1 [1; 2] [];
   DocJson.mkSlideMapping 2 [3] [];
   DocJson.mkSlideMapping 1 [4] []].


(** Five images for slide 1 and one for slide 2. *)
Definition mappings_overflowing : list DocJson.SlideMapping :=
  [DocJson.mkSlideMapping 1 [1; 2; 3; 4; 5] [];
   DocJson.mkSlideMapping 2 [6] []].


(** The fields of a record as words. *)
Definition three_words : list string := ["3"; "2"; "bottom-right"].

End Scenario.

(** * Properties *)

(** ** The occupancy tracker of [imgins.py] *)

Lemma occupy_position_insert (tr : OccupancyTable) s p :
  Imgins.occupy_position tr s p
  = <[s := Imgins.get_occupied_positions tr s ∪ {[p]}]> tr.
Proof.
  unfold Imgins.occupy_position, Imgins.get_occupied_positions.
  destruct (tr !! s) as [occ|] eqn:E; cbn.
  - by rewrite E.
  - rewrite lookup_insert_eq, insert_insert_eq. cbn. done.
Qed.

Lemma is_position_occupied_occupy (tr : OccupancyTable) s p s' p' :
  Imgins.is_position_occupied (Imgins.occupy_position tr s p) s' p'
  = bool_decide (s = s' /\ p = p') || Imgins.is_position_occupied tr s' p'.
Proof.
  rewrite occupy_position_insert.
  unfold Imgins.is_position_occupied, Imgins.get_occupied_positions.
  destruct (decide (s = s')) as [->|Hne].
  - rewrite lookup_insert_eq.
    destruct (decide (p = p')) as [->|Hp].
    + rewrite (bool_decide_eq_true_2 (s' = s' /\ p' = p')) by done.
      apply bool_decide_eq_true_2, elem_of_union_r, elem_of_singleton_2; done.
    + rewrite (bool_decide_eq_false_2 (s' = s' /\ p = p')) by (intros [_ ?]; done).
      cbn. destruct (tr !! s') as [occ|]; cbn.
      * apply bool_decide_ext. rewrite elem_of_union, elem_of_singleton.
        split; [intros [?|?]; [done|congruence] | auto].
      * apply bool_decide_eq_false_2.
        rewrite elem_of_union, elem_of_singleton, elem_of_empty.
        intros [[]|?]; congruence.
  - rewrite lookup_insert_ne by done.
    rewrite bool_decide_eq_false_2 by (intros [? _]; done). done.
Qed.

(** [find] returns the first free slot of the preference order. *)
Lemma find_first_free (occupied : Position -> bool) :
  first_free occupied (List.find (fun p => negb (occupied p)) available_positions).
Proof.
  unfold available_positions; cbn.
  destruct (occupied BOTTOM_LEFT) eqn:E1; cbn.
  2: { exists [], [BOTTOM_RIGHT; TOP_RIGHT]. repeat split; [done|]. intros q []. }
  destruct (occupied BOTTOM_RIGHT) eqn:E2; cbn.
  2: { exists [BOTTOM_LEFT], [TOP_RIGHT]. repeat split; [done|].
       intros q [<-|[]]; done. }
  destruct (occupied TOP_RIGHT) eqn:E3; cbn.
  2: { exists [BOTTOM_LEFT; BOTTOM_RIGHT], []. repeat split; [done|].
       intros q [<-|[<-|[]]]; done. }
  intros q [<-|[<-|[<-|[]]]]; done.
Qed.

(** [first_free] determines its result. *)
Lemma first_free_unique (occupied : Position -> bool) r1 r2 :
  first_free occupied r1 -> first_free occupied r2 -> r1 = r2.
Proof.
  intros H1 H2.
  assert (Hfind := find_first_free occupied).
  assert (forall r, first_free occupied r ->
            r = List.find (fun p => negb (occupied p)) available_positions) as Huniq.
  { clear. intros r Hr. unfold available_positions in *; cbn.
    destruct r as [p|]; cbn in Hr.
    - destruct Hr as (before & after & Hsplit & Hfree & Hbefore).
      unfold available_positions in Hsplit.
      destruct before as [|b1 [|b2 [|b3 [|b4 before]]]]; simplify_eq/=.
      + by rewrite Hfree.
      + by rewrite (Hbefore BOTTOM_LEFT), Hfree by auto.
      + by rewrite (Hbefore BOTTOM_LEFT), (Hbefore BOTTOM_RIGHT), Hfree by auto.
    - unfold available_positions in Hr.
      by rewrite !Hr by (cbn; auto). }
  rewrite (Huniq r1 H1), (Huniq r2 H2). done.
Qed.

Lemma imgins_next_available_first_free (tr : OccupancyTable) s :
  first_free (Imgins.is_position_occupied tr s)
             (Imgins.get_next_available_position tr s).
Proof. apply find_first_free. Qed.

Lemma imgins_is_position_occupied_spec (tr : OccupancyTable) s p :
  Imgins.is_position_occupied tr s p = isOccupied tr s p.
Proof.
  unfold Imgins.is_position_occupied, isOccupied.
  destruct (tr !! s); cbn; [done|].
  symmetry. apply bool_decide_eq_false_2, not_elem_of_empty.
Qed.

(** ** The position manager of [doc_json.py] *)

(** The table after a query: the queried slide is a key. *)
Lemma docjson_next_available_table (m : OccupancyTable) s :
  fst (DocJson.get_next_available_position m s)
  = match m !! s with Some _ => m | None => <[s := ∅]> m end.
Proof. done. Qed.

Lemma docjson_touch_occupancy (m : OccupancyTable) s s' p :
  isOccupied (match m !! s with Some _ => m | None => <[s := ∅]> m end) s' p
  = isOccupied m s' p.
Proof.
  unfold isOccupied. destruct (m !! s) eqn:E; [done|].
  destruct (decide (s = s')) as [<-|Hne].
  - by rewrite lookup_insert_eq, E.
  - by rewrite lookup_insert_ne.
Qed.

Lemma docjson_next_available_result (m : OccupancyTable) s :
  snd (DocJson.get_next_available_position m s)
  = List.find (fun p => negb (isOccupied m s p)) available_positions.
Proof.
  unfold DocJson.get_next_available_position; cbn -[available_positions].
  set (m1 := match m !! s with Some _ => m | None => <[s := ∅]> m end).
  assert (forall p, bool_decide (p ∈ default ∅ (m1 !! s)) = isOccupied m s p) as Hocc.
  { intros p. subst m1. apply (docjson_touch_occupancy m s s p). }
  unfold available_positions; cbn. by rewrite !Hocc.
Qed.

Lemma docjson_next_available_again (m : OccupancyTable) s :
  DocJson.get_next_available_position
    (fst (DocJson.get_next_available_position m s)) s
  = DocJson.get_next_available_position m s.
Proof.
  rewrite (surjective_pairing (DocJson.get_next_available_position _ s)).
  rewrite (surjective_pairing (DocJson.get_next_available_position m s)).
  rewrite !docjson_next_available_result, !docjson_next_available_table.
  f_equal.
  - destruct (m !! s) eqn:E; cbn; [by rewrite E|]. by rewrite lookup_insert_eq.
  - unfold available_positions; cbn. by rewrite !docjson_touch_occupancy.
Qed.

(** C5 (as amended).  In both scripts the query returns the first slot
    of the preference order [bottom-left, bottom-right, top-right] that
    is not marked on the slide, and none when all three are marked.  The
    tracker of [imgins.py] is a function of the table alone.  The manager
    of [doc_json.py] returns the table with the queried slide added as a
    key holding the empty set when it was absent; no occupancy changes,
    and a second query returns the same slot and the same table. *)
Theorem C5_next_available_first_free :
  (forall (tr : OccupancyTable) s,
      first_free (Imgins.is_position_occupied tr s)
                 (Imgins.get_next_available_position tr s))
  /\ (forall (m : OccupancyTable) s,
        let m1 := fst (DocJson.get_next_available_position m s) in
        let r := snd (DocJson.get_next_available_position m s) in
        first_free (isOccupied m s) r
        /\ m1 = match m !! s with Some _ => m | None => <[s := ∅]> m end
        /\ (forall s' p, isOccupied m1 s' p = isOccupied m s' p)
        /\ DocJson.get_next_available_position m1 s = (m1, r)).
Proof.
  split; [apply imgins_next_available_first_free|].
  intros m s m1 r. subst m1 r. repeat split.
  - rewrite docjson_next_available_result. apply find_first_free.
  - intros s' p. rewrite docjson_next_available_table.
    apply docjson_touch_occupancy.
  - rewrite docjson_next_available_again. by destruct DocJson.get_next_available_position.
Qed.

(** C5, the claim as stated fails on [doc_json.py]: on the empty table a
    query for slide 1 leaves a table that is not the one it was given. *)
Lemma C5_query_writes_to_table :
  DocJson.get_next_available_position ∅ 1
  = ({[ 1 := ∅ ]}, Some BOTTOM_LEFT)
  /\ fst (DocJson.get_next_available_position ∅ 1) <> ∅.
Proof.
  split; [done|].
  intros H. apply (f_equal (fun m : OccupancyTable => m !! 1)) in H.
  vm_compute in H. discriminate H.
Qed.

(** ** The existing-content scanner *)

(** What the code compares against: 3 inches and 2.5 inches, in EMU. *)
Lemma determine_position_thresholds (left top : Z) (w h : Q) :
  Imgins._determine_position_from_coordinates left top w h
  = if bool_decide (left < 2743200)
    then (if bool_decide (top < 2286000) then TOP_LEFT else BOTTOM_LEFT)
    else (if bool_decide (top < 2286000) then TOP_RIGHT else BOTTOM_RIGHT).
Proof.
  unfold Imgins._determine_position_from_coordinates, Imgins.Qltb, Imgins.Qgeb,
    Imgins.inches, Qle_bool; cbn.
  repeat case_bool_decide;
    repeat match goal with
           | |- context [Z.leb ?a ?b] => destruct (Z.leb_spec a b)
           end; cbn; try done; lia.
Qed.

(** C6.  An image whose corner is 4 inches from the left and 3 inches
    from the top lies left of and above the midpoints (5, 3.75) of the
    canvas, so the rule of the specification puts it top-left; the code,
    whose thresholds are 3.0 and 2.5, puts it bottom-right. *)
Theorem C6_thresholds_are_not_midpoints :
  Imgins._determine_position_from_coordinates 3657600 2743200 (10 # 1) (15 # 2)
  = BOTTOM_RIGHT
  /\ classify_by_midpoints 3657600 2743200 = TOP_LEFT.
Proof. split; reflexivity. Qed.

(** ** The allocation resolver *)

Lemma in_range1 (n : nat) (j : Z) :
  In j (Imgins.range1 n) <-> 1 <= j <= Z.of_nat n.
Proof.
  unfold Imgins.range1. rewrite in_map_iff. split.
  - intros (i & <- & Hi). apply in_seq in Hi. lia.
  - intros Hj. exists (Z.to_nat j). split; [lia|]. apply in_seq. lia.
Qed.

(** The scan over [a, a+1, ..., a+len-1] stops at the first slide that
    is not full. *)
Lemma scan_slides_seq (tr : OccupancyTable) (len a : nat) :
  match Imgins.scan_slides tr (map Z.of_nat (seq a len)) with
  | Some (k, q) =>
      Z.of_nat a <= k < Z.of_nat (a + len)
      /\ Imgins.get_next_available_position tr k = Some q
      /\ forall j, Z.of_nat a <= j < k ->
                   Imgins.get_next_available_position tr j = None
  | None =>
      forall j, Z.of_nat a <= j < Z.of_nat (a + len) ->
                Imgins.get_next_available_position tr j = None
  end.
Proof.
  revert a. induction len as [|len IH]; intros a;
    cbn [seq map Imgins.scan_slides].
  - intros j Hj. lia.
  - destruct (Imgins.get_next_available_position tr (Z.of_nat a)) as [q|] eqn:E.
    + split_and!; [lia | lia | done | intros j Hj; lia].
    + specialize (IH (S a)).
      destruct (Imgins.scan_slides tr (map Z.of_nat (seq (S a) len)))
        as [[k q]|].
      * destruct IH as (Hk & Hq & Hfull). split_and!; [lia | lia | done |].
        intros j Hj. destruct (decide (j = Z.of_nat a)) as [->|Hne]; [done|].
        apply Hfull. lia.
      * intros j Hj. destruct (decide (j = Z.of_nat a)) as [->|Hne]; [done|].
        apply IH. lia.
Qed.

(** Whatever the request, once the named-slide shortcut does not apply
    [auto_assign_position] follows rule (1). *)
Lemma scan_or_create_spec (st : Imgins.Inserter) :
  search_then_create st
    match Imgins.scan_slides (Imgins.position_tracker st)
            (Imgins.range1 (Imgins.slides st)) with
    | Some r => (st, r)
    | None =>
        (Imgins.add_slide st,
         (Z.of_nat (Imgins.slides (Imgins.add_slide st)),
          hd BOTTOM_LEFT available_positions))
    end.
Proof.
  unfold Imgins.range1.
  assert (H := scan_slides_seq (Imgins.position_tracker st) (Imgins.slides st) 1).
  destruct (Imgins.scan_slides _ _) as [[k q]|]; unfold search_then_create.
  - left. destruct H as (Hk & Hq & Hfull). split_and!; [done | lia | lia | done |].
    intros j Hj. apply Hfull. lia.
  - right. split_and!; [done | cbn; lia | done |]. intros j Hj. apply H. lia.
Qed.

Lemma auto_assign_unnamed (st : Imgins.Inserter) (pl : Imgins.ImagePlacement) :
  Imgins.slide_number pl = Imgins.Auto \/ Imgins.position pl <> None ->
  Imgins.auto_assign_position st pl
  = match Imgins.scan_slides (Imgins.position_tracker st)
            (Imgins.range1 (Imgins.slides st)) with
    | Some r => (st, r)
    | None =>
        (Imgins.add_slide st,
         (Z.of_nat (Imgins.slides (Imgins.add_slide st)),
          hd BOTTOM_LEFT available_positions))
    end.
Proof.
  intros H. unfold Imgins.auto_assign_position.
  destruct (Imgins.slide_number pl) as [|s], (Imgins.position pl) as [p|];
    try done.
  destruct H as [H|H]; congruence.
Qed.

(** A request with [slide = auto] is resolved without looking at its
    position: the named-slide shortcut needs a slide number and the
    collision branch needs one too. *)
Lemma resolve_auto_slide (st : Imgins.Inserter) i p l t w h :
  Imgins.resolve st (Imgins.mkPlacement i Imgins.Auto p l t w h)
  = Imgins.resolve st (Imgins.mkPlacement i Imgins.Auto None l t w h).
Proof.
  unfold Imgins.resolve; cbn [Imgins.slide_number Imgins.position].
  rewrite !auto_assign_unnamed by (left; done). done.
Qed.

Lemma resolve_auto_slide_search (st : Imgins.Inserter) i p l t w h :
  search_then_create st
    (Imgins.resolve st (Imgins.mkPlacement i Imgins.Auto p l t w h)).
Proof.
  unfold Imgins.resolve; cbn [Imgins.slide_number Imgins.position].
  rewrite auto_assign_unnamed by (left; done). apply scan_or_create_spec.
Qed.

(** The collision branch for a request naming both slide and position. *)
Lemma resolve_concrete (st : Imgins.Inserter) i s p l t w h :
  Imgins.resolve st (Imgins.mkPlacement i (Imgins.Slide s) (Some p) l t w h)
  = if Imgins.is_position_occupied (Imgins.position_tracker st) s p
    then match Imgins.get_next_available_position (Imgins.position_tracker st) s with
         | Some q => (st, (s, q))
         | None =>
             Imgins.auto_assign_position st
               (Imgins.mkPlacement i Imgins.Auto None l t w h)
         end
    else (st, (s, p)).
Proof.
  unfold Imgins.resolve; cbn [Imgins.slide_number Imgins.position].
  destruct (Imgins.is_position_occupied _ s p); [|done].
  destruct (Imgins.get_next_available_position _ s); [done|].
  rewrite !auto_assign_unnamed by (cbn; auto). done.
Qed.

Lemma process_placement_auto_slide image_files insert
    (st : Imgins.Inserter) i p l t w h :
  Imgins.process_placement image_files insert st
    (Imgins.mkPlacement i Imgins.Auto p l t w h)
  = Imgins.process_placement image_files insert st
      (Imgins.mkPlacement i Imgins.Auto None l t w h).
Proof.
  unfold Imgins.process_placement, Imgins.invalid_image_number.
  rewrite (resolve_auto_slide st i p). done.
Qed.

(** One iteration of the loop that passes every check. *)
Lemma process_placement_inserted image_files insert
    (st st1 : Imgins.Inserter) (pl : Imgins.ImagePlacement) s p :
  Imgins.invalid_image_number image_files pl = false ->
  Imgins.resolve st pl = (st1, (s, p)) ->
  1 - Z.of_nat (Imgins.slides st1) <= s <= Z.of_nat (Imgins.slides st1) ->
  insert s (default 0 (Imgins.image_number pl)) p
         (Imgins.left pl) (Imgins.top pl) (Imgins.width pl) (Imgins.height pl)
  = true ->
  Imgins.process_placement image_files insert st pl
  = (Imgins.mkInserter
       (Imgins.occupy_position (Imgins.position_tracker st1) s p)
       (Imgins.slides st1),
     Imgins.Inserted s p).
Proof.
  intros Himg Hres Hs Hins. unfold Imgins.process_placement.
  rewrite Himg, Hres.
  rewrite bool_decide_eq_false_2 by lia.
  rewrite bool_decide_eq_false_2 by lia.
  by rewrite Hins.
Qed.

(** What rule (1) assigns is a slide of the deck it returns. *)
Lemma search_then_create_in_deck (st st1 : Imgins.Inserter) k q :
  search_then_create st (st1, (k, q)) ->
  1 <= k <= Z.of_nat (Imgins.slides st1).
Proof.
  intros [(-> & Hk & _) | (-> & -> & _)]; [done|].
  unfold Imgins.add_slide; cbn [Imgins.slides]. lia.
Qed.

(** C4.  A request naming a slide and an eligible slot gets that pair
    when it is free; when it is taken it gets the next available slot of
    the same slide; and only when that slide is full is it resolved by
    rule (1), search then create, exactly as a request with neither
    slide nor slot would be.  When the named slide exists, the image
    number is valid and the collaborator succeeds, the placement loop
    inserts the image at the pair so resolved and marks it. *)
Theorem C4_concrete_slide_and_slot image_files insert
    (st : Imgins.Inserter) i s p l t w h :
  In p available_positions ->
  let pl := Imgins.mkPlacement i (Imgins.Slide s) (Some p) l t w h in
  let tr := Imgins.position_tracker st in
  (Imgins.is_position_occupied tr s p = false ->
   Imgins.resolve st pl = (st, (s, p)))
  /\ (Imgins.is_position_occupied tr s p = true ->
      forall q, Imgins.get_next_available_position tr s = Some q ->
                Imgins.resolve st pl = (st, (s, q)))
  /\ (Imgins.is_position_occupied tr s p = true ->
      Imgins.get_next_available_position tr s = None ->
      search_then_create st (Imgins.resolve st pl)
      /\ Imgins.resolve st pl
         = Imgins.resolve st (Imgins.mkPlacement i Imgins.Auto None l t w h))
  /\ (Imgins.invalid_image_number image_files pl = false ->
      1 <= s <= Z.of_nat (Imgins.slides st) ->
      (forall k j q a b c d, insert k j q a b c d = true) ->
      forall st1 k q,
        Imgins.resolve st pl = (st1, (k, q)) ->
        Imgins.process_placement image_files insert st pl
        = (Imgins.mkInserter
             (Imgins.occupy_position (Imgins.position_tracker st1) k q)
             (Imgins.slides st1),
           Imgins.Inserted k q)).
Proof.
  intros _ pl tr. subst pl tr. rewrite resolve_concrete. split_and!.
  - by intros ->.
  - by intros -> q ->.
  - intros -> ->.
    change (Imgins.auto_assign_position st
              (Imgins.mkPlacement i Imgins.Auto None l t w h))
      with (Imgins.resolve st (Imgins.mkPlacement i Imgins.Auto None l t w h)).
    split; [apply resolve_auto_slide_search | done].
  - intros Himg Hs Hins st1 k q Hres.
    apply process_placement_inserted; [done | by rewrite resolve_concrete | | apply Hins].
    destruct (Imgins.is_position_occupied _ s p).
    + destruct (Imgins.get_next_available_position _ s).
      * injection Hres as <- <- <-. lia.
      * assert (H := resolve_auto_slide_search st i None l t w h).
        change (Imgins.resolve st (Imgins.mkPlacement i Imgins.Auto None l t w h))
          with (Imgins.auto_assign_position st
                  (Imgins.mkPlacement i Imgins.Auto None l t w h)) in H.
        rewrite Hres in H. apply search_then_create_in_deck in H. lia.
    + injection Hres as <- <- <-. lia.
Qed.

(** Scenario B: bottom-left of slide 1 is taken by a scanned picture;
    the request for (slide 1, bottom-left) lands on (1, bottom-right). *)
Lemma C4_scenario_B :
  In BOTTOM_LEFT available_positions
  /\ Imgins.is_position_occupied
       (Imgins.position_tracker Scenario.bottom_left_taken) 1 BOTTOM_LEFT = true
  /\ Imgins.resolve Scenario.bottom_left_taken (Scenario.request 5 1 BOTTOM_LEFT)
     = (Scenario.bottom_left_taken, (1, BOTTOM_RIGHT))
  /\ snd (Imgins.process_placement 5 Scenario.insert_ok
            Scenario.bottom_left_taken (Scenario.request 5 1 BOTTOM_LEFT))
     = Imgins.Inserted 1 BOTTOM_RIGHT.
Proof.
  assert (In BOTTOM_LEFT available_positions) as Hin by (left; reflexivity).
  destruct (C4_concrete_slide_and_slot 5 Scenario.insert_ok
              Scenario.bottom_left_taken (Some 5) 1 BOTTOM_LEFT
              None None None None Hin) as (_ & Htaken & _ & Hloop).
  assert (Imgins.resolve Scenario.bottom_left_taken
            (Scenario.request 5 1 BOTTOM_LEFT)
          = (Scenario.bottom_left_taken, (1, BOTTOM_RIGHT))) as Hres.
  { apply Htaken; vm_compute; reflexivity. }
  split; [exact Hin|]. split; [vm_compute; reflexivity|]. split; [exact Hres|].
  unfold Scenario.request.
  rewrite (Hloop ltac:(vm_compute; reflexivity) ltac:(vm_compute; split; discriminate)
                 ltac:(reflexivity) _ _ _ Hres).
  reflexivity.
Defined.

(** C9.  A request with [slide = auto] and an eligible slot is processed
    exactly as the request with neither: rule (1) picks the slide, and the
    slot assigned is the next available one of that slide. *)
Theorem C9_auto_slide_ignores_slot image_files insert
    (st : Imgins.Inserter) i p l t w h :
  In p available_positions ->
  within_deck st ->
  let requested := Imgins.mkPlacement i Imgins.Auto (Some p) l t w h in
  let unspecified := Imgins.mkPlacement i Imgins.Auto None l t w h in
  Imgins.process_placement image_files insert st requested
  = Imgins.process_placement image_files insert st unspecified
  /\ Imgins.resolve st requested = Imgins.resolve st unspecified
  /\ search_then_create st (Imgins.resolve st requested)
  /\ Imgins.get_next_available_position (Imgins.position_tracker st)
       (fst (snd (Imgins.resolve st requested)))
     = Some (snd (snd (Imgins.resolve st requested))).
Proof.
  intros _ Hdeck requested unspecified. subst requested unspecified.
  split_and!.
  - apply process_placement_auto_slide.
  - apply resolve_auto_slide.
  - apply resolve_auto_slide_search.
  - assert (H := resolve_auto_slide_search st i (Some p) l t w h).
    destruct (Imgins.resolve st _) as [st' [k q]]; cbn [fst snd].
    destruct H as [(_ & _ & Hq & _) | (_ & -> & -> & _)]; [done|].
    unfold Imgins.get_next_available_position, Imgins.is_position_occupied.
    destruct (Imgins.position_tracker st !! (Z.of_nat (Imgins.slides st) + 1))
      eqn:E; [|done].
    specialize (Hdeck _ (mk_is_Some _ _ E)). lia.
Qed.

(** On a new one-slide deck a request for (auto, top-right) is given
    (1, bottom-left), although top-right of slide 1 is free. *)
Lemma C9_requested_slot_free_but_ignored :
  Imgins.is_position_occupied
    (Imgins.position_tracker Scenario.one_empty_slide) 1 TOP_RIGHT = false
  /\ Imgins.resolve Scenario.one_empty_slide
       (Scenario.request_auto_slide 1 TOP_RIGHT)
     = (Scenario.one_empty_slide, (1, BOTTOM_LEFT))
  /\ Imgins.resolve Scenario.one_empty_slide
       (Scenario.request_auto_slide 1 TOP_RIGHT)
     = Imgins.resolve Scenario.one_empty_slide (Scenario.auto_auto 1).
Proof.
  split; [vm_compute; reflexivity|]. split; [vm_compute; reflexivity|].
  apply (C9_auto_slide_ignores_slot 1 Scenario.insert_ok Scenario.one_empty_slide
           (Some 1) TOP_RIGHT None None None None).
  - right; right; left; reflexivity.
  - intros s [occ Hs]. vm_compute in Hs. discriminate Hs.
Defined.

(** C2 (as amended).  The resolver has no separate path for [center]
    and [custom].  With a named slide the pair (slide, mode) is checked
    against the table like any other position: free, it is assigned as
    requested and, once the insertion succeeds, marked in the table;
    taken, the collision fallback of C4 applies.  With [slide = auto] the
    mode is ignored and the request is processed as an auto/auto request,
    by rule (1). *)
Theorem C2_center_custom_are_tracked image_files insert
    (st : Imgins.Inserter) i s p l t w h :
  p = CENTER \/ p = CUSTOM ->
  let tr := Imgins.position_tracker st in
  let named := Imgins.mkPlacement i (Imgins.Slide s) (Some p) l t w h in
  let unnamed := Imgins.mkPlacement i Imgins.Auto (Some p) l t w h in
  let neither := Imgins.mkPlacement i Imgins.Auto None l t w h in
  Imgins.resolve st named
  = (if Imgins.is_position_occupied tr s p
     then match Imgins.get_next_available_position tr s with
          | Some q => (st, (s, q))
          | None => Imgins.resolve st neither
          end
     else (st, (s, p)))
  /\ (Imgins.invalid_image_number image_files named = false ->
      Imgins.is_position_occupied tr s p = false ->
      1 - Z.of_nat (Imgins.slides st) <= s <= Z.of_nat (Imgins.slides st) ->
      insert s (default 0 i) p l t w h = true ->
      Imgins.process_placement image_files insert st named
      = (Imgins.mkInserter (Imgins.occupy_position tr s p) (Imgins.slides st),
         Imgins.Inserted s p)
      /\ Imgins.is_position_occupied (Imgins.occupy_position tr s p) s p = true)
  /\ Imgins.process_placement image_files insert st unnamed
     = Imgins.process_placement image_files insert st neither
  /\ search_then_create st (Imgins.resolve st unnamed).
Proof.
  intros _ tr named unnamed neither. subst tr named unnamed neither.
  split_and!.
  - apply resolve_concrete.
  - intros Himg Hfree Hs Hins. split.
    + apply process_placement_inserted; try done.
      by rewrite resolve_concrete, Hfree.
    + rewrite is_position_occupied_occupy.
      by rewrite bool_decide_eq_true_2.
  - apply process_placement_auto_slide.
  - apply resolve_auto_slide_search.
Qed.

(** On a new one-slide deck, a [center] request for slide 1 is inserted
    and slide 1 then holds [center]. *)
Lemma C2_center_on_empty_slide :
  Imgins.process_placement 1 Scenario.insert_ok Scenario.one_empty_slide
    (Scenario.request 1 1 CENTER)
  = (Imgins.mkInserter
       (Imgins.occupy_position ∅ 1 CENTER) 1, Imgins.Inserted 1 CENTER)
  /\ Imgins.is_position_occupied (Imgins.occupy_position ∅ 1 CENTER) 1 CENTER
     = true.
Proof.
  apply (proj1 (proj2 (C2_center_custom_are_tracked 1 Scenario.insert_ok
                         Scenario.one_empty_slide (Some 1) 1 CENTER
                         None None None None (or_introl eq_refl)))).
  - vm_compute; reflexivity.
  - vm_compute; reflexivity.
  - vm_compute. split; discriminate.
  - reflexivity.
Defined.

(** C2, the claim as stated fails.  Two [center] requests for slide 1 of
    a new deck: the first marks [center] in the table, the second collides
    with it and is moved to bottom-left.  And a [center] request with
    [slide = auto], on a two-slide deck whose first slide is full, goes to
    slide 2, bottom-left: neither slide 1 nor [center]. *)
Lemma C2_center_is_checked_and_marked :
  snd (Imgins.process_placements 1 Scenario.insert_ok Scenario.one_empty_slide
         [Scenario.request 1 1 CENTER; Scenario.request 1 1 CENTER])
  = [Imgins.Inserted 1 CENTER; Imgins.Inserted 1 BOTTOM_LEFT]
  /\ isOccupied
       (Imgins.position_tracker
          (fst (Imgins.process_placements 1 Scenario.insert_ok
                  Scenario.one_empty_slide
                  [Scenario.request 1 1 CENTER; Scenario.request 1 1 CENTER])))
       1 CENTER
     = true
  /\ snd (Imgins.process_placement 1 Scenario.insert_ok
            Scenario.first_slide_full (Scenario.request_auto_slide 1 CENTER))
     = Imgins.Inserted 2 BOTTOM_LEFT.
Proof. split_and!; vm_compute; reflexivity. Qed.

(** ** Filling a slide in preference order *)

Lemma get_next_available_unfold (tr : OccupancyTable) s :
  Imgins.get_next_available_position tr s
  = if negb (Imgins.is_position_occupied tr s BOTTOM_LEFT) then Some BOTTOM_LEFT
    else if negb (Imgins.is_position_occupied tr s BOTTOM_RIGHT) then Some BOTTOM_RIGHT
    else if negb (Imgins.is_position_occupied tr s TOP_RIGHT) then Some TOP_RIGHT
    else None.
Proof. reflexivity. Qed.

Lemma get_next_available_occupy_other (tr : OccupancyTable) s p j :
  j <> s ->
  Imgins.get_next_available_position (Imgins.occupy_position tr s p) j
  = Imgins.get_next_available_position tr j.
Proof.
  intros Hne. rewrite !get_next_available_unfold, !is_position_occupied_occupy.
  rewrite !bool_decide_eq_false_2 by (intros [? _]; congruence). done.
Qed.

(** The three queries met while an empty slide fills up, and the one
    after. *)
Lemma get_next_available_filling (tr : OccupancyTable) s :
  empty_slide tr s ->
  let tr1 := Imgins.occupy_position tr s BOTTOM_LEFT in
  let tr2 := Imgins.occupy_position tr1 s BOTTOM_RIGHT in
  let tr3 := Imgins.occupy_position tr2 s TOP_RIGHT in
  Imgins.get_next_available_position tr s = Some BOTTOM_LEFT
  /\ Imgins.get_next_available_position tr1 s = Some BOTTOM_RIGHT
  /\ Imgins.get_next_available_position tr2 s = Some TOP_RIGHT
  /\ Imgins.get_next_available_position tr3 s = None.
Proof.
  intros Hempty tr1 tr2 tr3. subst tr1 tr2 tr3.
  rewrite !get_next_available_unfold, !is_position_occupied_occupy.
  rewrite (Hempty BOTTOM_LEFT), (Hempty BOTTOM_RIGHT), (Hempty TOP_RIGHT)
    by (cbn; auto).
  rewrite !(bool_decide_eq_true_2 (s = s /\ BOTTOM_LEFT = BOTTOM_LEFT)) by done.
  rewrite !(bool_decide_eq_true_2 (s = s /\ BOTTOM_RIGHT = BOTTOM_RIGHT)) by done.
  rewrite !(bool_decide_eq_true_2 (s = s /\ TOP_RIGHT = TOP_RIGHT)) by done.
  rewrite !bool_decide_eq_false_2 by (intros [_ ?]; discriminate).
  done.
Qed.

Lemma invalid_image_number_false image_files i l s p t w h :
  1 <= i <= Z.of_nat image_files ->
  Imgins.invalid_image_number image_files
    (Imgins.mkPlacement (Some i) s p l t w h) = false.
Proof.
  intros Hi. unfold Imgins.invalid_image_number; cbn.
  rewrite !bool_decide_eq_false_2 by lia. done.
Qed.

(** A slot-auto request for a slide that exists and is not full. *)
Lemma resolve_slot_auto (st : Imgins.Inserter) i s q :
  s <= Z.of_nat (Imgins.slides st) ->
  Imgins.get_next_available_position (Imgins.position_tracker st) s = Some q ->
  Imgins.resolve st (Scenario.slot_auto i s) = (st, (s, q)).
Proof.
  intros Hs Hq.
  unfold Imgins.resolve, Imgins.auto_assign_position, Scenario.slot_auto.
  cbn [Imgins.slide_number Imgins.position].
  rewrite bool_decide_eq_true_2 by done.
  by rewrite Hq.
Qed.

Lemma scan_slides_first (tr : OccupancyTable) (n : nat) s q :
  1 <= s <= Z.of_nat n ->
  (forall j, 1 <= j < s -> Imgins.get_next_available_position tr j = None) ->
  Imgins.get_next_available_position tr s = Some q ->
  Imgins.scan_slides tr (Imgins.range1 n) = Some (s, q).
Proof.
  intros Hs Hfull Hq. unfold Imgins.range1.
  assert (H := scan_slides_seq tr n 1).
  destruct (Imgins.scan_slides _ _) as [[k q']|].
  - destruct H as (Hk & Hq' & Hbefore).
    destruct (Z.lt_trichotomy k s) as [Hlt|[->|Hgt]].
    + rewrite Hfull in Hq' by lia. discriminate.
    + congruence.
    + rewrite Hbefore in Hq by lia. discriminate.
  - rewrite H in Hq by lia. discriminate.
Qed.

Lemma scan_slides_all_full (tr : OccupancyTable) (n : nat) :
  (forall j, 1 <= j <= Z.of_nat n ->
             Imgins.get_next_available_position tr j = None) ->
  Imgins.scan_slides tr (Imgins.range1 n) = None.
Proof.
  intros Hfull. unfold Imgins.range1.
  assert (H := scan_slides_seq tr n 1).
  destruct (Imgins.scan_slides _ _) as [[k q']|]; [|done].
  destruct H as (Hk & Hq' & _). rewrite Hfull in Hq' by lia. discriminate.
Qed.

Lemma resolve_auto_auto_first (st : Imgins.Inserter) i s q :
  1 <= s <= Z.of_nat (Imgins.slides st) ->
  (forall j, 1 <= j < s ->
     Imgins.get_next_available_position (Imgins.position_tracker st) j = None) ->
  Imgins.get_next_available_position (Imgins.position_tracker st) s = Some q ->
  Imgins.resolve st (Scenario.auto_auto i) = (st, (s, q)).
Proof.
  intros Hs Hfull Hq. unfold Imgins.resolve, Scenario.auto_auto.
  cbn [Imgins.slide_number Imgins.position].
  rewrite auto_assign_unnamed by (left; done).
  by rewrite (scan_slides_first _ _ s q).
Qed.

Lemma resolve_auto_auto_create (st : Imgins.Inserter) i :
  (forall j, 1 <= j <= Z.of_nat (Imgins.slides st) ->
     Imgins.get_next_available_position (Imgins.position_tracker st) j = None) ->
  Imgins.resolve st (Scenario.auto_auto i)
  = (Imgins.add_slide st, (Z.of_nat (Imgins.slides st) + 1, BOTTOM_LEFT)).
Proof.
  intros Hfull. unfold Imgins.resolve, Scenario.auto_auto.
  cbn [Imgins.slide_number Imgins.position].
  rewrite auto_assign_unnamed by (left; done).
  rewrite scan_slides_all_full by done.
  unfold Imgins.add_slide; cbn [Imgins.slides hd available_positions].
  do 3 f_equal. lia.
Qed.

Lemma process_placements_inserted image_files insert
    (st st1 : Imgins.Inserter) pl rest s p :
  Imgins.process_placement image_files insert st pl = (st1, Imgins.Inserted s p) ->
  Imgins.process_placements image_files insert st (pl :: rest)
  = (fst (Imgins.process_placements image_files insert st1 rest),
     Imgins.Inserted s p
       :: snd (Imgins.process_placements image_files insert st1 rest)).
Proof.
  intros H. cbn [Imgins.process_placements]. rewrite H.
  by destruct (Imgins.process_placements image_files insert st1 rest).
Qed.

(** Occupying slots of slide [s] does not change what the slides before
    it offer. *)
Lemma full_before_occupy (tr : OccupancyTable) s p :
  (forall j, 1 <= j < s -> Imgins.get_next_available_position tr j = None) ->
  forall j, 1 <= j < s ->
    Imgins.get_next_available_position (Imgins.occupy_position tr s p) j = None.
Proof.
  intros Hfull j Hj. rewrite get_next_available_occupy_other by lia. auto.
Qed.

(** C1.  On a slide with no eligible slot taken, three requests that
    leave the slot to the resolver are given bottom-left, bottom-right
    and top-right, in this order: when they name the slide, and when they
    name nothing and the slides before it are full.  When that slide is
    the last of the deck, a fourth auto/auto request appends a slide and
    is given its bottom-left. *)
Theorem C1_preference_order image_files insert
    (st : Imgins.Inserter) s i1 i2 i3 i4 :
  (forall k i p l t w h, insert k i p l t w h = true) ->
  (forall i, In i [i1; i2; i3; i4] -> 1 <= i <= Z.of_nat image_files) ->
  1 <= s <= Z.of_nat (Imgins.slides st) ->
  empty_slide (Imgins.position_tracker st) s ->
  let filled :=
    [Imgins.Inserted s BOTTOM_LEFT; Imgins.Inserted s BOTTOM_RIGHT;
     Imgins.Inserted s TOP_RIGHT] in
  snd (Imgins.process_placements image_files insert st
         [Scenario.slot_auto i1 s; Scenario.slot_auto i2 s; Scenario.slot_auto i3 s])
  = filled
  /\ ((forall j, 1 <= j < s ->
         Imgins.get_next_available_position (Imgins.position_tracker st) j = None) ->
      snd (Imgins.process_placements image_files insert st
             [Scenario.auto_auto i1; Scenario.auto_auto i2; Scenario.auto_auto i3])
      = filled
      /\ (s = Z.of_nat (Imgins.slides st) ->
          let run :=
            Imgins.process_placements image_files insert st
              [Scenario.auto_auto i1; Scenario.auto_auto i2;
               Scenario.auto_auto i3; Scenario.auto_auto i4] in
          snd run = filled ++ [Imgins.Inserted (s + 1) BOTTOM_LEFT]
          /\ Imgins.slides (fst run) = S (Imgins.slides st))).
Proof.
  intros Hins Himg Hs Hempty filled. subst filled.
  destruct st as [tr n]; cbn [Imgins.position_tracker Imgins.slides] in *.
  destruct (get_next_available_filling tr s Hempty) as (H0 & H1 & H2 & H3).
  assert (forall i, In i [i1; i2; i3; i4] ->
            forall sl p l t w h,
              Imgins.invalid_image_number image_files
                (Imgins.mkPlacement (Some i) sl p l t w h) = false) as Hvalid.
  { intros i Hi **. apply invalid_image_number_false. auto. }
  split; [|intros Hfull; split; [|intros ->]].
  - rewrite (process_placements_inserted _ _ _
               (Imgins.mkInserter (Imgins.occupy_position tr s BOTTOM_LEFT) n)
               _ _ s BOTTOM_LEFT).
    2: { apply (process_placement_inserted _ _ _ (Imgins.mkInserter tr n));
         [apply Hvalid; cbn; auto | apply resolve_slot_auto; [cbn; lia | done] | cbn; lia | apply Hins]. }
    rewrite (process_placements_inserted _ _ _
               (Imgins.mkInserter
                  (Imgins.occupy_position
                     (Imgins.occupy_position tr s BOTTOM_LEFT) s BOTTOM_RIGHT) n)
               _ _ s BOTTOM_RIGHT).
    2: { apply (process_placement_inserted _ _ _
                  (Imgins.mkInserter (Imgins.occupy_position tr s BOTTOM_LEFT) n));
         [apply Hvalid; cbn; auto | apply resolve_slot_auto; [cbn; lia | done] | cbn; lia | apply Hins]. }
    rewrite (process_placements_inserted _ _ _
               (Imgins.mkInserter
                  (Imgins.occupy_position
                     (Imgins.occupy_position
                        (Imgins.occupy_position tr s BOTTOM_LEFT) s BOTTOM_RIGHT)
                     s TOP_RIGHT) n)
               _ _ s TOP_RIGHT).
    2: { apply (process_placement_inserted _ _ _
                  (Imgins.mkInserter
                     (Imgins.occupy_position
                        (Imgins.occupy_position tr s BOTTOM_LEFT) s BOTTOM_RIGHT) n));
         [apply Hvalid; cbn; auto | apply resolve_slot_auto; [cbn; lia | done] | cbn; lia | apply Hins]. }
    done.
  - rewrite (process_placements_inserted _ _ _
               (Imgins.mkInserter (Imgins.occupy_position tr s BOTTOM_LEFT) n)
               _ _ s BOTTOM_LEFT).
    2: { apply (process_placement_inserted _ _ _ (Imgins.mkInserter tr n));
         [apply Hvalid; cbn; auto | apply resolve_auto_auto_first; [cbn; lia | done | done]
         | cbn; lia | apply Hins]. }
    rewrite (process_placements_inserted _ _ _
               (Imgins.mkInserter
                  (Imgins.occupy_position
                     (Imgins.occupy_position tr s BOTTOM_LEFT) s BOTTOM_RIGHT) n)
               _ _ s BOTTOM_RIGHT).
    2: { apply (process_placement_inserted _ _ _
                  (Imgins.mkInserter (Imgins.occupy_position tr s BOTTOM_LEFT) n));
         [apply Hvalid; cbn; auto
         | apply resolve_auto_auto_first;
             [cbn; lia | by apply full_before_occupy | done]
         | cbn; lia | apply Hins]. }
    rewrite (process_placements_inserted _ _ _
               (Imgins.mkInserter
                  (Imgins.occupy_position
                     (Imgins.occupy_position
                        (Imgins.occupy_position tr s BOTTOM_LEFT) s BOTTOM_RIGHT)
                     s TOP_RIGHT) n)
               _ _ s TOP_RIGHT).
    2: { apply (process_placement_inserted _ _ _
                  (Imgins.mkInserter
                     (Imgins.occupy_position
                        (Imgins.occupy_position tr s BOTTOM_LEFT) s BOTTOM_RIGHT) n));
         [apply Hvalid; cbn; auto
         | apply resolve_auto_auto_first;
             [cbn; lia | by do 2 apply full_before_occupy | done]
         | cbn; lia | apply Hins]. }
    done.
  - set (tr3 := Imgins.occupy_position
                  (Imgins.occupy_position
                     (Imgins.occupy_position tr (Z.of_nat n) BOTTOM_LEFT)
                     (Z.of_nat n) BOTTOM_RIGHT) (Z.of_nat n) TOP_RIGHT) in *.
    rewrite (process_placements_inserted _ _ _
               (Imgins.mkInserter
                  (Imgins.occupy_position tr (Z.of_nat n) BOTTOM_LEFT) n)
               _ _ (Z.of_nat n) BOTTOM_LEFT).
    2: { apply (process_placement_inserted _ _ _ (Imgins.mkInserter tr n));
         [apply Hvalid; cbn; auto | apply resolve_auto_auto_first; [cbn; lia | done | done]
         | cbn; lia | apply Hins]. }
    rewrite (process_placements_inserted _ _ _
               (Imgins.mkInserter
                  (Imgins.occupy_position
                     (Imgins.occupy_position tr (Z.of_nat n) BOTTOM_LEFT)
                     (Z.of_nat n) BOTTOM_RIGHT) n)
               _ _ (Z.of_nat n) BOTTOM_RIGHT).
    2: { apply (process_placement_inserted _ _ _
                  (Imgins.mkInserter
                     (Imgins.occupy_position tr (Z.of_nat n) BOTTOM_LEFT) n));
         [apply Hvalid; cbn; auto
         | apply resolve_auto_auto_first;
             [cbn; lia | by apply full_before_occupy | done]
         | cbn; lia | apply Hins]. }
    rewrite (process_placements_inserted _ _ _ (Imgins.mkInserter tr3 n)
               _ _ (Z.of_nat n) TOP_RIGHT).
    2: { apply (process_placement_inserted _ _ _
                  (Imgins.mkInserter
                     (Imgins.occupy_position
                        (Imgins.occupy_position tr (Z.of_nat n) BOTTOM_LEFT)
                        (Z.of_nat n) BOTTOM_RIGHT) n));
         [apply Hvalid; cbn; auto
         | apply resolve_auto_auto_first;
             [cbn; lia | by do 2 apply full_before_occupy | done]
         | cbn; lia | apply Hins]. }
    rewrite (process_placements_inserted _ _ _
               (Imgins.mkInserter
                  (Imgins.occupy_position tr3 (Z.of_nat n + 1) BOTTOM_LEFT) (S n))
               _ _ (Z.of_nat n + 1) BOTTOM_LEFT).
    2: { apply (process_placement_inserted _ _ (Imgins.mkInserter tr3 n)
                  (Imgins.add_slide (Imgins.mkInserter tr3 n)));
         [apply Hvalid; cbn; auto | | cbn; lia | apply Hins].
         apply resolve_auto_auto_create.
         cbn [Imgins.position_tracker Imgins.slides]. intros j Hj.
         destruct (decide (j = Z.of_nat n)) as [->|Hne]; [done|].
         subst tr3. rewrite !get_next_available_occupy_other by lia.
         apply Hfull. lia. }
    done.
Qed.

(** Scenario A: four auto/auto requests on a new one-slide deck. *)
Lemma C1_scenario_A :
  empty_slide (Imgins.position_tracker Scenario.one_empty_slide) 1
  /\ snd (Imgins.process_placements 1 Scenario.insert_ok Scenario.one_empty_slide
            [Scenario.auto_auto 1; Scenario.auto_auto 1;
             Scenario.auto_auto 1; Scenario.auto_auto 1])
     = [Imgins.Inserted 1 BOTTOM_LEFT; Imgins.Inserted 1 BOTTOM_RIGHT;
        Imgins.Inserted 1 TOP_RIGHT; Imgins.Inserted 2 BOTTOM_LEFT]
  /\ Imgins.slides
       (fst (Imgins.process_placements 1 Scenario.insert_ok
               Scenario.one_empty_slide
               [Scenario.auto_auto 1; Scenario.auto_auto 1;
                Scenario.auto_auto 1; Scenario.auto_auto 1]))
     = 2%nat.
Proof.
  assert (empty_slide (Imgins.position_tracker Scenario.one_empty_slide) 1)
    as Hempty by (intros p Hp; reflexivity).
  split; [exact Hempty|].
  refine (proj2 (proj2 (C1_preference_order 1 Scenario.insert_ok
                          Scenario.one_empty_slide 1 1 1 1 1 _ _ _ Hempty) _) _).
  - reflexivity.
  - intros i Hi. cbn in Hi. lia.
  - cbn. lia.
  - intros j Hj. lia.
  - reflexivity.
Defined.

(** ** The allocator of the JSON generator *)

Lemma docjson_is_slide_full_table (m : OccupancyTable) s :
  fst (DocJson.is_slide_full m s) = touched m s.
Proof. done. Qed.

Lemma docjson_is_slide_full_result (m : OccupancyTable) s :
  snd (DocJson.is_slide_full m s)
  = match List.find (fun p => negb (isOccupied m s p)) available_positions with
    | None => true
    | Some _ => false
    end.
Proof.
  unfold DocJson.is_slide_full.
  rewrite (surjective_pairing (DocJson.get_next_available_position m s)).
  cbn [snd]. by rewrite docjson_next_available_result.
Qed.

Lemma touched_occupancy (m : OccupancyTable) s s' p :
  isOccupied (touched m s) s' p = isOccupied m s' p.
Proof. apply docjson_touch_occupancy. Qed.

(** A full slide is a key of the table, so asking about it writes
    nothing. *)
Lemma docjson_full_is_key (m : OccupancyTable) s :
  snd (DocJson.is_slide_full m s) = true -> touched m s = m.
Proof.
  rewrite docjson_is_slide_full_result. unfold touched, isOccupied.
  destruct (m !! s) eqn:E; [done|].
  unfold available_positions; cbn.
  rewrite bool_decide_eq_false_2 by apply not_elem_of_empty. done.
Qed.

Lemma docjson_full_lookup (m : OccupancyTable) s :
  snd (DocJson.is_slide_full m s) = true -> is_Some (m !! s).
Proof.
  rewrite docjson_is_slide_full_result. unfold isOccupied.
  destruct (m !! s) eqn:E; [eauto|].
  unfold available_positions; cbn.
  rewrite bool_decide_eq_false_2 by apply not_elem_of_empty. done.
Qed.

Lemma max_slide_ge_default (m : OccupancyTable) d : d <= DocJson.max_slide m d.
Proof.
  unfold DocJson.max_slide.
  induction (map fst (map_to_list m)) as [|k ks IH]; cbn; lia.
Qed.

Lemma max_slide_ge_key (m : OccupancyTable) d k :
  is_Some (m !! k) -> k <= DocJson.max_slide m d.
Proof.
  intros [occ Hk]. unfold DocJson.max_slide.
  assert (In k (map fst (map_to_list m))) as Hin.
  { apply in_map_iff. exists (k, occ). split; [done|].
    apply list_elem_of_In, elem_of_map_to_list. done. }
  induction (map fst (map_to_list m)) as [|k' ks IH]; cbn; [done|].
  destruct Hin as [->|Hin]; [lia|]. specialize (IH Hin). lia.
Qed.

(** The loop stops, on the first slide from [next_slide] on that is not
    full, as soon as the fuel exceeds the distance to the last key. *)
Lemma find_slide_loop_spec (fuel : nat) (m : OccupancyTable) next_slide :
  (0 < fuel)%nat ->
  (forall k, is_Some (m !! k) -> k - next_slide + 1 < Z.of_nat fuel) ->
  exists k,
    DocJson.find_slide_loop fuel m next_slide = Some (touched m k, k)
    /\ next_slide <= k
    /\ snd (DocJson.is_slide_full m k) = false
    /\ forall j, next_slide <= j < k -> snd (DocJson.is_slide_full m j) = true.
Proof.
  revert next_slide. induction fuel as [|fuel IH]; intros next_slide Hpos Hkeys;
    [lia|].
  cbn [DocJson.find_slide_loop].
  rewrite (surjective_pairing (DocJson.is_slide_full m next_slide)).
  rewrite docjson_is_slide_full_table.
  destruct (snd (DocJson.is_slide_full m next_slide)) eqn:Efull.
  - rewrite (docjson_full_is_key _ _ Efull).
    assert (Hkey := docjson_full_lookup _ _ Efull).
    destruct (IH (next_slide + 1)) as (k & Hloop & Hk & Hfree & Hfull).
    + specialize (Hkeys _ Hkey). lia.
    + intros k Hk. specialize (Hkeys _ Hk). lia.
    + exists k. split_and!; [done | lia | done |].
      intros j Hj. destruct (decide (j = next_slide)) as [->|Hne]; [done|].
      apply Hfull. lia.
  - exists next_slide. split_and!; [done | lia | done |]. intros j Hj. lia.
Qed.

(** [_find_or_create_slide] returns, and returns the smallest slide
    number above [current_slide] that is not full. *)
Lemma find_or_create_slide_spec (m : OccupancyTable) current_slide :
  exists k,
    DocJson._find_or_create_slide m current_slide = Some (touched m k, k)
    /\ current_slide < k
    /\ snd (DocJson.is_slide_full m k) = false
    /\ forall j, current_slide < j < k -> snd (DocJson.is_slide_full m j) = true.
Proof.
  unfold DocJson._find_or_create_slide, DocJson.loop_fuel.
  destruct (find_slide_loop_spec
              (S (Z.to_nat (DocJson.max_slide m (current_slide + 1) + 1
                            - (current_slide + 1))))
              m (current_slide + 1)) as (k & Hloop & Hk & Hfree & Hfull).
  - lia.
  - intros k Hk. apply (max_slide_ge_key m (current_slide + 1)) in Hk. lia.
  - exists k. split_and!; [done | lia | done |]. intros j Hj. apply Hfull. lia.
Qed.

Lemma touched_idem (m : OccupancyTable) s : touched (touched m s) s = touched m s.
Proof.
  unfold touched. destruct (m !! s) eqn:E; [by rewrite E|].
  by rewrite lookup_insert_eq.
Qed.

Lemma first_free_in (occupied : Position -> bool) q :
  first_free occupied (Some q) -> In q available_positions.
Proof.
  intros (before & after & -> & _). apply in_app_iff. right. left. done.
Qed.

(** One image of a mapping: the slide it is given is the running slide
    when that one has room, and otherwise the smallest slide number above
    it that is not full; the slot is the first free one there. *)
Lemma assign_image_spec dw dh (m : OccupancyTable) slide_num entries img :
  exists k q,
    DocJson.assign_image dw dh (m, slide_num, entries) img
    = Some (DocJson.occupy_position (touched m k) k q, k,
            entries ++ [DocJson.mkEntry img k q dw dh])
    /\ (if snd (DocJson.is_slide_full m slide_num)
        then slide_num < k
             /\ forall j, slide_num < j < k ->
                          snd (DocJson.is_slide_full m j) = true
        else k = slide_num)
    /\ snd (DocJson.is_slide_full m k) = false
    /\ first_free (isOccupied m k) (Some q).
Proof.
  assert (forall k,
            snd (DocJson.is_slide_full m k) = false ->
            exists q,
              DocJson.get_next_available_position (touched m k) k
              = (touched m k, Some q)
              /\ first_free (isOccupied m k) (Some q)) as Hnext.
  { intros k Hk. rewrite docjson_is_slide_full_result in Hk.
    assert (Hff := find_first_free (isOccupied m k)).
    destruct (List.find _ available_positions) as [q|] eqn:Efind; [|done].
    exists q. split; [|done].
    rewrite (surjective_pairing (DocJson.get_next_available_position _ k)).
    rewrite docjson_next_available_table, docjson_next_available_result.
    fold (touched (touched m k) k). rewrite touched_idem. f_equal.
    rewrite <- Efind. unfold available_positions; cbn.
    by rewrite !touched_occupancy. }
  unfold DocJson.assign_image.
  rewrite (surjective_pairing (DocJson.is_slide_full m slide_num)).
  rewrite docjson_is_slide_full_table.
  destruct (snd (DocJson.is_slide_full m slide_num)) eqn:Efull.
  - rewrite (docjson_full_is_key _ _ Efull).
    destruct (find_or_create_slide_spec m slide_num)
      as (k & Hfind & Hk & Hfree & Hfull).
    destruct (Hnext k Hfree) as (q & Hq & Hff).
    exists k, q. rewrite Hfind; cbn [mbind option_bind]. rewrite Hq.
    split_and!; done.
  - destruct (Hnext slide_num Efull) as (q & Hq & Hff).
    exists slide_num, q. cbn [mbind option_bind]. rewrite Hq.
    split_and!; done.
Qed.

(** C10.  When the running slide of a mapping is full, the image is
    given the smallest slide number strictly above it that is not full,
    and the first free slot there; no slide at or below the running one is
    looked at, whatever room it has. *)
Theorem C10_forward_only_spillover dw dh
    (m : OccupancyTable) slide_num entries img :
  snd (DocJson.is_slide_full m slide_num) = true ->
  exists k q,
    DocJson._find_or_create_slide m slide_num = Some (touched m k, k)
    /\ DocJson.assign_image dw dh (m, slide_num, entries) img
       = Some (DocJson.occupy_position (touched m k) k q, k,
               entries ++ [DocJson.mkEntry img k q dw dh])
    /\ slide_num < k
    /\ snd (DocJson.is_slide_full m k) = false
    /\ (forall j, slide_num < j < k -> snd (DocJson.is_slide_full m j) = true)
    /\ first_free (isOccupied m k) (Some q).
Proof.
  intros Efull.
  destruct (assign_image_spec dw dh m slide_num entries img)
    as (k & q & Hassign & Hk & Hfree & Hff).
  rewrite Efull in Hk. destruct Hk as [Hk Hfull].
  exists k, q. split_and!; try done.
  destruct (find_or_create_slide_spec m slide_num)
    as (k' & Hfind & Hk' & Hfree' & Hfull').
  rewrite Hfind. do 2 f_equal; [f_equal|];
    (destruct (Z.lt_trichotomy k k') as [Hlt|[Heq|Hgt]]; [|done|];
     [rewrite Hfull' in Hfree by lia | rewrite Hfull in Hfree' by lia];
     discriminate).
Qed.

(** Slide 2 is full and slide 1 is empty.  The generator moves an image
    mapped to slide 2 forward, to slide 3; the resolver of [imgins.py], on
    a three-slide deck with the same table and a request for slide 2 with
    the slot left open, goes back to slide 1. *)
Lemma C10_generator_forward_resolver_back :
  snd (DocJson.is_slide_full Scenario.second_slide_full 2) = true
  /\ (exists k q,
        DocJson._find_or_create_slide Scenario.second_slide_full 2
        = Some (touched Scenario.second_slide_full k, k)
        /\ DocJson.assign_image (3 # 1) (2 # 1)
             (Scenario.second_slide_full, 2, []) 4
           = Some (DocJson.occupy_position
                     (touched Scenario.second_slide_full k) k q, k,
                   [DocJson.mkEntry 4 k q (3 # 1) (2 # 1)])
        /\ 2 < k
        /\ snd (DocJson.is_slide_full Scenario.second_slide_full k) = false
        /\ (forall j, 2 < j < k ->
               snd (DocJson.is_slide_full Scenario.second_slide_full j) = true)
        /\ first_free (isOccupied Scenario.second_slide_full k) (Some q))
  /\ DocJson._find_or_create_slide Scenario.second_slide_full 2
     = Some (touched Scenario.second_slide_full 3, 3)
  /\ Imgins.resolve (Imgins.mkInserter Scenario.second_slide_full 3)
       (Scenario.slot_auto 4 2)
     = (Imgins.mkInserter Scenario.second_slide_full 3, (1, BOTTOM_LEFT)).
Proof.
  assert (snd (DocJson.is_slide_full Scenario.second_slide_full 2) = true)
    as Hfull by (vm_compute; reflexivity).
  split; [exact Hfull|]. split.
  - exact (C10_forward_only_spillover (3 # 1) (2 # 1)
             Scenario.second_slide_full 2 [] 4 Hfull).
  - split; vm_compute; reflexivity.
Defined.

(** ** Invariants of the occupancy table *)

Lemma occupy_position_lookup (tr : OccupancyTable) s p s' :
  Imgins.occupy_position tr s p !! s'
  = if decide (s = s') then Some (Imgins.get_occupied_positions tr s ∪ {[p]})
    else tr !! s'.
Proof. rewrite occupy_position_insert. apply lookup_insert. Qed.

Lemma marked_only_occupy (tr : OccupancyTable) s p :
  marked_only tr -> marked_only (Imgins.occupy_position tr s p).
Proof.
  intros Htr s' occ. rewrite occupy_position_lookup.
  destruct (decide (s = s')) as [<-|Hne]; [|apply Htr].
  intros [= <-] Hempty.
  apply (not_elem_of_empty (C:=gset Position) p). rewrite <- Hempty.
  apply elem_of_union_r, elem_of_singleton_2. done.
Qed.

Lemma stored_from_occupy (tr : OccupancyTable) requested s p :
  stored_from tr requested ->
  In p available_positions \/ p = TOP_LEFT \/ In p requested ->
  stored_from (Imgins.occupy_position tr s p) requested.
Proof.
  intros Htr Hp s' occ q. rewrite occupy_position_lookup.
  destruct (decide (s = s')) as [<-|Hne]; [|apply Htr].
  intros [= <-]. rewrite elem_of_union, elem_of_singleton.
  intros [Hq | ->]; [|done].
  unfold Imgins.get_occupied_positions in Hq.
  destruct (tr !! s) as [occ|] eqn:E; cbn in Hq.
  - by apply (Htr s occ).
  - by apply not_elem_of_empty in Hq.
Qed.

Lemma stored_from_mono (tr : OccupancyTable) requested requested' :
  (forall p, In p requested -> In p requested') ->
  stored_from tr requested -> stored_from tr requested'.
Proof.
  intros Hsub Htr s occ p Hs Hp.
  destruct (Htr s occ p Hs Hp) as [?|[?|?]]; auto.
Qed.

Lemma occupy_position_keys (tr : OccupancyTable) s p s' :
  is_Some (Imgins.occupy_position tr s p !! s') -> s' = s \/ is_Some (tr !! s').
Proof.
  rewrite occupy_position_lookup.
  destruct (decide (s = s')) as [<-|Hne]; auto.
Qed.

(** The scanner marks one of the four quadrants per picture, on slides
    of the deck. *)
Lemma determine_position_quadrant left top w h :
  let q := Imgins._determine_position_from_coordinates left top w h in
  In q available_positions \/ q = TOP_LEFT.
Proof.
  cbn zeta. rewrite determine_position_thresholds.
  repeat case_bool_decide; cbn; auto.
Qed.

Lemma scan_slide_invariant (tr : OccupancyTable) slide_num shapes requested :
  marked_only tr -> stored_from tr requested ->
  marked_only (Imgins.scan_slide tr slide_num shapes)
  /\ stored_from (Imgins.scan_slide tr slide_num shapes) requested
  /\ forall s, is_Some (Imgins.scan_slide tr slide_num shapes !! s) ->
               s = slide_num \/ is_Some (tr !! s).
Proof.
  unfold Imgins.scan_slide. revert tr.
  induction shapes as [|shape shapes IH]; intros tr Hm Hst; cbn [fold_left].
  - auto.
  - destruct (Imgins.shape_type shape).
    + destruct (IH (Imgins.occupy_position tr slide_num
                      (Imgins._determine_position_from_coordinates
                         (Imgins.shape_left shape) (Imgins.shape_top shape)
                         (10 # 1) (15 # 2)))) as (Hm' & Hst' & Hk').
      * by apply marked_only_occupy.
      * apply stored_from_occupy; [done|].
        destruct (determine_position_quadrant (Imgins.shape_left shape)
                    (Imgins.shape_top shape) (10 # 1) (15 # 2)); auto.
      * split_and!; [done | done |]. intros s Hs.
        destruct (Hk' s Hs) as [?|Hs']; [auto|].
        apply occupy_position_keys in Hs'. tauto.
    + by apply IH.
Qed.

Lemma scan_from_invariant (tr : OccupancyTable) slide_num prs requested :
  marked_only tr -> stored_from tr requested ->
  marked_only (Imgins.scan_from tr slide_num prs)
  /\ stored_from (Imgins.scan_from tr slide_num prs) requested
  /\ forall s, is_Some (Imgins.scan_from tr slide_num prs !! s) ->
               slide_num <= s < slide_num + Z.of_nat (length prs)
               \/ is_Some (tr !! s).
Proof.
  revert tr slide_num.
  induction prs as [|slide prs IH]; intros tr slide_num Hm Hst;
    cbn [Imgins.scan_from length].
  - auto.
  - destruct (scan_slide_invariant tr slide_num slide requested Hm Hst)
      as (Hm1 & Hst1 & Hk1).
    destruct (IH _ (slide_num + 1) Hm1 Hst1) as (Hm2 & Hst2 & Hk2).
    split_and!; [done | done |]. intros s Hs.
    destruct (Hk2 s Hs) as [?|Hs']; [left; lia|].
    destruct (Hk1 s Hs') as [->|?]; [left; lia | auto].
Qed.

Lemma get_next_available_in (tr : OccupancyTable) s q :
  Imgins.get_next_available_position tr s = Some q -> In q available_positions.
Proof.
  intros H. apply (first_free_in (Imgins.is_position_occupied tr s)).
  rewrite <- H. apply imgins_next_available_first_free.
Qed.

Lemma scan_slides_in (tr : OccupancyTable) range k q :
  Imgins.scan_slides tr range = Some (k, q) -> In q available_positions.
Proof.
  induction range as [|s range IH]; cbn [Imgins.scan_slides]; [done|].
  destruct (Imgins.get_next_available_position tr s) as [q'|] eqn:E; [|done].
  intros [= <- <-]. by apply get_next_available_in in E.
Qed.

(** The resolver never writes to the table and never removes a slide;
    what it assigns is an eligible slot or the position the request
    named. *)
Lemma auto_assign_position_result (st st1 : Imgins.Inserter) pl k q :
  Imgins.auto_assign_position st pl = (st1, (k, q)) ->
  Imgins.position_tracker st1 = Imgins.position_tracker st
  /\ (Imgins.slides st <= Imgins.slides st1)%nat
  /\ In q available_positions.
Proof.
  unfold Imgins.auto_assign_position.
  set (named := match Imgins.slide_number pl with
                | Imgins.Auto => _ | Imgins.Slide _ => _ end).
  assert (forall r, named = Some r -> In (snd r) available_positions) as Hnamed.
  { subst named. intros r.
    destruct (Imgins.slide_number pl) as [|s], (Imgins.position pl);
      try done.
    case_bool_decide; [|done].
    destruct (Imgins.get_next_available_position _ s) eqn:E; [|done].
    intros [= <-]. by apply get_next_available_in in E. }
  destruct named as [[k' q']|].
  - intros [= <- <- <-]. specialize (Hnamed _ eq_refl). done.
  - destruct (Imgins.scan_slides _ _) as [[k' q']|] eqn:E.
    + intros [= <- <- <-]. apply scan_slides_in in E. done.
    + intros [= <- <- <-]. cbn. split_and!; [done | lia | auto].
Qed.

Lemma resolve_result (st st1 : Imgins.Inserter) pl k q :
  Imgins.resolve st pl = (st1, (k, q)) ->
  Imgins.position_tracker st1 = Imgins.position_tracker st
  /\ (Imgins.slides st <= Imgins.slides st1)%nat
  /\ (In q available_positions \/ In q (requested_positions [pl])).
Proof.
  unfold Imgins.resolve, requested_positions; cbn [flat_map].
  destruct (Imgins.slide_number pl) as [|s] eqn:Es.
  { intros H. apply auto_assign_position_result in H. tauto. }
  destruct (Imgins.position pl) as [p|] eqn:Ep.
  2: { intros H. apply auto_assign_position_result in H. tauto. }
  destruct (Imgins.is_position_occupied _ s p).
  - destruct (Imgins.get_next_available_position _ s) as [alt|] eqn:E.
    + intros [= <- <- <-]. apply get_next_available_in in E. auto.
    + intros H. apply auto_assign_position_result in H. tauto.
  - intros [= <- <- <-]. split_and!; [done | done |]. right. cbn. auto.
Qed.

(** One iteration of the placement loop keeps the three invariants. *)
Lemma process_placement_invariant image_files insert
    (st : Imgins.Inserter) pl requested :
  marked_only (Imgins.position_tracker st) ->
  within_deck st ->
  stored_from (Imgins.position_tracker st) requested ->
  let st' := fst (Imgins.process_placement image_files insert st pl) in
  marked_only (Imgins.position_tracker st')
  /\ within_deck st'
  /\ stored_from (Imgins.position_tracker st')
       (requested_positions [pl] ++ requested).
Proof.
  intros Hm Hd Hst. cbn zeta.
  assert (stored_from (Imgins.position_tracker st)
            (requested_positions [pl] ++ requested)) as Hst'.
  { revert Hst. apply stored_from_mono. intros p Hp. apply in_app_iff. auto. }
  unfold Imgins.process_placement.
  destruct (Imgins.invalid_image_number image_files pl); [done|].
  destruct (Imgins.resolve st pl) as [st1 [k q]] eqn:Eres.
  apply resolve_result in Eres. destruct Eres as (Htr & Hn & Hq).
  assert (within_deck st1) as Hd1.
  { intros s Hs. rewrite Htr in Hs. specialize (Hd s Hs). lia. }
  case_bool_decide as Hover; [by rewrite <- Htr in *|].
  case_bool_decide as Hunder; [by rewrite <- Htr in *|].
  destruct (insert k _ q _ _ _ _); [|by rewrite <- Htr in *].
  cbn [fst Imgins.position_tracker]. rewrite Htr. split_and!.
  - by apply marked_only_occupy.
  - intros s Hs. cbn [Imgins.position_tracker Imgins.slides] in *.
    apply occupy_position_keys in Hs. destruct Hs as [->|Hs]; [lia|].
    rewrite <- Htr in Hs. by apply Hd1.
  - apply stored_from_occupy; [done|].
    destruct Hq as [?|?]; [auto|]. right; right. apply in_app_iff. auto.
Qed.

Lemma process_placements_invariant image_files insert placements :
  forall (st : Imgins.Inserter) requested,
    marked_only (Imgins.position_tracker st) ->
    within_deck st ->
    stored_from (Imgins.position_tracker st) requested ->
    let st' := fst (Imgins.process_placements image_files insert st placements) in
    marked_only (Imgins.position_tracker st')
    /\ within_deck st'
    /\ stored_from (Imgins.position_tracker st')
         (requested_positions placements ++ requested).
Proof.
  induction placements as [|pl rest IH]; intros st requested Hm Hd Hst;
    cbn zeta; cbn [Imgins.process_placements].
  - done.
  - destruct (process_placement_invariant image_files insert st pl requested
                Hm Hd Hst) as (Hm1 & Hd1 & Hst1).
    destruct (Imgins.process_placement image_files insert st pl) as [st1 o].
    cbn [fst] in *.
    assert (forall p,
              In p (requested_positions [pl] ++ requested) ->
              In p (requested_positions (pl :: rest) ++ requested)) as Hsub1.
    { intros p. unfold requested_positions; cbn [flat_map].
      rewrite !app_nil_r, !in_app_iff. tauto. }
    assert (forall p,
              In p (requested_positions rest ++ requested_positions [pl] ++ requested) ->
              In p (requested_positions (pl :: rest) ++ requested)) as Hsub2.
    { intros p. unfold requested_positions; cbn [flat_map].
      rewrite !app_nil_r, !in_app_iff. tauto. }
    specialize (IH st1 _ Hm1 Hd1 Hst1). cbn zeta in IH.
    destruct (Imgins.process_placements image_files insert st1 rest) as [st2 os].
    cbn [fst] in IH. destruct IH as (Hm2 & Hd2 & Hst2).
    destruct o; cbn [fst]; split_and!; try done;
      eauto using stored_from_mono.
Qed.

Lemma eligible_only_touched (m : OccupancyTable) s :
  eligible_only m -> eligible_only (touched m s).
Proof.
  intros Hm s' occ p. unfold touched.
  destruct (m !! s) eqn:E; [apply Hm|].
  rewrite lookup_insert. case_decide; [|apply Hm].
  intros [= <-] Hp. by apply not_elem_of_empty in Hp.
Qed.

Lemma eligible_only_occupy (m : OccupancyTable) s p :
  eligible_only m -> In p available_positions ->
  eligible_only (DocJson.occupy_position m s p).
Proof.
  intros Hm Hp s' occ q.
  change (DocJson.occupy_position m s p) with (Imgins.occupy_position m s p).
  rewrite occupy_position_lookup. case_decide; [|apply Hm].
  intros [= <-]. rewrite elem_of_union, elem_of_singleton.
  intros [Hq | ->]; [|done].
  unfold Imgins.get_occupied_positions in Hq.
  destruct (m !! s) as [occ|] eqn:E; cbn in Hq.
  - by apply (Hm s occ).
  - by apply not_elem_of_empty in Hq.
Qed.

(** The inner loop of the generator returns and keeps the table within
    the eligible slots. *)
Lemma assign_images_total dw dh image_numbers :
  forall (m : OccupancyTable) slide_num entries,
    eligible_only m ->
    exists m' slide_num' entries',
      DocJson.assign_images dw dh (m, slide_num, entries) image_numbers
      = Some (m', slide_num', entries')
      /\ eligible_only m'.
Proof.
  induction image_numbers as [|img rest IH]; intros m slide_num entries Hm;
    cbn [DocJson.assign_images].
  - eauto.
  - destruct (assign_image_spec dw dh m slide_num entries img)
      as (k & q & -> & _ & _ & Hq).
    cbn [mbind option_bind]. apply IH.
    apply eligible_only_occupy; [by apply eligible_only_touched|].
    by apply first_free_in in Hq.
Qed.

Lemma assign_mappings_total dw dh mappings :
  forall (m : OccupancyTable) entries,
    eligible_only m ->
    exists m' entries',
      DocJson.assign_mappings dw dh m entries mappings = Some (m', entries')
      /\ eligible_only m'.
Proof.
  induction mappings as [|mapping rest IH]; intros m entries Hm;
    cbn [DocJson.assign_mappings].
  - eauto.
  - destruct (assign_images_total dw dh (DocJson.image_numbers mapping) m
                (DocJson.slide_number mapping) entries Hm)
      as (m1 & s1 & e1 & -> & Hm1).
    cbn [mbind option_bind]. by apply IH.
Qed.

(** C3 (as amended).  In [imgins.py], after the scan of an existing deck
    and any list of placements, a slide is a key of the table only if a
    slot was marked on it (no key holds the empty set), no key exceeds
    the number of slides, and an absent slide reads as unoccupied with
    bottom-left as its next slot; what a key holds is an eligible slot,
    or top-left (from the scanner), or a position that a request with a
    named slide asked for.  In [doc_json.py], the generator returns and
    every set it stores holds eligible slots only. *)
Theorem C3_table_invariants image_files insert prs placements dw dh mappings :
  (let st := fst (Imgins.process_mappings image_files insert prs placements) in
   let tr := Imgins.position_tracker st in
   marked_only tr
   /\ within_deck st
   /\ stored_from tr (requested_positions placements)
   /\ forall s, tr !! s = None ->
         (forall p, Imgins.is_position_occupied tr s p = false)
         /\ Imgins.get_next_available_position tr s = Some BOTTOM_LEFT)
  /\ (exists m entries,
        DocJson.generate_json_mapping dw dh mappings = Some (m, entries)
        /\ eligible_only m).
Proof.
  split.
  - cbn zeta. unfold Imgins.process_mappings.
    assert (marked_only (Imgins.position_tracker (Imgins.initial_inserter prs))
            /\ within_deck (Imgins.initial_inserter prs)
            /\ stored_from (Imgins.position_tracker (Imgins.initial_inserter prs)) [])
      as (Hm & Hd & Hst).
    { destruct prs as [deck|]; cbn [Imgins.initial_inserter Imgins.position_tracker].
      - destruct (scan_from_invariant ∅ 1 deck []) as (Hm & Hst & Hk).
        + intros s occ Hs. by rewrite lookup_empty in Hs.
        + intros s occ p Hs. by rewrite lookup_empty in Hs.
        + split_and!; [done | | done].
          intros s Hs. cbn [Imgins.position_tracker Imgins.slides] in *.
          destruct (Hk s Hs) as [?|[? Hs']]; [lia|].
          by rewrite lookup_empty in Hs'.
      - split_and!.
        + intros s occ Hs. by rewrite lookup_empty in Hs.
        + intros s [occ Hs]. cbn in Hs. by rewrite lookup_empty in Hs.
        + intros s occ p Hs. by rewrite lookup_empty in Hs. }
    destruct (process_placements_invariant image_files insert placements
                (Imgins.initial_inserter prs) [] Hm Hd Hst) as (Hm' & Hd' & Hst').
    rewrite app_nil_r in Hst'. split_and!; try done.
    intros s Hs.
    assert (forall p,
              Imgins.is_position_occupied
                (Imgins.position_tracker
                   (fst (Imgins.process_placements image_files insert
                           (Imgins.initial_inserter prs) placements))) s p
              = false) as Hfree.
    { intros p. unfold Imgins.is_position_occupied. by rewrite Hs. }
    split; [done|]. rewrite get_next_available_unfold. by rewrite Hfree.
  - apply assign_mappings_total. intros s occ p Hs. by rewrite lookup_empty in Hs.
Qed.

(** C3, the claim as stated fails.  The scanner marks top-left for a
    picture in the top-left corner of slide 1; a [center] request for
    slide 1 leaves [center] in the table; and in [doc_json.py] a query
    about slide 1 makes it a key that holds the empty set. *)
Lemma C3_non_eligible_entries_and_unmarked_key :
  isOccupied
    (Imgins.position_tracker
       (Imgins.initial_inserter (Some Scenario.deck_top_left))) 1 TOP_LEFT
  = true
  /\ isOccupied
       (Imgins.position_tracker
          (fst (Imgins.process_mappings 1 Scenario.insert_ok None
                  [Scenario.request 1 1 CENTER]))) 1 CENTER
     = true
  /\ fst (DocJson.get_next_available_position ∅ 1) !! 1 = Some ∅.
Proof. split_and!; vm_compute; reflexivity. Qed.

(** ** The line-oriented form *)

Lemma parse_txt_lines_app float (before rest : list string) :
  forall n,
    Imgins.parse_txt_lines float n (before ++ rest)
    = (fst (Imgins.parse_txt_lines float n before)
         ++ fst (Imgins.parse_txt_lines float (n + length before) rest),
       snd (Imgins.parse_txt_lines float n before)
         ++ snd (Imgins.parse_txt_lines float (n + length before) rest)).
Proof.
  induction before as [|line before IH]; intros n;
    cbn [app Imgins.parse_txt_lines length].
  - rewrite Nat.add_0_r. by destruct (Imgins.parse_txt_lines float n rest).
  - rewrite IH. replace (S n + length before)%nat with (n + S (length before))%nat
      by lia.
    destruct (Imgins.parse_txt_lines float (S n) before) as [p1 w1].
    destruct (Imgins.parse_txt_lines float (n + S (length before)) rest)
      as [p2 w2].
    cbn [fst snd]. by destruct (Imgins.parse_txt_line float line).
Qed.

(** The placements do not depend on the line counter. *)
Lemma parse_txt_lines_placements float (f : list string) :
  forall n m,
    fst (Imgins.parse_txt_lines float n f) = fst (Imgins.parse_txt_lines float m f).
Proof.
  induction f as [|line f IH]; intros n m; cbn [Imgins.parse_txt_lines]; [done|].
  specialize (IH (S n) (S m)).
  destruct (Imgins.parse_txt_lines float (S n) f) as [p1 w1].
  destruct (Imgins.parse_txt_lines float (S m) f) as [p2 w2].
  cbn [fst] in IH. subst p2.
  by destruct (Imgins.parse_txt_line float line).
Qed.

(** A line that yields no placement leaves those of the other lines as
    they are, in order. *)
Lemma parse_txt_mapping_drop float (before after : list string) line :
  (forall pl, Imgins.parse_txt_line float line <> Imgins.Parsed pl) ->
  Imgins._parse_txt_mapping float (before ++ line :: after)
  = Imgins._parse_txt_mapping float before ++ Imgins._parse_txt_mapping float after.
Proof.
  intros Hline. unfold Imgins._parse_txt_mapping.
  rewrite parse_txt_lines_app. cbn [fst]. f_equal.
  cbn [Imgins.parse_txt_lines].
  rewrite (parse_txt_lines_placements float after 1 (S (1 + length before))).
  destruct (Imgins.parse_txt_lines float (S (1 + length before)) after) as [p w].
  destruct (Imgins.parse_txt_line float line) as [| | |pl]; try done.
  by destruct (Hline pl).
Qed.

Lemma parse_txt_line_ignored float line :
  blank_or_comment line = true -> Imgins.parse_txt_line float line = Imgins.Ignored.
Proof.
  unfold blank_or_comment, Imgins.parse_txt_line. by intros ->.
Qed.

Lemma parse_txt_line_parts float line :
  blank_or_comment line = false ->
  Imgins.parse_txt_line float line
  = if (length (txt_parts line) <? 1)%nat then Imgins.SkippedInvalid
    else match Imgins.parse_txt_parts float (txt_parts line) with
         | Some placement => Imgins.Parsed placement
         | None => Imgins.SkippedError
         end.
Proof.
  unfold blank_or_comment, Imgins.parse_txt_line, txt_parts. by intros ->.
Qed.

Lemma parse_txt_line_unparsable float line :
  unparsable_image_number line = true ->
  Imgins.parse_txt_line float line = Imgins.SkippedError.
Proof.
  unfold unparsable_image_number. intros [Hline Hpart]%andb_true_iff.
  apply negb_true_iff in Hline. rewrite parse_txt_line_parts by done.
  destruct (txt_parts line) as [|part rest]; [done|].
  apply andb_true_iff in Hpart. destruct Hpart as [Hblank Hint].
  destruct (Py.int part) eqn:Eint; [done|].
  cbn [length Nat.ltb Nat.leb]. unfold Imgins.parse_txt_parts.
  destruct (if String.eqb (Imgins.part_or_auto _ 1) "auto" then _ else _);
    cbn [mbind option_bind]; [|done].
  destruct (if String.eqb (Imgins.part_or_auto _ 2) "auto" then _ else _);
    cbn [mbind option_bind]; [|done].
  cbn [lookup list_lookup]. by rewrite Hblank, Eint.
Qed.

Lemma part_float_readable float parts i :
  readable (Imgins.part_float float parts i)
  = number_field_ok float (field_text parts i).
Proof.
  unfold Imgins.part_float, number_field_ok, field_text.
  destruct (parts !! i) as [part|]; cbn [default from_option id]; [|reflexivity].
  destruct (Py.truthy (Py.strip part)); cbn [negb orb]; [|reflexivity].
  by destruct (float part).
Qed.

Lemma part_or_auto_readable {A : Type} (read : string -> option A) parts i :
  (String.eqb (Imgins.part_or_auto parts i) "auto"
   || readable (read (Imgins.part_or_auto parts i)))
  = (negb (Py.truthy (Py.strip (field_text parts i)))
     || String.eqb (Py.strip (field_text parts i)) "auto"
     || readable (read (Py.strip (field_text parts i)))).
Proof.
  unfold Imgins.part_or_auto, field_text.
  destruct (parts !! i) as [part|]; cbn [default from_option id]; [|reflexivity].
  destruct (Py.truthy (Py.strip part)); cbn [negb orb]; done.
Qed.

Lemma parse_txt_parts_missing float part rest :
  Py.truthy (Py.strip part) = false ->
  match Imgins.parse_txt_parts float (part :: rest) with
  | Some pl =>
      other_fields_parse float (part :: rest) = true
      /\ Imgins.image_number pl = None
  | None => other_fields_parse float (part :: rest) = false
  end.
Proof.
  intros Hpart. unfold Imgins.parse_txt_parts, other_fields_parse,
    slide_field_ok, position_field_ok.
  cbn [forallb]. rewrite <- !part_float_readable.
  rewrite <- (part_or_auto_readable Py.int),
    <- (part_or_auto_readable Position_of_value).
  cbn [lookup list_lookup]. rewrite Hpart.
  destruct (String.eqb (Imgins.part_or_auto (part :: rest) 1) "auto");
    [|destruct (Py.int (Imgins.part_or_auto (part :: rest) 1))];
    cbn [readable fmap option_fmap option_map mbind option_bind orb andb];
    [| |done].
  all: destruct (String.eqb (Imgins.part_or_auto (part :: rest) 2) "auto");
    [|destruct (Position_of_value (Imgins.part_or_auto (part :: rest) 2))];
    cbn [readable fmap option_fmap option_map mbind option_bind orb andb];
    [| |done].
  all: destruct (Imgins.part_float float (part :: rest) 3);
    cbn [readable mbind option_bind andb]; [|done].
  all: destruct (Imgins.part_float float (part :: rest) 4);
    cbn [readable mbind option_bind andb]; [|done].
  all: destruct (Imgins.part_float float (part :: rest) 5);
    cbn [readable mbind option_bind andb]; [|done].
  all: destruct (Imgins.part_float float (part :: rest) 6);
    cbn [readable mbind option_bind andb]; [|done].
  all: done.
Qed.

Lemma parse_txt_line_missing float line :
  missing_image_number line = true ->
  if other_fields_parse float (txt_parts line)
  then exists pl,
         Imgins.parse_txt_line float line = Imgins.Parsed pl
         /\ Imgins.image_number pl = None
  else Imgins.parse_txt_line float line = Imgins.SkippedError.
Proof.
  unfold missing_image_number. intros [Hline Hpart]%andb_true_iff.
  apply negb_true_iff in Hline. rewrite parse_txt_line_parts by done.
  destruct (txt_parts line) as [|part rest]; [done|].
  apply negb_true_iff in Hpart.
  cbn [length Nat.ltb Nat.leb].
  assert (H := parse_txt_parts_missing float part rest Hpart).
  destruct (Imgins.parse_txt_parts float (part :: rest)) as [pl|].
  - destruct H as [-> H]. exists pl. done.
  - by rewrite H.
Qed.

(** C7 (as amended).  A record whose image-number field is not blank
    and not an integer is skipped with a warning for its line: it yields
    no placement, and the lines before and after it yield theirs, in
    order.  Blank lines and lines starting with [#] yield nothing.  A
    record whose image-number field is blank is not skipped for that:
    when its other fields can be read it yields a request without an
    image number, which the placement loop then rejects as an invalid
    image number, leaving the resolver state as it was; it is skipped
    only when another field cannot be read. *)
Theorem C7_unparsable_record_skipped float (before after : list string) line :
  unparsable_image_number line = true ->
  Imgins.parse_txt_line float line = Imgins.SkippedError
  /\ Imgins._parse_txt_mapping float (before ++ line :: after)
     = Imgins._parse_txt_mapping float before
       ++ Imgins._parse_txt_mapping float after
  /\ In (S (length before))
        (snd (Imgins.parse_txt_lines float 1 (before ++ line :: after)))
  /\ (forall l, blank_or_comment l = true ->
        Imgins.parse_txt_line float l = Imgins.Ignored
        /\ Imgins._parse_txt_mapping float (before ++ l :: after)
           = Imgins._parse_txt_mapping float before
             ++ Imgins._parse_txt_mapping float after)
  /\ (forall l, missing_image_number l = true ->
        if other_fields_parse float (txt_parts l)
        then exists pl,
               Imgins.parse_txt_line float l = Imgins.Parsed pl
               /\ Imgins.image_number pl = None
               /\ forall image_files insert st,
                    Imgins.process_placement image_files insert st pl
                    = (st, Imgins.InvalidImageNumber)
        else Imgins.parse_txt_line float l = Imgins.SkippedError).
Proof.
  intros Hbad. assert (Hskip := parse_txt_line_unparsable float line Hbad).
  split_and!.
  - done.
  - apply parse_txt_mapping_drop. intros pl. by rewrite Hskip.
  - rewrite parse_txt_lines_app. cbn [snd Imgins.parse_txt_lines].
    rewrite Hskip.
    destruct (Imgins.parse_txt_lines float (S (1 + length before)) after).
    apply in_app_iff. right. left. done.
  - intros l Hl. assert (Hign := parse_txt_line_ignored float l Hl).
    split; [done|]. apply parse_txt_mapping_drop. intros pl. by rewrite Hign.
  - intros l Hl. assert (H := parse_txt_line_missing float l Hl).
    destruct (other_fields_parse float (txt_parts l)); [|done].
    destruct H as (pl & Hparsed & Himg). exists pl.
    split_and!; [done | done |]. intros image_files insert st.
    unfold Imgins.process_placement, Imgins.invalid_image_number.
    by rewrite Himg.
Qed.

(** Scenario D: the line [abc:1:bottom-left] is skipped, with a warning
    for line 4, and the lines around it yield their three placements. *)
Lemma C7_scenario_D :
  unparsable_image_number Scenario.malformed_line = true
  /\ Imgins.parse_txt_line Scenario.float_of_integer_literal
       Scenario.malformed_line = Imgins.SkippedError
  /\ Imgins._parse_txt_mapping Scenario.float_of_integer_literal
       (Scenario.lines_before ++ Scenario.malformed_line :: Scenario.lines_after)
     = [Scenario.auto_auto 1; Scenario.request 2 1 TOP_RIGHT;
        Scenario.request 3 2 BOTTOM_RIGHT]
  /\ In 4%nat
        (snd (Imgins.parse_txt_lines Scenario.float_of_integer_literal 1
                (Scenario.lines_before
                   ++ Scenario.malformed_line :: Scenario.lines_after))).
Proof.
  assert (unparsable_image_number Scenario.malformed_line = true) as Hbad
    by (vm_compute; reflexivity).
  destruct (C7_unparsable_record_skipped Scenario.float_of_integer_literal
              Scenario.lines_before Scenario.lines_after
              Scenario.malformed_line Hbad) as (Hskip & Hrest & Hwarn & _).
  split; [exact Hbad|]. split; [exact Hskip|]. split.
  - rewrite Hrest. vm_compute. reflexivity.
  - exact Hwarn.
Defined.

(** C7, the claim as stated fails for a missing image number: the line
    [:1:bottom-left] yields a placement request, one without an image
    number, and no warning. *)
Lemma C7_missing_image_number_yields_request :
  missing_image_number Scenario.line_without_image_number = true
  /\ Imgins.parse_txt_lines Scenario.float_of_integer_literal 1
       [Scenario.line_without_image_number]
     = ([Imgins.mkPlacement None (Imgins.Slide 1) (Some BOTTOM_LEFT)
           None None None None], []).
Proof. split; vm_compute; reflexivity. Qed.

(** ** Strings: stripping and splitting text joined by a separator *)

Lemma lstrip_length (s : string) : (String.length (Py.lstrip s) <= String.length s)%nat.
Proof.
  induction s as [|c s IH]; cbn [Py.lstrip String.length]; [done|].
  destruct (Py.isspace c); cbn [String.length]; lia.
Qed.

Lemma rstrip_length (s : string) : (String.length (Py.rstrip s) <= String.length s)%nat.
Proof.
  induction s as [|c s IH]; cbn [Py.rstrip]; [done|].
  destruct (Py.rstrip s); [destruct (Py.isspace c)|];
    cbn [String.length] in *; lia.
Qed.

Lemma strip_fixed_lstrip (t : string) : Py.strip t = t -> Py.lstrip t = t.
Proof.
  intros H. assert (Hr := rstrip_length (Py.lstrip t)).
  unfold Py.strip in H. rewrite H in Hr.
  destruct t as [|c t]; [done|]. cbn [Py.lstrip String.length] in *.
  destruct (Py.isspace c); [|done].
  assert (Hl := lstrip_length t). lia.
Qed.

Lemma strip_fixed_rstrip (t : string) : Py.strip t = t -> Py.rstrip t = t.
Proof.
  intros H. assert (Hl := strip_fixed_lstrip t H).
  unfold Py.strip in H. by rewrite Hl in H.
Qed.

Lemma append_cons c (a b : string) :
  (String c a ++ b)%string = String c (a ++ b)%string.
Proof. reflexivity. Qed.

Lemma append_empty (b : string) : (EmptyString ++ b)%string = b.
Proof. reflexivity. Qed.

Lemma lstrip_app (a b : string) :
  Py.lstrip a = a -> a <> EmptyString -> Py.lstrip (a ++ b) = (a ++ b)%string.
Proof.
  destruct a as [|c a]; [intros; congruence|].
  rewrite append_cons. cbn [Py.lstrip]. intros H _.
  destruct (Py.isspace c); [|done].
  assert (Hl := lstrip_length a). rewrite H in Hl. cbn in Hl. lia.
Qed.

Lemma rstrip_app (a b : string) :
  Py.rstrip b = b -> b <> EmptyString -> Py.rstrip (a ++ b) = (a ++ b)%string.
Proof.
  intros Hb Hne. induction a as [|c a IH].
  - by rewrite append_empty.
  - rewrite append_cons. cbn [Py.rstrip]. rewrite IH.
    destruct (a ++ b)%string eqn:E; [|done].
    destruct a; [rewrite append_empty in E; congruence|].
    rewrite append_cons in E. discriminate.
Qed.

Lemma contains_app c (a b : string) :
  Py.contains c (a ++ b) = Py.contains c a || Py.contains c b.
Proof.
  induction a as [|c' a IH].
  - by rewrite append_empty.
  - rewrite append_cons. cbn [Py.contains]. rewrite IH. by rewrite orb_assoc.
Qed.

Lemma split_no_sep sep (a : string) :
  Py.contains sep a = false -> Py.split sep a = [a].
Proof.
  induction a as [|c a IH]; cbn [Py.contains Py.split]; [done|].
  intros [Hc Ha]%orb_false_iff. by rewrite Hc, IH.
Qed.

Lemma split_app_sep sep (a b : string) :
  Py.contains sep a = false ->
  Py.split sep (a ++ String sep b) = a :: Py.split sep b.
Proof.
  induction a as [|c a IH].
  - intros _. rewrite append_empty. cbn [Py.split]. by rewrite Ascii.eqb_refl.
  - rewrite append_cons. cbn [Py.split Py.contains].
    intros [Hc Ha]%orb_false_iff. by rewrite Hc, IH.
Qed.

Lemma int_rstrip_cons c (t : string) :
  Py.int_space c = false ->
  Py.int_rstrip (String c t) = String c (Py.int_rstrip t).
Proof.
  intros Hc. cbn [Py.int_rstrip]. rewrite Hc. by destruct (Py.int_rstrip t).
Qed.

(** A text that [int] accepts is not empty and does not start a
    comment. *)
Lemma int_not_comment (t : string) z :
  Py.strip t = t -> Py.int t = Some z ->
  Py.truthy t = true /\ Py.startswith "#" t = false.
Proof.
  intros _ H. destruct t as [|c t]; [done|].
  split; [done|]. cbn [Py.startswith].
  destruct (Ascii.eqb_spec c "#") as [->|]; [|done].
  exfalso. revert H. unfold Py.int.
  change (Py.int_lstrip (String "#" t)) with (String "#" t).
  rewrite int_rstrip_cons by reflexivity. intros H. vm_compute in H. done.
Qed.

Lemma rstrip_cons c (b : string) :
  Py.isspace c = false -> Py.rstrip b = b -> Py.rstrip (String c b) = String c b.
Proof.
  intros Hc Hb. cbn [Py.rstrip]. rewrite Hb, Hc. by destruct b.
Qed.

Lemma plain_strip (t : string) : plain t -> Py.strip t = t.
Proof. by intros [_ ?]. Qed.

Lemma plain_colon (t : string) : plain t -> Py.contains ":" t = false.
Proof. by intros [? _]. Qed.

(** A record written field by field is read back field by field. *)
Lemma txt_line_parts (r : RecordText) z :
  Forall plain (fields r) ->
  Py.int (image_text r) = Some z ->
  blank_or_comment (txt_line r) = false /\ txt_parts (txt_line r) = fields r.
Proof.
  unfold fields. intros Hplain Hint.
  rewrite !Forall_cons in Hplain.
  destruct Hplain as (Pi & Ps & Pp & Pl & Pt & Pw & Ph & _).
  destruct (int_not_comment _ _ (plain_strip _ Pi) Hint) as [Htruthy Hhash].
  assert (Py.strip (txt_line r) = txt_line r) as Hstrip.
  { unfold Py.strip, txt_line.
    rewrite lstrip_app;
      [| by apply strip_fixed_lstrip, plain_strip
       | by destruct (image_text r)].
    repeat (apply rstrip_app;
            [apply rstrip_cons; [reflexivity|] | discriminate]).
    by apply strip_fixed_rstrip, plain_strip. }
  assert (Py.contains ":" (txt_line r) = true) as Hcolon.
  { unfold txt_line. rewrite contains_app. cbn [String.append Py.contains].
    apply orb_true_r. }
  split.
  - unfold blank_or_comment. rewrite Hstrip. unfold txt_line.
    destruct (image_text r) as [|c t]; [done|].
    rewrite append_cons. cbn [Py.truthy Py.startswith negb orb] in *. done.
  - unfold txt_parts. rewrite Hstrip, Hcolon. unfold txt_line.
    rewrite !append_cons, !append_empty.
    rewrite !split_app_sep by (by apply plain_colon).
    rewrite split_no_sep by (by apply plain_colon). done.
Qed.

Lemma part_or_auto_plain (parts : list string) i t :
  parts !! i = Some t -> plain t ->
  Imgins.part_or_auto parts i = if Py.truthy t then t else "auto"%string.
Proof.
  intros Hi Ht. unfold Imgins.part_or_auto. by rewrite Hi, (plain_strip t Ht).
Qed.

Lemma part_float_plain float (parts : list string) i t :
  parts !! i = Some t -> plain t ->
  Imgins.part_float float parts i = text_number float t.
Proof.
  intros Hi Ht. unfold Imgins.part_float, text_number.
  by rewrite Hi, (plain_strip t Ht).
Qed.

Lemma csv_float_plain float (row : gmap string (option string)) key t :
  row !! key = Some (Some t) -> plain t ->
  Imgins.csv_float float row key = text_number float t.
Proof.
  intros Hk Ht. unfold Imgins.csv_float, Imgins.row_get, text_number.
  rewrite Hk, (plain_strip t Ht). by destruct (Py.truthy t).
Qed.

Lemma json_number_real float (item : gmap string Imgins.JValue) key t q :
  item !! key = Some (json_real float t) ->
  text_number float t = Some q ->
  Imgins.json_number item key = Imgins.Returned q.
Proof.
  intros Hk Ht. unfold Imgins.json_number, json_real in *. rewrite Hk, Ht.
  by destruct q.
Qed.

Lemma text_position_value (t : string) p :
  text_position t = Some p ->
  Py.truthy t = true
  /\ (if String.eqb t "auto" then Some None else Some <$> Position_of_value t)
     = Some p.
Proof.
  unfold text_position. intros H. split; [|done]. by destruct t.
Qed.

(** One record, spelled out field by field, reads the same in the
    three forms. *)
Lemma forms_agree_on_record float (r : RecordText) pl :
  Forall plain (fields r) ->
  placement_of float r = Some pl ->
  Imgins.parse_txt_line float (txt_line r) = Imgins.Parsed pl
  /\ Imgins.parse_csv_row float (csv_row r) = Some pl
  /\ Imgins.parse_json_item (json_item float r) = Imgins.Returned pl.
Proof.
  intros Hplain Hpl. unfold placement_of in Hpl.
  destruct (Py.int (image_text r)) as [i|] eqn:Ei; [|done].
  destruct (text_slide (slide_text r)) as [sl|] eqn:Es; [|done].
  destruct (text_position (position_text r)) as [p|] eqn:Ep; [|done].
  destruct (text_number float (left_text r)) as [l|] eqn:El; [|done].
  destruct (text_number float (top_text r)) as [t|] eqn:Et; [|done].
  destruct (text_number float (width_text r)) as [w|] eqn:Ew; [|done].
  destruct (text_number float (height_text r)) as [h|] eqn:Eh; [|done].
  cbn [mbind option_bind] in Hpl. injection Hpl as <-.
  destruct (txt_line_parts r i Hplain Ei) as [Hline Hparts].
  unfold fields in Hplain. rewrite !Forall_cons in Hplain.
  destruct Hplain as (Pi & Ps & Pp & Pl & Pt & Pw & Ph & _).
  destruct (int_not_comment _ _ (plain_strip _ Pi) Ei) as [Hitruthy _].
  destruct (text_position_value _ _ Ep) as [Hptruthy Hpos].
  assert ((if String.eqb (if Py.truthy (slide_text r) then slide_text r
                          else "auto"%string) "auto"
           then Some Imgins.Auto
           else Imgins.Slide <$> Py.int
                  (if Py.truthy (slide_text r) then slide_text r else "auto"%string))
          = Some sl) as Hslide.
  { unfold text_slide in Es.
    destruct (Py.truthy (slide_text r)); [|by rewrite orb_true_r in Es].
    by rewrite orb_false_r in Es. }
  split_and!.
  - rewrite parse_txt_line_parts by done. rewrite Hparts. unfold fields.
    cbn [length Nat.ltb Nat.leb]. unfold Imgins.parse_txt_parts.
    rewrite (part_or_auto_plain _ 1 (slide_text r)) by done.
    rewrite (part_or_auto_plain _ 2 (position_text r)) by done.
    rewrite (part_float_plain float _ 3 (left_text r)) by done.
    rewrite (part_float_plain float _ 4 (top_text r)) by done.
    rewrite (part_float_plain float _ 5 (width_text r)) by done.
    rewrite (part_float_plain float _ 6 (height_text r)) by done.
    rewrite Hslide, Hptruthy, Hpos, El, Et, Ew, Eh.
    cbn [lookup list_lookup mbind option_bind].
    rewrite (plain_strip _ Pi), Hitruthy, Ei. done.
  - unfold Imgins.parse_csv_row.
    rewrite (csv_float_plain float _ "left" (left_text r)) by done.
    rewrite (csv_float_plain float _ "top" (top_text r)) by done.
    rewrite (csv_float_plain float _ "width" (width_text r)) by done.
    rewrite (csv_float_plain float _ "height" (height_text r)) by done.
    rewrite El, Et, Ew, Eh.
    replace (Imgins.row_get (csv_row r) "position" (Some "auto"%string))
      with (Some (position_text r)) by done.
    replace (Imgins.row_get (csv_row r) "slide_number" (Some "auto"%string))
      with (Some (slide_text r)) by done.
    replace (Imgins.row_get (csv_row r) "image_number" None)
      with (Some (image_text r)) by done.
    rewrite Hpos, Hitruthy, Ei. cbn [mbind option_bind fmap option_fmap option_map].
    unfold text_slide in Es.
    destruct (String.eqb (slide_text r) "auto"); cbn [orb] in Es.
    + injection Es as <-. done.
    + destruct (Py.truthy (slide_text r)); cbn [negb] in Es.
      * rewrite Es. done.
      * injection Es as <-. done.
  - unfold Imgins.parse_json_item, Imgins.json_position, Imgins.json_image_number,
      Imgins.json_slide_number.
    rewrite (json_number_real float _ "left" (left_text r) l) by done.
    rewrite (json_number_real float _ "top" (top_text r) t) by done.
    rewrite (json_number_real float _ "width" (width_text r) w) by done.
    rewrite (json_number_real float _ "height" (height_text r) h) by done.
    replace (json_item float r !! "position")
      with (Some (Imgins.JStr (position_text r))) by done.
    replace (json_item float r !! "image_number")
      with (Some (json_integer (image_text r))) by done.
    replace (json_item float r !! "slide_number")
      with (Some (if String.eqb (slide_text r) "auto"
                     || negb (Py.truthy (slide_text r))
                  then Imgins.JStr "auto" else json_integer (slide_text r)))
      by done.
    rewrite Hpos. unfold json_integer. rewrite Ei.
    unfold text_slide in Es.
    destruct (String.eqb (slide_text r) "auto" || negb (Py.truthy (slide_text r))).
    + injection Es as <-. done.
    + destruct (Py.int (slide_text r)) as [z|]; [|done].
      injection Es as <-. done.
Qed.

(** The three forms agree on every batch of records that are spelled
    out field by field (the slot as a position value or as [auto]):
    same placements, in the same order. *)
Lemma forms_agree_when_spelled_out float (rs : list RecordText) pls :
  Forall (fun r => Forall plain (fields r)) rs ->
  Forall2 (fun r pl => placement_of float r = Some pl) rs pls ->
  Imgins._parse_txt_mapping float (map txt_line rs) = pls
  /\ Imgins._parse_csv_mapping float (map csv_row rs) = Imgins.Returned pls
  /\ Imgins._parse_json_mapping (map (json_item float) rs) = Imgins.Returned pls.
Proof.
  intros Hplain Hpls. unfold Imgins._parse_txt_mapping. generalize 1%nat.
  induction Hpls as [|r pl rs pls Hr Hrs IH]; intros n.
  - done.
  - apply Forall_cons in Hplain. destruct Hplain as [Hplain Hrest].
    destruct (forms_agree_on_record float r pl Hplain Hr) as (Htxt & Hcsv & Hjson).
    destruct (IH Hrest (S n)) as (IHtxt & IHcsv & IHjson).
    cbn [map Imgins.parse_txt_lines Imgins._parse_csv_mapping
           Imgins._parse_json_mapping].
    rewrite Htxt, Hcsv, Hjson, IHcsv, IHjson.
    destruct (Imgins.parse_txt_lines float (S n) (map txt_line rs)).
    cbn [fst] in *. by subst.
Qed.

(** The records of the sample files read the same in the three forms. *)
Lemma sample_records_agree :
  let pls :=
    [Imgins.mkPlacement (Some 1) Imgins.Auto None None None (Some (3 # 1)) (Some (2 # 1));
     Imgins.mkPlacement (Some 2) Imgins.Auto None None None (Some (3 # 1)) (Some (2 # 1));
     Imgins.mkPlacement (Some 3) (Imgins.Slide 1) (Some BOTTOM_LEFT) None None
       (Some (3 # 1)) (Some (2 # 1));
     Imgins.mkPlacement (Some 4) Imgins.Auto None None None (Some (3 # 1)) (Some (2 # 1));
     Imgins.mkPlacement (Some 5) Imgins.Auto (Some TOP_RIGHT) None None
       (Some (3 # 1)) (Some (2 # 1))] in
  Imgins._parse_txt_mapping Scenario.float_of_integer_literal
    (map txt_line Scenario.sample_records) = pls
  /\ Imgins._parse_csv_mapping Scenario.float_of_integer_literal
       (map csv_row Scenario.sample_records) = Imgins.Returned pls
  /\ Imgins._parse_json_mapping
       (map (json_item Scenario.float_of_integer_literal) Scenario.sample_records)
     = Imgins.Returned pls.
Proof.
  apply forms_agree_when_spelled_out.
  - repeat (constructor; [repeat (constructor; [split; reflexivity|]); constructor|]).
    constructor.
  - repeat (constructor; [reflexivity|]). constructor.
Qed.

(** ** The three forms on a record without a slot *)

(** C8.  One record, image 1 on slide 1, with no slot given: the
    line-oriented form and the sequential-record form both return the
    request with the slot left to the resolver; the delimited form, given
    the empty cell, raises [ValueError], so that the run stops before any
    placement. *)
Theorem C8_blank_slot_cell_raises float :
  Imgins._parse_txt_mapping float Scenario.txt_no_slot
  = [Scenario.placement_no_slot]
  /\ Imgins._parse_json_mapping Scenario.json_no_slot
     = Imgins.Returned [Scenario.placement_no_slot]
  /\ Imgins._parse_csv_mapping float Scenario.csv_no_slot = Imgins.ValueError.
Proof. split_and!; vm_compute; reflexivity. Qed.

(** ** What a run of the placement loop does to the table and the deck *)

Lemma get_next_available_free (tr : OccupancyTable) s q :
  Imgins.get_next_available_position tr s = Some q ->
  Imgins.is_position_occupied tr s q = false.
Proof.
  intros H. assert (Hff := imgins_next_available_first_free tr s).
  rewrite H in Hff. by destruct Hff as (before & after & _ & Hfree & _).
Qed.

Lemma scan_slides_free (tr : OccupancyTable) range k q :
  Imgins.scan_slides tr range = Some (k, q) ->
  Imgins.is_position_occupied tr k q = false.
Proof.
  induction range as [|s range IH]; cbn [Imgins.scan_slides]; [done|].
  destruct (Imgins.get_next_available_position tr s) as [q'|] eqn:E; [|done].
  intros [= <- <-]. by apply get_next_available_free.
Qed.

(** The resolver returns the deck as it is or with one slide appended,
    and never touches the table. *)
Lemma auto_assign_position_deck (st : Imgins.Inserter) pl :
  fst (Imgins.auto_assign_position st pl) = st
  \/ fst (Imgins.auto_assign_position st pl) = Imgins.add_slide st.
Proof.
  unfold Imgins.auto_assign_position.
  destruct (match Imgins.slide_number pl with
            | Imgins.Auto => _ | Imgins.Slide _ => _ end); [by left|].
  destruct (Imgins.scan_slides _ _); [by left | by right].
Qed.

Lemma resolve_deck (st : Imgins.Inserter) pl :
  fst (Imgins.resolve st pl) = st
  \/ fst (Imgins.resolve st pl) = Imgins.add_slide st.
Proof.
  unfold Imgins.resolve.
  destruct (Imgins.slide_number pl) as [|s];
    [apply auto_assign_position_deck|].
  destruct (Imgins.position pl) as [p|]; [|apply auto_assign_position_deck].
  destruct (Imgins.is_position_occupied _ s p); [|by left].
  destruct (Imgins.get_next_available_position _ s);
    [by left | apply auto_assign_position_deck].
Qed.

(** What the resolver assigns is free in the table, provided the table
    knows no slide beyond the deck. *)
Lemma auto_assign_position_free (st st1 : Imgins.Inserter) pl k q :
  within_deck st ->
  Imgins.auto_assign_position st pl = (st1, (k, q)) ->
  Imgins.is_position_occupied (Imgins.position_tracker st) k q = false.
Proof.
  intros Hdeck. unfold Imgins.auto_assign_position.
  set (named := match Imgins.slide_number pl with
                | Imgins.Auto => _ | Imgins.Slide _ => _ end).
  assert (forall k' q', named = Some (k', q') ->
            Imgins.is_position_occupied (Imgins.position_tracker st) k' q' = false)
    as Hnamed.
  { subst named. intros k' q'.
    destruct (Imgins.slide_number pl) as [|s], (Imgins.position pl);
      try done.
    case_bool_decide; [|done].
    destruct (Imgins.get_next_available_position _ s) eqn:E; [|done].
    intros [= <- <-]. by apply get_next_available_free. }
  destruct named as [[k' q']|].
  - intros [= <- <- <-]. by apply Hnamed.
  - destruct (Imgins.scan_slides _ _) as [[k' q']|] eqn:E.
    + intros [= <- <- <-]. by apply scan_slides_free in E.
    + intros [= <- <- <-]. unfold Imgins.is_position_occupied.
      destruct (Imgins.position_tracker st !! _) eqn:El; [|done].
      specialize (Hdeck _ (mk_is_Some _ _ El)).
      unfold Imgins.add_slide in Hdeck; cbn [Imgins.slides] in Hdeck. lia.
Qed.

Lemma resolve_free (st st1 : Imgins.Inserter) pl k q :
  within_deck st ->
  Imgins.resolve st pl = (st1, (k, q)) ->
  Imgins.is_position_occupied (Imgins.position_tracker st) k q = false.
Proof.
  intros Hdeck. unfold Imgins.resolve.
  destruct (Imgins.slide_number pl) as [|s];
    [by apply auto_assign_position_free|].
  destruct (Imgins.position pl) as [p|]; [|by apply auto_assign_position_free].
  destruct (Imgins.is_position_occupied _ s p) eqn:Eocc.
  - destruct (Imgins.get_next_available_position _ s) as [alt|] eqn:E.
    + intros [= <- <- <-]. by apply get_next_available_free.
    + by apply auto_assign_position_free.
  - by intros [= <- <- <-].
Qed.

(** One iteration: the deck keeps its slides or gains one; the table
    gains the pair of a successful insertion, which was free, and is
    otherwise left as it was. *)
Lemma process_placement_effect image_files insert (st : Imgins.Inserter) pl :
  within_deck st ->
  let st' := fst (Imgins.process_placement image_files insert st pl) in
  within_deck st'
  /\ (Imgins.slides st <= Imgins.slides st' <= S (Imgins.slides st))%nat
  /\ match snd (Imgins.process_placement image_files insert st pl) with
     | Imgins.Inserted k q =>
         Imgins.position_tracker st'
         = Imgins.occupy_position (Imgins.position_tracker st) k q
         /\ Imgins.is_position_occupied (Imgins.position_tracker st) k q = false
     | _ => Imgins.position_tracker st' = Imgins.position_tracker st
     end.
Proof.
  intros Hdeck. cbn zeta. unfold Imgins.process_placement.
  destruct (Imgins.invalid_image_number image_files pl);
    [cbn [fst snd]; split_and!; [done | lia | lia | done]|].
  destruct (Imgins.resolve st pl) as [st1 [k q]] eqn:Eres.
  assert (Hfree := resolve_free st st1 pl k q Hdeck Eres).
  assert (Imgins.position_tracker st1 = Imgins.position_tracker st
          /\ (Imgins.slides st <= Imgins.slides st1 <= S (Imgins.slides st))%nat)
    as [Htr Hn].
  { destruct (resolve_deck st pl) as [H|H]; rewrite Eres in H; cbn [fst] in H;
      subst st1; cbn; split; try done; lia. }
  assert (within_deck st1) as Hdeck1.
  { intros s Hs. rewrite Htr in Hs. specialize (Hdeck s Hs). lia. }
  case_bool_decide as Hover; [cbn [fst snd]; split_and!; [done | lia | lia | done]|].
  case_bool_decide as Hunder; [cbn [fst snd]; split_and!; [done | lia | lia | done]|].
  destruct (insert k _ q _ _ _ _);
    cbn [fst snd Imgins.position_tracker Imgins.slides];
    [|split_and!; [done | lia | lia | done]].
  rewrite Htr. split_and!; [| lia | lia | done | done].
  intros s Hs. cbn [Imgins.position_tracker Imgins.slides] in *.
  apply occupy_position_keys in Hs. destruct Hs as [->|Hs]; [lia|].
  rewrite <- Htr in Hs. by apply Hdeck1.
Qed.

Lemma initial_inserter_within_deck prs : within_deck (Imgins.initial_inserter prs).
Proof.
  destruct prs as [deck|]; cbn [Imgins.initial_inserter].
  - destruct (scan_from_invariant ∅ 1 deck []) as (_ & _ & Hk).
    + intros s occ Hs. by rewrite lookup_empty in Hs.
    + intros s occ p Hs. by rewrite lookup_empty in Hs.
    + intros s Hs. cbn [Imgins.position_tracker Imgins.slides] in *.
      destruct (Hk s Hs) as [?|[? Hs']]; [lia|]. by rewrite lookup_empty in Hs'.
  - intros s [occ Hs]. cbn in Hs. by rewrite lookup_empty in Hs.
Qed.

Lemma inserted_pairs_cons o os :
  inserted_pairs (o :: os)
  = match o with
    | Imgins.Inserted s p => (s, p) :: inserted_pairs os
    | _ => inserted_pairs os
    end.
Proof. unfold inserted_pairs; cbn [flat_map]. by destruct o. Qed.

(** A run from any state whose table knows no slide beyond the deck. *)
Lemma process_placements_run image_files insert placements :
  forall st : Imgins.Inserter,
    within_deck st ->
    let run := Imgins.process_placements image_files insert st placements in
    NoDup (inserted_pairs (snd run))
    /\ (forall s p, In (s, p) (inserted_pairs (snd run)) ->
          Imgins.is_position_occupied (Imgins.position_tracker st) s p = false)
    /\ (forall s p,
          Imgins.is_position_occupied (Imgins.position_tracker (fst run)) s p = true
          <-> Imgins.is_position_occupied (Imgins.position_tracker st) s p = true
              \/ In (s, p) (inserted_pairs (snd run)))
    /\ (Imgins.slides st <= Imgins.slides (fst run)
        <= Imgins.slides st + length placements)%nat.
Proof.
  induction placements as [|pl rest IH]; intros st Hdeck; cbn zeta;
    cbn [Imgins.process_placements].
  - cbn. split_and!; [constructor | done | tauto | lia | lia].
  - destruct (process_placement_effect image_files insert st pl Hdeck)
      as (Hdeck1 & Hn1 & Heff).
    destruct (Imgins.process_placement image_files insert st pl) as [st1 o].
    cbn [fst snd] in *.
    destruct (IH st1 Hdeck1) as (Hnd & Hfree & Hocc & Hn). cbn zeta in *.
    destruct (Imgins.process_placements image_files insert st1 rest) as [st2 os].
    cbn [fst snd length] in *.
    destruct o as [| k | k | k q | k q]; cbn [fst snd];
      rewrite ?inserted_pairs_cons; try rewrite Heff in *.
    + split_and!; [done | done | done | lia | lia].
    + split_and!; [done | done | done | lia | lia].
    + cbn. split_and!; [constructor | done | tauto | lia | lia].
    + destruct Heff as [Htr Hkq]. rewrite Htr in *.
      split_and!; [| | | lia | lia].
      * constructor; [|done]. intros Hin%list_elem_of_In. apply Hfree in Hin.
        rewrite is_position_occupied_occupy in Hin.
        rewrite bool_decide_eq_true_2 in Hin by done. done.
      * intros s p [[= <- <-]|Hin]; [done|]. apply Hfree in Hin.
        rewrite is_position_occupied_occupy in Hin.
        by apply orb_false_iff in Hin as [_ ?].
      * intros s p. rewrite Hocc, is_position_occupied_occupy.
        rewrite orb_true_iff, bool_decide_eq_true. cbn [In].
        split; [intros [[[-> ->]|?]|?]; auto | intros [?|[[= -> ->]|?]]; auto].
    + split_and!; [done | done | done | lia | lia].
Qed.

(** ** Where an inserted image is drawn *)

Lemma auto_assign_position_from_1 (st st1 : Imgins.Inserter) pl k q :
  names_slide_from_1 pl ->
  Imgins.auto_assign_position st pl = (st1, (k, q)) -> 1 <= k.
Proof.
  unfold names_slide_from_1, Imgins.auto_assign_position. intros Hpl.
  destruct (match Imgins.slide_number pl with
            | Imgins.Auto => _ | Imgins.Slide _ => _ end)
    as [[k' q']|] eqn:Enamed.
  - intros [= <- <- <-].
    destruct (Imgins.slide_number pl) as [|s]; [done|].
    destruct (Imgins.position pl); [done|].
    case_bool_decide; [|done].
    destruct (Imgins.get_next_available_position _ s); [|done].
    by injection Enamed as <- <-.
  - assert (H := scan_slides_seq (Imgins.position_tracker st)
                   (Imgins.slides st) 1).
    fold (Imgins.range1 (Imgins.slides st)) in H.
    destruct (Imgins.scan_slides _ _) as [[k' q']|].
    + intros [= <- <- <-]. lia.
    + intros [= <- <- <-]. cbn. lia.
Qed.

Lemma resolve_from_1 (st st1 : Imgins.Inserter) pl k q :
  names_slide_from_1 pl ->
  Imgins.resolve st pl = (st1, (k, q)) -> 1 <= k.
Proof.
  intros Hpl. unfold Imgins.resolve.
  assert (Hauto := auto_assign_position_from_1 st st1 pl k q Hpl).
  unfold names_slide_from_1 in Hpl.
  destruct (Imgins.slide_number pl) as [|s]; [done|].
  destruct (Imgins.position pl) as [p|]; [|done].
  destruct (Imgins.is_position_occupied _ s p).
  - destruct (Imgins.get_next_available_position _ s); [|done].
    by intros [= <- <- <-].
  - by intros [= <- <- <-].
Qed.

Lemma process_placement_from_1 image_files insert (st : Imgins.Inserter) pl k q :
  names_slide_from_1 pl ->
  snd (Imgins.process_placement image_files insert st pl) = Imgins.Inserted k q ->
  1 <= k
  <= Z.of_nat (Imgins.slides (fst (Imgins.process_placement image_files insert st pl))).
Proof.
  intros Hpl. unfold Imgins.process_placement.
  destruct (Imgins.invalid_image_number image_files pl); [done|].
  destruct (Imgins.resolve st pl) as [st1 [k' q']] eqn:Eres.
  apply resolve_from_1 in Eres; [|done].
  case_bool_decide as Hover; [done|].
  case_bool_decide as Hunder; [done|].
  destruct (insert k' _ q' _ _ _ _); [|done].
  cbn [fst snd Imgins.slides]. intros [= <- <-]. lia.
Qed.

(** When no request names a slide below 1, every insertion is reported
    with a slide number from 1 to the number of slides. *)
Lemma process_placements_from_1 image_files insert placements :
  forall st : Imgins.Inserter,
    within_deck st ->
    Forall names_slide_from_1 placements ->
    forall s p,
      In (s, p)
         (inserted_pairs
            (snd (Imgins.process_placements image_files insert st placements))) ->
      1 <= s
      <= Z.of_nat
           (Imgins.slides
              (fst (Imgins.process_placements image_files insert st placements))).
Proof.
  induction placements as [|pl rest IH]; intros st Hdeck Hall s p;
    cbn [Imgins.process_placements]; [done|].
  apply Forall_cons in Hall as [Hpl Hrest].
  destruct (process_placement_effect image_files insert st pl Hdeck)
    as (Hdeck1 & _ & _).
  assert (Hk := process_placement_from_1 image_files insert st pl).
  destruct (Imgins.process_placement image_files insert st pl) as [st1 o].
  cbn [fst snd] in *.
  specialize (IH st1 Hdeck1 Hrest s p).
  destruct (process_placements_run image_files insert rest st1 Hdeck1)
    as (_ & _ & _ & Hgrow). cbn zeta in Hgrow.
  destruct (Imgins.process_placements image_files insert st1 rest) as [st2 os].
  cbn [fst snd] in *.
  destruct o as [| k | k | k q | k q]; cbn [fst snd];
    rewrite ?inserted_pairs_cons; try done.
  intros [[= <- <-]|Hin]; [|by apply IH].
  specialize (Hk k q Hpl eq_refl). lia.
Qed.

(** X1.  When no request names a slide numbered below 1, every image
    inserted in a run of [process_mappings] is reported with the slide
    it was drawn on, a slide of the deck ([prs.slides[s - 1]] with
    [1 <= s <= len(prs.slides)]); no two insertions go to the same
    (slide, position) pair, and none goes to a pair that the scan of the
    existing deck had marked. *)
Theorem X1_run_is_collision_free image_files insert prs placements :
  Forall names_slide_from_1 placements ->
  let run := Imgins.process_mappings image_files insert prs placements in
  (forall s p, In (s, p) (inserted_pairs (snd run)) ->
     1 <= s <= Z.of_nat (Imgins.slides (fst run))
     /\ slide_drawn_on (Imgins.slides (fst run)) s = s)
  /\ NoDup (inserted_pairs (snd run))
  /\ forall s p,
       In (s, p) (inserted_pairs (snd run)) ->
       Imgins.is_position_occupied
         (Imgins.position_tracker (Imgins.initial_inserter prs)) s p = false.
Proof.
  intros Hall. cbn zeta. unfold Imgins.process_mappings.
  destruct (process_placements_run image_files insert placements
              (Imgins.initial_inserter prs) (initial_inserter_within_deck prs))
    as (Hnd & Hfree & _).
  split_and!; [|done|done].
  intros s p Hin.
  assert (H := process_placements_from_1 image_files insert placements
                 (Imgins.initial_inserter prs)
                 (initial_inserter_within_deck prs) Hall s p Hin).
  split; [done|]. unfold slide_drawn_on.
  destruct (Z.leb_spec 1 s); [done | lia].
Qed.

(** Two requests for the same slot of a new deck: the second is moved
    to the next slot of the slide. *)
Lemma X1_two_requests_for_one_slot :
  snd (Imgins.process_mappings 2 Scenario.insert_ok None
         [Scenario.request 1 1 TOP_RIGHT; Scenario.request 2 1 TOP_RIGHT])
  = [Imgins.Inserted 1 TOP_RIGHT; Imgins.Inserted 1 BOTTOM_LEFT]
  /\ NoDup
       (inserted_pairs
          (snd (Imgins.process_mappings 2 Scenario.insert_ok None
                  [Scenario.request 1 1 TOP_RIGHT;
                   Scenario.request 2 1 TOP_RIGHT]))).
Proof.
  split; [vm_compute; reflexivity|].
  refine (proj1 (proj2 (X1_run_is_collision_free 2 Scenario.insert_ok None
                          [Scenario.request 1 1 TOP_RIGHT;
                           Scenario.request 2 1 TOP_RIGHT] _))).
  repeat constructor; cbn; lia.
Defined.

Lemma initial_inserter_marks prs s p :
  Imgins.is_position_occupied
    (Imgins.position_tracker (Imgins.initial_inserter prs)) s p = true ->
  1 <= s <= Z.of_nat (Imgins.slides (Imgins.initial_inserter prs)).
Proof.
  unfold Imgins.is_position_occupied.
  destruct (Imgins.position_tracker (Imgins.initial_inserter prs) !! s)
    as [occ|] eqn:Es; [intros _|done].
  destruct prs as [deck|]; cbn [Imgins.initial_inserter Imgins.position_tracker
                                  Imgins.slides] in *.
  - destruct (scan_from_invariant ∅ 1 deck []) as (_ & _ & Hk).
    + intros s' occ' Hs'. by rewrite lookup_empty in Hs'.
    + intros s' occ' p' Hs'. by rewrite lookup_empty in Hs'.
    + unfold Imgins.scan_existing_images in Es.
      destruct (Hk s (mk_is_Some _ _ Es)) as [?|[? Hs']]; [lia|].
      by rewrite lookup_empty in Hs'.
  - by rewrite lookup_empty in Es.
Qed.

(** X2.  When no request names a slide numbered below 1, a pair is
    marked in the table after a run exactly when the scan had marked it
    or the run inserted an image there; every marked slide is a slide of
    the deck, and an inserted image was drawn on the slide that is
    marked.  Skipped and failed requests leave no mark. *)
Theorem X2_table_after_run image_files insert prs placements :
  Forall names_slide_from_1 placements ->
  let run := Imgins.process_mappings image_files insert prs placements in
  forall s p,
    (Imgins.is_position_occupied (Imgins.position_tracker (fst run)) s p = true
     <-> Imgins.is_position_occupied
           (Imgins.position_tracker (Imgins.initial_inserter prs)) s p = true
         \/ In (s, p) (inserted_pairs (snd run)))
    /\ (Imgins.is_position_occupied (Imgins.position_tracker (fst run)) s p = true ->
        1 <= s <= Z.of_nat (Imgins.slides (fst run))
        /\ slide_drawn_on (Imgins.slides (fst run)) s = s).
Proof.
  intros Hall. cbn zeta. unfold Imgins.process_mappings. intros s p.
  destruct (process_placements_run image_files insert placements
              (Imgins.initial_inserter prs) (initial_inserter_within_deck prs))
    as (_ & _ & Hocc & Hgrow). cbn zeta in *.
  split; [apply Hocc|]. rewrite Hocc.
  assert (1 <= s
          <= Z.of_nat
               (Imgins.slides
                  (fst (Imgins.process_placements image_files insert
                          (Imgins.initial_inserter prs) placements))) ->
          1 <= s
          <= Z.of_nat
               (Imgins.slides
                  (fst (Imgins.process_placements image_files insert
                          (Imgins.initial_inserter prs) placements)))
          /\ slide_drawn_on
               (Imgins.slides
                  (fst (Imgins.process_placements image_files insert
                          (Imgins.initial_inserter prs) placements))) s = s)
    as Hdrawn.
  { intros Hs. split; [done|]. unfold slide_drawn_on.
    destruct (Z.leb_spec 1 s); [done | lia]. }
  intros [Hscan|Hin]; apply Hdrawn.
  - apply initial_inserter_marks in Hscan. lia.
  - by apply (process_placements_from_1 image_files insert placements
                (Imgins.initial_inserter prs)
                (initial_inserter_within_deck prs) Hall s p).
Qed.

(** A deck with a picture at bottom-left of its only slide, and two
    requests, the second with an image number that does not exist: the
    first is inserted and marks top-right of slide 1, the second leaves
    no mark. *)
Lemma X2_one_insertion_one_rejection :
  snd (Imgins.process_mappings 1 Scenario.insert_ok
         (Some Scenario.deck_bottom_left)
         [Scenario.request 1 1 TOP_RIGHT; Scenario.request 2 1 BOTTOM_RIGHT])
  = [Imgins.Inserted 1 TOP_RIGHT; Imgins.InvalidImageNumber]
  /\ (Imgins.is_position_occupied
        (Imgins.position_tracker
           (fst (Imgins.process_mappings 1 Scenario.insert_ok
                   (Some Scenario.deck_bottom_left)
                   [Scenario.request 1 1 TOP_RIGHT;
                    Scenario.request 2 1 BOTTOM_RIGHT]))) 1 BOTTOM_RIGHT = true
      <-> Imgins.is_position_occupied
            (Imgins.position_tracker
               (Imgins.initial_inserter (Some Scenario.deck_bottom_left)))
            1 BOTTOM_RIGHT = true
          \/ In (1, BOTTOM_RIGHT)
                (inserted_pairs
                   (snd (Imgins.process_mappings 1 Scenario.insert_ok
                           (Some Scenario.deck_bottom_left)
                           [Scenario.request 1 1 TOP_RIGHT;
                            Scenario.request 2 1 BOTTOM_RIGHT])))).
Proof.
  split; [vm_compute; reflexivity|].
  refine (proj1 (X2_table_after_run 1 Scenario.insert_ok
                   (Some Scenario.deck_bottom_left)
                   [Scenario.request 1 1 TOP_RIGHT;
                    Scenario.request 2 1 BOTTOM_RIGHT] _ 1 BOTTOM_RIGHT)).
  repeat constructor; cbn; lia.
Defined.

(** X3.  A run never removes a slide and appends at most one slide per
    request. *)
Theorem X3_deck_growth image_files insert prs placements :
  (Imgins.slides (Imgins.initial_inserter prs)
   <= Imgins.slides
        (fst (Imgins.process_mappings image_files insert prs placements))
   <= Imgins.slides (Imgins.initial_inserter prs) + length placements)%nat.
Proof.
  unfold Imgins.process_mappings.
  destruct (process_placements_run image_files insert placements
              (Imgins.initial_inserter prs) (initial_inserter_within_deck prs))
    as (_ & _ & _ & Hn). apply Hn.
Qed.

(** ** A request for slide 0 *)

(** X24.  A request that names slide 0 and a position is not rejected:
    [assigned_slide > len(prs.slides)] is false, and
    [prs.slides[0 - 1]] is the last slide of the deck.  The image is
    drawn there, while the table marks the position under slide 0; the
    same position of the last slide stays free in the table, and a
    second request, for that position of the last slide, draws a second
    image in the same place. *)
Theorem X24_slide_zero_is_drawn_on_the_last_slide image_files insert prs
    i j p l t w h l' t' w' h' :
  let n := Imgins.slides (Imgins.initial_inserter prs) in
  (1 <= n)%nat ->
  1 <= i <= Z.of_nat image_files ->
  1 <= j <= Z.of_nat image_files ->
  (forall k a q b c d e, insert k a q b c d e = true) ->
  Imgins.is_position_occupied
    (Imgins.position_tracker (Imgins.initial_inserter prs)) (Z.of_nat n) p
  = false ->
  snd (Imgins.process_mappings image_files insert prs
         [Imgins.mkPlacement (Some i) (Imgins.Slide 0) (Some p) l t w h;
          Imgins.mkPlacement (Some j) (Imgins.Slide (Z.of_nat n)) (Some p)
            l' t' w' h'])
  = [Imgins.Inserted 0 p; Imgins.Inserted (Z.of_nat n) p]
  /\ slide_drawn_on n 0 = Z.of_nat n
  /\ slide_drawn_on n (Z.of_nat n) = Z.of_nat n.
Proof.
  cbn zeta. intros Hn Hi Hj Hins Hfree.
  assert (Imgins.is_position_occupied
            (Imgins.position_tracker (Imgins.initial_inserter prs)) 0 p = false)
    as Hzero.
  { destruct (Imgins.is_position_occupied _ 0 p) eqn:E; [|done].
    apply initial_inserter_marks in E. lia. }
  split; [|unfold slide_drawn_on; split].
  2: { change (1 <=? 0) with false. cbn iota. lia. }
  2: { destruct (Z.leb_spec 1 (Z.of_nat (Imgins.slides (Imgins.initial_inserter prs))));
         [done | lia]. }
  unfold Imgins.process_mappings.
  destruct (Imgins.initial_inserter prs) as [tr n] eqn:Est.
  cbn [Imgins.slides Imgins.position_tracker] in *.
  cbn [Imgins.process_placements].
  unfold Imgins.process_placement at 1, Imgins.invalid_image_number,
    Imgins.resolve.
  cbn [Imgins.image_number Imgins.slide_number Imgins.position
       Imgins.position_tracker Imgins.slides Imgins.left Imgins.top
       Imgins.width Imgins.height default].
  rewrite !bool_decide_eq_false_2 by lia. cbn [orb].
  rewrite Hzero. cbn [Imgins.slides].
  rewrite !bool_decide_eq_false_2 by lia. rewrite Hins.
  unfold Imgins.process_placement at 1, Imgins.invalid_image_number,
    Imgins.resolve.
  cbn [Imgins.image_number Imgins.slide_number Imgins.position
       Imgins.position_tracker Imgins.slides Imgins.left Imgins.top
       Imgins.width Imgins.height default].
  rewrite !bool_decide_eq_false_2 by lia. cbn [orb].
  rewrite is_position_occupied_occupy, Hfree.
  rewrite (bool_decide_eq_false_2 (0 = Z.of_nat n /\ p = p)) by lia.
  cbn [orb Imgins.slides].
  rewrite !bool_decide_eq_false_2 by lia. rewrite Hins. done.
Qed.

(** On a new deck, of one slide: slide 0 and slide 1, both top-right. *)
Lemma X24_two_images_in_one_place :
  snd (Imgins.process_mappings 2 Scenario.insert_ok None
         [Scenario.request 1 0 TOP_RIGHT; Scenario.request 2 1 TOP_RIGHT])
  = [Imgins.Inserted 0 TOP_RIGHT; Imgins.Inserted 1 TOP_RIGHT]
  /\ slide_drawn_on 1 0 = 1
  /\ slide_drawn_on 1 1 = 1.
Proof.
  apply (X24_slide_zero_is_drawn_on_the_last_slide 2 Scenario.insert_ok None
           1 2 TOP_RIGHT None None None None None None None None).
  - cbn. lia.
  - lia.
  - lia.
  - reflexivity.
  - reflexivity.
Defined.

(** ** Edge cases of the resolver *)

(** X4.  When every existing slide is full, a request that leaves the
    slide or the slot to the resolver (and names, if any, a slide numbered
    1 or more) is given bottom-left of a slide appended to the deck, never
    an existing slide; with a valid image number and a collaborator that
    succeeds the image is inserted there. *)
Theorem X4_overflow_appends_a_slide image_files insert
    (st : Imgins.Inserter) i sl p l t w h :
  (forall j, 1 <= j <= Z.of_nat (Imgins.slides st) ->
     Imgins.get_next_available_position (Imgins.position_tracker st) j = None) ->
  sl = Imgins.Auto \/ (exists s, sl = Imgins.Slide s /\ 1 <= s /\ p = None) ->
  let pl := Imgins.mkPlacement i sl p l t w h in
  Imgins.resolve st pl
  = (Imgins.add_slide st, (Z.of_nat (Imgins.slides st) + 1, BOTTOM_LEFT))
  /\ (Imgins.invalid_image_number image_files pl = false ->
      insert (Z.of_nat (Imgins.slides st) + 1) (default 0 i) BOTTOM_LEFT l t w h
      = true ->
      Imgins.process_placement image_files insert st pl
      = (Imgins.mkInserter
           (Imgins.occupy_position (Imgins.position_tracker st)
              (Z.of_nat (Imgins.slides st) + 1) BOTTOM_LEFT)
           (S (Imgins.slides st)),
         Imgins.Inserted (Z.of_nat (Imgins.slides st) + 1) BOTTOM_LEFT)).
Proof.
  intros Hfull Hreq pl.
  assert (Imgins.resolve st pl
          = (Imgins.add_slide st, (Z.of_nat (Imgins.slides st) + 1, BOTTOM_LEFT)))
    as Hres.
  { subst pl. destruct Hreq as [->|(s & -> & Hs & ->)].
    - rewrite resolve_auto_slide.
      apply (resolve_auto_auto_create st 0) in Hfull.
      unfold Imgins.resolve in *.
      cbn [Imgins.slide_number Imgins.position Scenario.auto_auto] in *.
      rewrite auto_assign_unnamed in * by (left; done). done.
    - unfold Imgins.resolve, Imgins.auto_assign_position.
      cbn [Imgins.slide_number Imgins.position].
      rewrite scan_slides_all_full by done.
      assert ((if bool_decide (s <= Z.of_nat (Imgins.slides st))
               then match Imgins.get_next_available_position
                            (Imgins.position_tracker st) s with
                    | Some available_pos => Some (s, available_pos)
                    | None => None
                    end
               else None) = None) as ->.
      { case_bool_decide; [|done]. by rewrite Hfull by lia. }
      unfold Imgins.add_slide; cbn [Imgins.slides hd available_positions].
      do 3 f_equal. lia. }
  split; [done|]. intros Himg Hins.
  rewrite (process_placement_inserted image_files insert st
             (Imgins.add_slide st) pl _ _ Himg Hres); [done | | done].
  unfold Imgins.add_slide; cbn [Imgins.slides]. lia.
Qed.

(** On a one-slide deck whose slide is full, a request for slide 1 with
    the slot left open makes slide 2. *)
Lemma X4_overflow_on_full_deck :
  Imgins.process_placement 1 Scenario.insert_ok Scenario.only_slide_full
    (Scenario.slot_auto 1 1)
  = (Imgins.mkInserter
       (Imgins.occupy_position
          (Imgins.position_tracker Scenario.only_slide_full) 2 BOTTOM_LEFT) 2,
     Imgins.Inserted 2 BOTTOM_LEFT).
Proof.
  refine (proj2 (X4_overflow_appends_a_slide 1 Scenario.insert_ok
                   Scenario.only_slide_full (Some 1) (Imgins.Slide 1) None
                   None None None None _ _) _ _).
  - intros j Hj. assert (j = 1) as -> by (cbn in Hj; lia). reflexivity.
  - right. exists 1. split; [reflexivity|]. split; [lia | reflexivity].
  - reflexivity.
  - reflexivity.
Defined.

(** X5.  A request naming a position on a slide beyond the end of the
    deck is rejected as an invalid slide number: nothing is inserted, no
    slide is appended and the table is left as it was.  The same slide
    named with the slot left open is resolved as if no slide were named. *)
Theorem X5_slide_beyond_deck image_files insert
    (st : Imgins.Inserter) i s p l t w h :
  within_deck st ->
  Z.of_nat (Imgins.slides st) < s ->
  (Imgins.invalid_image_number image_files
     (Imgins.mkPlacement i (Imgins.Slide s) (Some p) l t w h) = false ->
   Imgins.process_placement image_files insert st
     (Imgins.mkPlacement i (Imgins.Slide s) (Some p) l t w h)
   = (st, Imgins.InvalidSlideNumber s))
  /\ Imgins.process_placement image_files insert st
       (Imgins.mkPlacement i (Imgins.Slide s) None l t w h)
     = Imgins.process_placement image_files insert st
         (Imgins.mkPlacement i Imgins.Auto None l t w h).
Proof.
  intros Hdeck Hs. split.
  - intros Himg. unfold Imgins.process_placement. rewrite Himg.
    rewrite resolve_concrete.
    assert (Imgins.is_position_occupied (Imgins.position_tracker st) s p = false)
      as ->.
    { unfold Imgins.is_position_occupied.
      destruct (Imgins.position_tracker st !! s) eqn:E; [|done].
      specialize (Hdeck _ (mk_is_Some _ _ E)). lia. }
    by rewrite bool_decide_eq_true_2 by lia.
  - unfold Imgins.process_placement, Imgins.invalid_image_number.
    cbn [Imgins.image_number Imgins.left Imgins.top Imgins.width Imgins.height].
    replace (Imgins.resolve st (Imgins.mkPlacement i (Imgins.Slide s) None l t w h))
      with (Imgins.resolve st (Imgins.mkPlacement i Imgins.Auto None l t w h));
      [done|].
    unfold Imgins.resolve, Imgins.auto_assign_position.
    cbn [Imgins.slide_number Imgins.position].
    by rewrite bool_decide_eq_false_2 by lia.
Qed.

(** On a new one-slide deck, a request for bottom-left of slide 3 is
    rejected, and a request for slide 3 with the slot left open lands on
    slide 1. *)
Lemma X5_slide_three_of_one :
  Imgins.process_placement 1 Scenario.insert_ok Scenario.one_empty_slide
    (Scenario.request 1 3 BOTTOM_LEFT)
  = (Scenario.one_empty_slide, Imgins.InvalidSlideNumber 3)
  /\ snd (Imgins.process_placement 1 Scenario.insert_ok Scenario.one_empty_slide
            (Scenario.slot_auto 1 3))
     = Imgins.Inserted 1 BOTTOM_LEFT.
Proof.
  assert (within_deck Scenario.one_empty_slide) as Hdeck.
  { intros s [occ Hs]. vm_compute in Hs. discriminate Hs. }
  destruct (X5_slide_beyond_deck 1 Scenario.insert_ok Scenario.one_empty_slide
              (Some 1) 3 BOTTOM_LEFT None None None None Hdeck
              ltac:(reflexivity)) as [Hrej Hopen].
  split; [apply Hrej; reflexivity|].
  unfold Scenario.slot_auto. rewrite Hopen. reflexivity.
Defined.

(** ** The tracker as a data structure *)

(** X6.  Marking a position outside the preference list (top-left,
    center, custom) changes neither the next available slot nor the
    fullness of any slide. *)
Theorem X6_other_marks_do_not_block (tr : OccupancyTable) s p s' :
  ~ In p available_positions ->
  Imgins.get_next_available_position (Imgins.occupy_position tr s p) s'
  = Imgins.get_next_available_position tr s'
  /\ Imgins.is_slide_full (Imgins.occupy_position tr s p) s'
     = Imgins.is_slide_full tr s'.
Proof.
  intros Hp.
  assert (Imgins.get_next_available_position (Imgins.occupy_position tr s p) s'
          = Imgins.get_next_available_position tr s') as Hnext.
  { rewrite !get_next_available_unfold, !is_position_occupied_occupy.
    rewrite !bool_decide_eq_false_2; [done | | |];
      intros [_ ->]; apply Hp; cbn; auto. }
  split; [done|]. unfold Imgins.is_slide_full. by rewrite Hnext.
Qed.

(** A picture in the top-left corner does not keep an auto request from
    getting bottom-left. *)
Lemma X6_top_left_does_not_block :
  ~ In TOP_LEFT available_positions
  /\ Imgins.get_next_available_position
       (Imgins.occupy_position ∅ 1 TOP_LEFT) 1
     = Some BOTTOM_LEFT.
Proof.
  assert (~ In TOP_LEFT available_positions) as Hp.
  { intros [H|[H|[H|[]]]]; discriminate H. }
  split; [exact Hp|].
  rewrite (proj1 (X6_other_marks_do_not_block ∅ 1 TOP_LEFT 1 Hp)).
  reflexivity.
Defined.

(** X7.  Marking is idempotent and the order of two marks does not
    matter: the tables are equal. *)
Theorem X7_occupy_idempotent_commutative (tr : OccupancyTable) s p s' p' :
  Imgins.occupy_position (Imgins.occupy_position tr s p) s p
  = Imgins.occupy_position tr s p
  /\ Imgins.occupy_position (Imgins.occupy_position tr s p) s' p'
     = Imgins.occupy_position (Imgins.occupy_position tr s' p') s p.
Proof.
  split; apply map_eq; intros k; rewrite !occupy_position_lookup;
    unfold Imgins.get_occupied_positions; rewrite ?occupy_position_lookup.
  - destruct (decide (s = k)) as [->|Hne]; [|done].
    rewrite decide_True by done. cbn. f_equal. set_solver.
  - destruct (decide (s' = k)) as [->|Hs'], (decide (s = k)) as [->|Hs];
      rewrite ?decide_True by done; rewrite ?decide_False by done;
      cbn; try done; f_equal; set_solver.
Qed.

(** ** What the scan of an existing deck marks *)

Lemma scan_slide_occupied (shapes : list Imgins.Shape) :
  forall (tr : OccupancyTable) k s p,
    Imgins.is_position_occupied (Imgins.scan_slide tr k shapes) s p = true
    <-> Imgins.is_position_occupied tr s p = true
        \/ (s = k
            /\ exists shape,
                 In shape shapes
                 /\ Imgins.shape_type shape = Imgins.PICTURE
                 /\ Imgins._determine_position_from_coordinates
                      (Imgins.shape_left shape) (Imgins.shape_top shape)
                      (10 # 1) (15 # 2) = p).
Proof.
  unfold Imgins.scan_slide.
  induction shapes as [|shape shapes IH]; intros tr k s p; cbn [fold_left].
  - split; [auto|]. intros [?|(_ & ? & [] & _)]. done.
  - rewrite IH. destruct (Imgins.shape_type shape) eqn:Etype.
    + rewrite is_position_occupied_occupy, orb_true_iff, bool_decide_eq_true.
      split.
      * intros [[[<- <-]|?]|(-> & sh & Hin & Hpic & Hpos)]; eauto 8 using in_eq, in_cons.
      * intros [?|(-> & sh & [<-|Hin] & Hpic & Hpos)]; eauto 8.
    + split.
      * intros [?|(-> & sh & Hin & Hpic & Hpos)]; eauto 8 using in_cons.
      * intros [?|(-> & sh & [<-|Hin] & Hpic & Hpos)]; eauto 8. congruence.
Qed.

Lemma scan_from_occupied (deck : list (list Imgins.Shape)) :
  forall (tr : OccupancyTable) k s p,
    Imgins.is_position_occupied (Imgins.scan_from tr k deck) s p = true
    <-> Imgins.is_position_occupied tr s p = true
        \/ exists (i : nat) shapes shape,
             deck !! i = Some shapes
             /\ s = k + Z.of_nat i
             /\ In shape shapes
             /\ Imgins.shape_type shape = Imgins.PICTURE
             /\ Imgins._determine_position_from_coordinates
                  (Imgins.shape_left shape) (Imgins.shape_top shape)
                  (10 # 1) (15 # 2) = p.
Proof.
  induction deck as [|slide deck IH]; intros tr k s p; cbn [Imgins.scan_from].
  - split; [auto|]. intros [?|(i & ? & ? & Hi & _)]; [done|].
    by rewrite lookup_nil in Hi.
  - rewrite IH, scan_slide_occupied. split.
    + intros [[?|(-> & shape & Hin & Hpic & Hpos)]
             |(i & shapes & shape & Hi & -> & Hin & Hpic & Hpos)].
      * auto.
      * right. exists 0%nat, slide, shape. split_and!; try done. lia.
      * right. exists (S i), shapes, shape. split_and!; try done. lia.
    + intros [?|(i & shapes & shape & Hi & -> & Hin & Hpic & Hpos)]; [auto|].
      destruct i as [|i]; cbn in Hi.
      * injection Hi as <-. left; right. split; [lia|]. eauto.
      * right. exists i, shapes, shape. split_and!; try done. lia.
Qed.

(** X8.  After the scan of an existing deck, a pair (slide, position) is
    marked exactly when that slide holds a picture whose corner falls in
    that quadrant; shapes that are not pictures mark nothing, and the
    scan never marks center or custom. *)
Theorem X8_scan_marks_the_quadrants_of_pictures
    (deck : list (list Imgins.Shape)) s p :
  (Imgins.is_position_occupied (Imgins.scan_existing_images ∅ deck) s p = true
   <-> picture_at deck s p)
  /\ (Imgins.is_position_occupied (Imgins.scan_existing_images ∅ deck) s p = true ->
      p <> CENTER /\ p <> CUSTOM /\ 1 <= s <= Z.of_nat (length deck)).
Proof.
  assert (Imgins.is_position_occupied (Imgins.scan_existing_images ∅ deck) s p = true
          <-> picture_at deck s p) as Hiff.
  { unfold Imgins.scan_existing_images, picture_at. rewrite scan_from_occupied.
    split.
    - intros [H|(i & shapes & shape & Hi & -> & H)]; [done|].
      exists i, shapes, shape. split_and!; try tauto. lia.
    - intros (i & shapes & shape & Hi & -> & H). right.
      exists i, shapes, shape. split_and!; try tauto. lia. }
  split; [done|]. rewrite Hiff.
  intros (i & shapes & shape & Hi & -> & _ & _ & <-).
  apply lookup_lt_Some in Hi.
  destruct (determine_position_quadrant (Imgins.shape_left shape)
              (Imgins.shape_top shape) (10 # 1) (15 # 2)) as [Hq|Hq].
  - split_and!; try lia; intros Heq; rewrite Heq in Hq;
      destruct Hq as [H|[H|[H|[]]]]; discriminate H.
  - cbn zeta in Hq. rewrite Hq. split_and!; try done; lia.
Qed.

(** ** A run of the JSON generator *)

Lemma docjson_occupy_occupancy (m : OccupancyTable) k q s p :
  isOccupied (DocJson.occupy_position (touched m k) k q) s p
  = bool_decide (k = s /\ q = p) || isOccupied m s p.
Proof.
  change (DocJson.occupy_position (touched m k) k q)
    with (Imgins.occupy_position (touched m k) k q).
  rewrite <- !imgins_is_position_occupied_spec, is_position_occupied_occupy.
  by rewrite !imgins_is_position_occupied_spec, touched_occupancy.
Qed.

Lemma first_free_is_free (occupied : Position -> bool) q :
  first_free occupied (Some q) -> occupied q = false.
Proof. by intros (before & after & _ & ? & _). Qed.

Lemma generator_consistent_step (m : OccupancyTable) entries k q img dw dh :
  generator_consistent m entries ->
  first_free (isOccupied m k) (Some q) ->
  generator_consistent (DocJson.occupy_position (touched m k) k q)
    (entries ++ [DocJson.mkEntry img k q dw dh]).
Proof.
  intros (Hel & Hnd & Hocc) Hq.
  assert (Hfree := first_free_is_free _ _ Hq).
  unfold generator_consistent, entry_pairs. rewrite map_app. cbn [map].
  split_and!.
  - apply eligible_only_occupy; [by apply eligible_only_touched|].
    by apply first_free_in in Hq.
  - apply NoDup_app. split_and!; [done | | apply NoDup_singleton].
    intros [s p] Hin%list_elem_of_In [= -> ->]%list_elem_of_singleton.
    apply Hocc in Hin. congruence.
  - intros s p. rewrite docjson_occupy_occupancy, orb_true_iff, bool_decide_eq_true.
    rewrite in_app_iff, Hocc. cbn [In DocJson.entry_slide_number DocJson.entry_position].
    split; [intros [[-> ->]|?]; auto | intros [?|[[= -> ->]|[]]]; auto].
Qed.

(** The images of one mapping: each is given an entry, in order, on the
    mapping's slide or a later one. *)
Lemma assign_images_run dw dh image_numbers :
  forall (m : OccupancyTable) slide_num entries,
    generator_consistent m entries ->
    exists m' slide_num' new,
      DocJson.assign_images dw dh (m, slide_num, entries) image_numbers
      = Some (m', slide_num', entries ++ new)
      /\ generator_consistent m' (entries ++ new)
      /\ Forall2
           (fun e img_num =>
              DocJson.entry_image_number e = img_num
              /\ slide_num <= DocJson.entry_slide_number e
              /\ DocJson.entry_width e = dw /\ DocJson.entry_height e = dh)
           new image_numbers.
Proof.
  induction image_numbers as [|img rest IH]; intros m slide_num entries Hm;
    cbn [DocJson.assign_images].
  - exists m, slide_num, []. rewrite app_nil_r. split_and!; [done | done | constructor].
  - destruct (assign_image_spec dw dh m slide_num entries img)
      as (k & q & -> & Hk & _ & Hq).
    cbn [mbind option_bind].
    assert (slide_num <= k) as Hle.
    { destruct (snd (DocJson.is_slide_full m slide_num)); [lia | lia]. }
    destruct (IH _ k _ (generator_consistent_step m entries k q img dw dh Hm Hq))
      as (m' & s' & new & -> & Hm' & Hnew).
    exists m', s', (DocJson.mkEntry img k q dw dh :: new).
    rewrite <- app_assoc in *. cbn [app] in *. split_and!; [done | done |].
    constructor; [done|].
    eapply Forall2_impl; [exact Hnew|]. cbn beta. intros e i (? & ? & ? & ?).
    split_and!; try done. lia.
Qed.

Lemma assign_mappings_run dw dh mappings :
  forall (m : OccupancyTable) entries,
    generator_consistent m entries ->
    exists m' new,
      DocJson.assign_mappings dw dh m entries mappings = Some (m', entries ++ new)
      /\ generator_consistent m' (entries ++ new)
      /\ Forall2
           (fun e request =>
              DocJson.entry_image_number e = fst request
              /\ snd request <= DocJson.entry_slide_number e
              /\ DocJson.entry_width e = dw /\ DocJson.entry_height e = dh)
           new (requests mappings).
Proof.
  induction mappings as [|mapping rest IH]; intros m entries Hm;
    cbn [DocJson.assign_mappings].
  - exists m, []. rewrite app_nil_r. split_and!; [done | done | constructor].
  - destruct (assign_images_run dw dh (DocJson.image_numbers mapping) m
                (DocJson.slide_number mapping) entries Hm)
      as (m1 & s1 & new1 & -> & Hm1 & Hnew1).
    cbn [mbind option_bind].
    destruct (IH m1 _ Hm1) as (m2 & new2 & -> & Hm2 & Hnew2).
    exists m2, (new1 ++ new2). rewrite <- app_assoc in Hm2.
    rewrite <- app_assoc. split_and!; [done | done |].
    unfold requests; cbn [flat_map]. apply Forall2_app; [|done].
    apply Forall2_fmap_r. eapply Forall2_impl; [exact Hnew1|]. done.
Qed.

Lemma generator_consistent_empty : generator_consistent ∅ [].
Proof.
  split_and!.
  - intros s occ p Hs. by rewrite lookup_empty in Hs.
  - constructor.
  - intros s p. unfold isOccupied. rewrite lookup_empty. cbn.
    rewrite bool_decide_eq_false_2 by apply not_elem_of_empty. done.
Qed.

(** X9.  The generator returns, with one entry per image of the
    mappings, in the order of the input: each entry carries its image
    number, the default width and height, and a slide number that is the
    one its mapping names or a larger one, never a smaller one. *)
Theorem X9_generator_places_every_image dw dh mappings :
  exists m entries,
    DocJson.generate_json_mapping dw dh mappings = Some (m, entries)
    /\ Forall2
         (fun e request =>
            DocJson.entry_image_number e = fst request
            /\ snd request <= DocJson.entry_slide_number e
            /\ DocJson.entry_width e = dw /\ DocJson.entry_height e = dh)
         entries (requests mappings).
Proof.
  destruct (assign_mappings_run dw dh mappings ∅ [] generator_consistent_empty)
    as (m & entries & H & _ & Hentries).
  exists m, entries. done.
Qed.

(** X10.  No two entries of the generator share a (slide, position)
    pair, every position is one of the three eligible slots, and the
    table the generator ends with marks exactly the pairs of its
    entries. *)
Theorem X10_generator_is_collision_free dw dh mappings :
  exists m entries,
    DocJson.generate_json_mapping dw dh mappings = Some (m, entries)
    /\ NoDup (entry_pairs entries)
    /\ (forall e, In e entries -> In (DocJson.entry_position e) available_positions)
    /\ forall s p, isOccupied m s p = true <-> In (s, p) (entry_pairs entries).
Proof.
  destruct (assign_mappings_run dw dh mappings ∅ [] generator_consistent_empty)
    as (m & entries & H & (Hel & Hnd & Hocc) & _).
  exists m, entries. cbn [app] in *. split_and!; try done.
  intros e He.
  assert (isOccupied m (DocJson.entry_slide_number e) (DocJson.entry_position e)
          = true) as Hmark.
  { apply Hocc. unfold entry_pairs. apply in_map_iff. eauto. }
  unfold isOccupied in Hmark.
  destruct (m !! DocJson.entry_slide_number e) as [occ|] eqn:E; cbn in Hmark.
  - apply bool_decide_eq_true in Hmark. by apply (Hel _ _ _ E).
  - apply bool_decide_eq_true in Hmark. by apply not_elem_of_empty in Hmark.
Qed.

(** ** The usage analysis and the allocation *)

Lemma count_on_app s (a b : list (Z * Z)) :
  count_on s (a ++ b) = count_on s a + count_on s b.
Proof. induction a as [|r a IH]; cbn [app count_on]; lia. Qed.

Lemma count_on_nonneg s (reqs : list (Z * Z)) : 0 <= count_on s reqs.
Proof. induction reqs as [|r a IH]; cbn [count_on]; [lia|]. case_decide; lia. Qed.

Lemma count_on_mapping s k (imgs : list Z) :
  count_on s (map (fun i => (i, k)) imgs)
  = if decide (k = s) then Z.of_nat (length imgs) else 0.
Proof.
  induction imgs as [|i imgs IH]; cbn [map count_on length snd].
  - by case_decide.
  - rewrite IH. case_decide; lia.
Qed.

(** The analysis counts, per slide, the requests that name it. *)
Lemma analyze_slide_usage_counts (mappings : list DocJson.SlideMapping) s :
  default 0 (DocJson._analyze_slide_usage mappings !! s)
  = count_on s (requests mappings).
Proof.
  unfold DocJson._analyze_slide_usage.
  assert (forall acc : gmap Z Z,
            default 0 (fold_left
                         (fun slide_usage mapping =>
                            match slide_usage !! DocJson.slide_number mapping with
                            | Some count =>
                                <[DocJson.slide_number mapping :=
                                    count + Z.of_nat (length (DocJson.image_numbers mapping))]>
                                  slide_usage
                            | None =>
                                <[DocJson.slide_number mapping :=
                                    Z.of_nat (length (DocJson.image_numbers mapping))]>
                                  slide_usage
                            end) mappings acc !! s)
            = default 0 (acc !! s) + count_on s (requests mappings)) as H.
  { induction mappings as [|mp rest IH]; intros acc; cbn [fold_left].
    - cbn. lia.
    - rewrite IH. unfold requests; cbn [flat_map]. fold (requests rest).
      rewrite count_on_app, count_on_mapping.
      destruct (acc !! DocJson.slide_number mp) as [c|] eqn:E;
        rewrite lookup_insert; case_decide as Hs; subst; cbn;
        rewrite ?E; cbn; lia. }
  rewrite H, lookup_empty. cbn. lia.
Qed.

Lemma marked_after_occupy (m : OccupancyTable) k q s :
  marked (DocJson.occupy_position (touched m k) k q) s
  = if decide (k = s) then marked m k ∪ {[q]} else marked m s.
Proof.
  unfold marked.
  change (DocJson.occupy_position (touched m k) k q)
    with (Imgins.occupy_position (touched m k) k q).
  rewrite occupy_position_lookup. unfold Imgins.get_occupied_positions, touched.
  case_decide as Hk; cbn.
  - destruct (m !! k) eqn:E; [by rewrite E|]. by rewrite lookup_insert_eq.
  - destruct (m !! k) eqn:E; [done|]. by rewrite lookup_insert_ne.
Qed.

Lemma is_occupied_marked (m : OccupancyTable) s p :
  isOccupied m s p = true <-> p ∈ marked m s.
Proof. unfold isOccupied, marked. apply bool_decide_eq_true. Qed.

(** A full slide holds the three eligible slots; with nothing else
    stored it holds exactly three slots. *)
Lemma docjson_full_marked (m : OccupancyTable) s :
  snd (DocJson.is_slide_full m s) = true <->
  BOTTOM_LEFT ∈ marked m s /\ BOTTOM_RIGHT ∈ marked m s /\ TOP_RIGHT ∈ marked m s.
Proof.
  rewrite docjson_is_slide_full_result. unfold available_positions; cbn [List.find].
  rewrite <- !is_occupied_marked.
  destruct (isOccupied m s BOTTOM_LEFT), (isOccupied m s BOTTOM_RIGHT),
    (isOccupied m s TOP_RIGHT); cbn; split; try done; intros (? & ? & ?); done.
Qed.

Lemma eligible_only_marked (m : OccupancyTable) s p :
  eligible_only m -> p ∈ marked m s ->
  p = BOTTOM_LEFT \/ p = BOTTOM_RIGHT \/ p = TOP_RIGHT.
Proof.
  intros Hel Hp. unfold marked in Hp.
  destruct (m !! s) as [occ|] eqn:E; cbn in Hp.
  - destruct (Hel s occ p E Hp) as [<-|[<-|[<-|[]]]]; auto.
  - by apply not_elem_of_empty in Hp.
Qed.

Lemma eligible_marked_subseteq (m : OccupancyTable) s :
  eligible_only m ->
  marked m s ⊆ ({[BOTTOM_LEFT; BOTTOM_RIGHT; TOP_RIGHT]} : gset Position).
Proof.
  intros Hel p Hp. rewrite !elem_of_union, !elem_of_singleton.
  destruct (eligible_only_marked m s p Hel Hp) as [-> | [-> | ->]]; auto.
Qed.

Lemma three_eligible_slots :
  size ({[BOTTOM_LEFT; BOTTOM_RIGHT; TOP_RIGHT]} : gset Position) = 3%nat.
Proof. reflexivity. Qed.

Lemma docjson_full_size (m : OccupancyTable) s :
  eligible_only m ->
  (snd (DocJson.is_slide_full m s) = true <-> size (marked m s) = 3%nat)
  /\ (size (marked m s) <= 3)%nat.
Proof.
  intros Hel. assert (Hsub := eligible_marked_subseteq m s Hel).
  assert (Hle := subseteq_size _ _ Hsub). rewrite three_eligible_slots in Hle.
  split; [|done]. rewrite docjson_full_marked. split.
  - intros (H1 & H2 & H3).
    assert (({[BOTTOM_LEFT; BOTTOM_RIGHT; TOP_RIGHT]} : gset Position)
              ⊆ marked m s) as Hsup.
    { intros p. rewrite !elem_of_union, !elem_of_singleton.
      intros [[-> | ->] | ->]; done. }
    apply subseteq_size in Hsup. rewrite three_eligible_slots in Hsup. lia.
  - intros Hsize.
    assert (marked m s = {[BOTTOM_LEFT; BOTTOM_RIGHT; TOP_RIGHT]}) as Heq.
    { apply set_subseteq_size_eq; [done|]. rewrite three_eligible_slots. lia. }
    rewrite !Heq, !elem_of_union, !elem_of_singleton. auto.
Qed.

(** While no slide is asked for more than three images, the images of a
    mapping all stay on its slide. *)
Lemma assign_images_no_spill dw dh slide_num image_numbers :
  forall (m : OccupancyTable) entries (processed after : list (Z * Z)),
    eligible_only m ->
    (forall s, Z.of_nat (size (marked m s)) = count_on s processed) ->
    (forall s,
       count_on s (processed ++ map (fun i => (i, slide_num)) image_numbers ++ after)
       <= 3) ->
    exists m' new,
      DocJson.assign_images dw dh (m, slide_num, entries) image_numbers
      = Some (m', slide_num, entries ++ new)
      /\ eligible_only m'
      /\ (forall s,
            Z.of_nat (size (marked m' s))
            = count_on s (processed ++ map (fun i => (i, slide_num)) image_numbers))
      /\ Forall2
           (fun e img_num =>
              DocJson.entry_image_number e = img_num
              /\ DocJson.entry_slide_number e = slide_num)
           new image_numbers.
Proof.
  induction image_numbers as [|img rest IH];
    intros m entries processed after Hel Hsize Hcap;
    cbn [DocJson.assign_images map].
  - exists m, []. rewrite !app_nil_r. split_and!; [done | done | done | constructor].
  - destruct (assign_image_spec dw dh m slide_num entries img)
      as (k & q & -> & Hk & _ & Hq).
    cbn [mbind option_bind].
    assert (snd (DocJson.is_slide_full m slide_num) = false) as Hroom.
    { destruct (snd (DocJson.is_slide_full m slide_num)) eqn:Efull; [|done].
      apply (docjson_full_size m slide_num Hel) in Efull.
      specialize (Hcap slide_num). specialize (Hsize slide_num).
      rewrite count_on_app in Hcap. cbn [map app count_on snd] in Hcap.
      rewrite decide_True in Hcap by done.
      assert (H0 := count_on_nonneg slide_num
                      (map (fun i => (i, slide_num)) rest ++ after)).
      lia. }
    rewrite Hroom in Hk. subst k.
    assert (Hfree := first_free_is_free _ _ Hq).
    assert (q ∉ marked m slide_num) as Hnotin.
    { rewrite <- is_occupied_marked. by rewrite Hfree. }
    destruct (IH (DocJson.occupy_position (touched m slide_num) slide_num q)
                (entries ++ [DocJson.mkEntry img slide_num q dw dh])
                (processed ++ [(img, slide_num)]) after)
      as (m' & new & -> & Hel' & Hsize' & Hnew).
    + apply eligible_only_occupy; [by apply eligible_only_touched|].
      by apply first_free_in in Hq.
    + intros s. rewrite marked_after_occupy, count_on_app. cbn [count_on snd].
      case_decide as Hs.
      * subst s. rewrite size_union by (by apply disjoint_singleton_r).
        rewrite size_singleton. specialize (Hsize slide_num). lia.
      * specialize (Hsize s). lia.
    + intros s. specialize (Hcap s). by rewrite <- app_assoc.
    + exists m', (DocJson.mkEntry img slide_num q dw dh :: new).
      rewrite <- app_assoc in *. cbn [app] in *.
      split_and!; [done | done | done |]. by constructor.
Qed.

Lemma assign_mappings_no_spill dw dh mappings :
  forall (m : OccupancyTable) entries (processed : list (Z * Z)),
    eligible_only m ->
    (forall s, Z.of_nat (size (marked m s)) = count_on s processed) ->
    (forall s, count_on s (processed ++ requests mappings) <= 3) ->
    exists m' new,
      DocJson.assign_mappings dw dh m entries mappings = Some (m', entries ++ new)
      /\ Forall2
           (fun e request =>
              DocJson.entry_image_number e = fst request
              /\ DocJson.entry_slide_number e = snd request)
           new (requests mappings).
Proof.
  induction mappings as [|mapping rest IH]; intros m entries processed Hel Hsize Hcap;
    cbn [DocJson.assign_mappings].
  - exists m, []. rewrite app_nil_r. split; [done | constructor].
  - unfold requests in Hcap; cbn [flat_map] in Hcap. fold (requests rest) in Hcap.
    destruct (assign_images_no_spill dw dh (DocJson.slide_number mapping)
                (DocJson.image_numbers mapping) m entries processed
                (requests rest) Hel Hsize Hcap)
      as (m1 & new1 & -> & Hel1 & Hsize1 & Hnew1).
    cbn [mbind option_bind].
    destruct (IH m1 (entries ++ new1)
                (processed
                   ++ map (fun i => (i, DocJson.slide_number mapping))
                        (DocJson.image_numbers mapping)) Hel1 Hsize1)
      as (m2 & new2 & -> & Hnew2).
    { intros s. specialize (Hcap s). by rewrite <- app_assoc. }
    exists m2, (new1 ++ new2). rewrite <- app_assoc. split; [done|].
    unfold requests; cbn [flat_map]. apply Forall2_app; [|done].
    apply Forall2_fmap_r. eapply Forall2_impl; [exact Hnew1|]. done.
Qed.

(** X11.  When the usage analysis reports no slide as exceeding the
    three positions, the generator gives every image an entry on the
    slide its mapping names: nothing is moved to another slide. *)
Theorem X11_no_excess_no_move dw dh mappings :
  map_Forall (fun _ count => DocJson.reported_exceeding count = false)
             (DocJson._analyze_slide_usage mappings) ->
  exists m entries,
    DocJson.generate_json_mapping dw dh mappings = Some (m, entries)
    /\ Forall2
         (fun e request =>
            DocJson.entry_image_number e = fst request
            /\ DocJson.entry_slide_number e = snd request)
         entries (requests mappings).
Proof.
  intros Husage.
  destruct (assign_mappings_no_spill dw dh mappings ∅ [] [])
    as (m & entries & H & Hentries).
  - intros s occ p Hs. by rewrite lookup_empty in Hs.
  - intros s. unfold marked. by rewrite lookup_empty.
  - intros s. cbn [app]. rewrite <- analyze_slide_usage_counts.
    destruct (DocJson._analyze_slide_usage mappings !! s) as [c|] eqn:E; cbn; [|lia].
    specialize (Husage s c E). cbn beta in Husage.
    unfold DocJson.reported_exceeding in Husage.
    apply bool_decide_eq_false in Husage. cbn in Husage. lia.
  - exists m, entries. done.
Qed.

(** Four images, three for slide 1 in two mappings and one for slide 2:
    each lands on its slide. *)
Lemma X11_within_capacity :
  map_Forall (fun _ count => DocJson.reported_exceeding count = false)
             (DocJson._analyze_slide_usage Scenario.mappings_within_capacity)
  /\ exists m entries,
       DocJson.generate_json_mapping (3 # 1) (2 # 1)
         Scenario.mappings_within_capacity = Some (m, entries)
       /\ Forall2
            (fun e request =>
               DocJson.entry_image_number e = fst request
               /\ DocJson.entry_slide_number e = snd request)
            entries [(1, 1); (2, 1); (3, 2); (4, 1)].
Proof.
  assert (map_Forall (fun _ count => DocJson.reported_exceeding count = false)
            (DocJson._analyze_slide_usage Scenario.mappings_within_capacity))
    as Husage.
  { apply map_Forall_to_list. vm_compute. repeat constructor. }
  split; [exact Husage|].
  exact (X11_no_excess_no_move (3 # 1) (2 # 1)
           Scenario.mappings_within_capacity Husage).
Defined.

(** X12.  On a table that stores eligible slots only, as every table of
    the generator does, the available count of a slide is between 0 and 3,
    it is 0 exactly when the slide is full, and marking the next available
    slot lowers it by one. *)
Theorem X12_available_count (m : OccupancyTable) s :
  eligible_only m ->
  0 <= DocJson.get_available_count m s <= 3
  /\ (DocJson.get_available_count m s = 0
      <-> snd (DocJson.is_slide_full m s) = true)
  /\ forall q,
       snd (DocJson.get_next_available_position m s) = Some q ->
       DocJson.get_available_count (DocJson.occupy_position m s q) s
       = DocJson.get_available_count m s - 1.
Proof.
  intros Hel.
  assert (forall m' : OccupancyTable,
            DocJson.get_available_count m' s = 3 - Z.of_nat (size (marked m' s)))
    as Hcount.
  { intros m'. unfold DocJson.get_available_count, marked.
    destruct (m' !! s); cbn; [lia|]. rewrite size_empty. lia. }
  destruct (docjson_full_size m s Hel) as [Hfull Hle].
  rewrite !Hcount. split_and!; [lia | lia | |].
  - rewrite Hfull. lia.
  - intros q Hq. rewrite docjson_next_available_result in Hq.
    assert (Hff := find_first_free (isOccupied m s)). rewrite Hq in Hff.
    assert (q ∉ marked m s) as Hnotin.
    { rewrite <- is_occupied_marked. by rewrite (first_free_is_free _ _ Hff). }
    rewrite Hcount.
    assert (marked (DocJson.occupy_position m s q) s = marked m s ∪ {[q]}) as ->.
    { unfold marked.
      change (DocJson.occupy_position m s q) with (Imgins.occupy_position m s q).
      rewrite occupy_position_lookup, decide_True by done. done. }
    rewrite size_union by (by apply disjoint_singleton_r).
    rewrite size_singleton. lia.
Qed.

(** The table with slide 2 full: nothing is available there, three
    slots on slide 1. *)
Lemma X12_counts_on_a_full_slide :
  eligible_only Scenario.second_slide_full
  /\ DocJson.get_available_count Scenario.second_slide_full 2 = 0
  /\ DocJson.get_available_count Scenario.second_slide_full 1 = 3.
Proof.
  assert (eligible_only Scenario.second_slide_full) as Hel.
  { intros s occ p. unfold Scenario.second_slide_full.
    rewrite lookup_singleton. case_decide; [|done].
    intros [= <-]. rewrite !elem_of_union, !elem_of_singleton.
    intros [[-> | ->] | ->]; cbn; auto. }
  split; [exact Hel|]. split.
  - apply (proj1 (proj2 (X12_available_count Scenario.second_slide_full 2 Hel))).
    vm_compute. reflexivity.
  - reflexivity.
Defined.

(** ** From the generator to the inserter *)

Lemma position_value_round_trip (p : Position) :
  Position_of_value (Position_value p) = Some p
  /\ String.eqb (Position_value p) "auto" = false.
Proof. by destruct p. Qed.

Lemma parse_json_item_entry (e : DocJson.Entry) :
  Imgins.parse_json_item (DocJson.entry_json e) = Imgins.Returned (entry_request e).
Proof.
  unfold Imgins.parse_json_item, Imgins.json_position, Imgins.json_image_number,
    Imgins.json_slide_number, Imgins.json_number.
  replace (DocJson.entry_json e !! "position"%string)
    with (Some (Imgins.JStr (Position_value (DocJson.entry_position e)))) by done.
  replace (DocJson.entry_json e !! "image_number"%string)
    with (Some (Imgins.JInt (DocJson.entry_image_number e))) by done.
  replace (DocJson.entry_json e !! "slide_number"%string)
    with (Some (Imgins.JInt (DocJson.entry_slide_number e))) by done.
  replace (DocJson.entry_json e !! "left"%string) with (@None Imgins.JValue) by done.
  replace (DocJson.entry_json e !! "top"%string) with (@None Imgins.JValue) by done.
  replace (DocJson.entry_json e !! "width"%string)
    with (Some (Imgins.JNum (DocJson.entry_width e))) by done.
  replace (DocJson.entry_json e !! "height"%string)
    with (Some (Imgins.JNum (DocJson.entry_height e))) by done.
  destruct (position_value_round_trip (DocJson.entry_position e)) as [-> ->].
  done.
Qed.

(** X13.  Whatever the generator writes, the JSON parser of the inserter
    accepts: every entry is read back as a request for the same image,
    slide and position, with the entry's width and height and no left or
    top. *)
Theorem X13_inserter_reads_generator_output (entries : list DocJson.Entry) :
  Imgins._parse_json_mapping (map DocJson.entry_json entries)
  = Imgins.Returned (map entry_request entries).
Proof.
  induction entries as [|e entries IH];
    cbn [map Imgins._parse_json_mapping]; [done|].
  by rewrite parse_json_item_entry, IH.
Qed.

Lemma parse_json_mapping_entries (entries : list DocJson.Entry) :
  Imgins._parse_json_mapping (map DocJson.entry_json entries)
  = Imgins.Returned (map entry_request entries).
Proof.
  induction entries as [|e entries IH];
    cbn [map Imgins._parse_json_mapping]; [done|].
  by rewrite parse_json_item_entry, IH.
Qed.

(** ** Requests that are honoured as they stand *)

Lemma requested_pairs_cons pl rest :
  requested_pairs (pl :: rest)
  = match Imgins.slide_number pl, Imgins.position pl with
    | Imgins.Slide s, Some p => (s, p) :: requested_pairs rest
    | _, _ => requested_pairs rest
    end.
Proof.
  unfold requested_pairs; cbn [flat_map].
  by destruct (Imgins.slide_number pl), (Imgins.position pl).
Qed.

(** Requests for distinct free pairs on existing slides, with valid
    image numbers and a collaborator that succeeds. *)
Lemma process_placements_honoured image_files insert placements :
  (forall k j q a b c d, insert k j q a b c d = true) ->
  forall st : Imgins.Inserter,
    Forall (well_addressed image_files (Imgins.slides st)) placements ->
    NoDup (requested_pairs placements) ->
    (forall s p, In (s, p) (requested_pairs placements) ->
       Imgins.is_position_occupied (Imgins.position_tracker st) s p = false) ->
    snd (Imgins.process_placements image_files insert st placements)
    = map (fun sp => Imgins.Inserted (fst sp) (snd sp)) (requested_pairs placements)
    /\ Imgins.slides (fst (Imgins.process_placements image_files insert st placements))
       = Imgins.slides st.
Proof.
  intros Hins. induction placements as [|pl rest IH]; intros st Hwell Hnd Hfree.
  - done.
  - apply Forall_cons in Hwell. destruct Hwell as [(Himg & s & p & Hs & Hp & Hrange) Hwell].
    rewrite requested_pairs_cons, Hs, Hp in *.
    apply NoDup_cons in Hnd. destruct Hnd as [Hnotin Hnd].
    destruct pl as [i sl po l t w h]. cbn [Imgins.slide_number Imgins.position] in Hs, Hp.
    subst sl po.
    assert (Imgins.resolve st (Imgins.mkPlacement i (Imgins.Slide s) (Some p) l t w h)
            = (st, (s, p))) as Hres.
    { rewrite resolve_concrete. rewrite Hfree by (left; done). done. }
    rewrite (process_placements_inserted image_files insert st
               (Imgins.mkInserter
                  (Imgins.occupy_position (Imgins.position_tracker st) s p)
                  (Imgins.slides st)) _ rest s p).
    2: { apply (process_placement_inserted image_files insert st st);
         [done | done | lia | apply Hins]. }
    cbn [fst snd map].
    destruct (IH (Imgins.mkInserter
                    (Imgins.occupy_position (Imgins.position_tracker st) s p)
                    (Imgins.slides st))) as [Hout Hslides].
    + done.
    + done.
    + intros s' p' Hin. cbn [Imgins.position_tracker].
      rewrite is_position_occupied_occupy, Hfree by (right; done).
      rewrite bool_decide_eq_false_2; [done|].
      intros [-> ->]. apply Hnotin, list_elem_of_In, Hin.
    + rewrite Hout, Hslides. done.
Qed.

(** X14.  Requests that name pairwise distinct (slide, position) pairs,
    all free and on existing slides, with valid image numbers, are all
    honoured as they stand when the insertions succeed: each image goes
    where its request says, in order, and no slide is appended. *)
Theorem X14_distinct_free_requests_are_honoured image_files insert
    (st : Imgins.Inserter) placements :
  (forall k j q a b c d, insert k j q a b c d = true) ->
  Forall (well_addressed image_files (Imgins.slides st)) placements ->
  NoDup (requested_pairs placements) ->
  (forall s p, In (s, p) (requested_pairs placements) ->
     Imgins.is_position_occupied (Imgins.position_tracker st) s p = false) ->
  snd (Imgins.process_placements image_files insert st placements)
  = map (fun sp => Imgins.Inserted (fst sp) (snd sp)) (requested_pairs placements)
  /\ Imgins.slides (fst (Imgins.process_placements image_files insert st placements))
     = Imgins.slides st.
Proof. intros Hins. by apply process_placements_honoured. Qed.

(** Two requests for different slots of a new one-slide deck. *)
Lemma X14_two_requests_on_a_new_deck :
  snd (Imgins.process_placements 2 Scenario.insert_ok Scenario.one_empty_slide
         [Scenario.request 1 1 TOP_RIGHT; Scenario.request 2 1 BOTTOM_LEFT])
  = [Imgins.Inserted 1 TOP_RIGHT; Imgins.Inserted 1 BOTTOM_LEFT]
  /\ Imgins.slides
       (fst (Imgins.process_placements 2 Scenario.insert_ok
               Scenario.one_empty_slide
               [Scenario.request 1 1 TOP_RIGHT; Scenario.request 2 1 BOTTOM_LEFT]))
     = 1%nat.
Proof.
  apply (X14_distinct_free_requests_are_honoured 2 Scenario.insert_ok
           Scenario.one_empty_slide
           [Scenario.request 1 1 TOP_RIGHT; Scenario.request 2 1 BOTTOM_LEFT]).
  - reflexivity.
  - repeat constructor; cbn; eauto 10 with lia.
  - unfold requested_pairs; cbn. apply NoDup_cons. split.
    + intros Hin%list_elem_of_singleton. discriminate Hin.
    + apply NoDup_singleton.
  - intros s p Hin. reflexivity.
Defined.

(** ** The two scripts in a row *)

Lemma scan_from_no_shapes (tr : OccupancyTable) (n : nat) :
  forall k, Imgins.scan_from tr k (replicate n []) = tr.
Proof. induction n as [|n IH]; intros k; cbn; [done|]. apply IH. Qed.

Lemma requested_pairs_entries (entries : list DocJson.Entry) :
  requested_pairs (map entry_request entries) = entry_pairs entries.
Proof.
  induction entries as [|e entries IH]; [done|].
  cbn [map]. rewrite requested_pairs_cons. cbn. by rewrite IH.
Qed.

(** X15.  The mapping that the generator produces, read by the JSON
    parser of the inserter and run against a deck of [n] slides without
    pictures: when the deck has every slide the entries name, the image
    numbers are valid and the insertions succeed, every image is inserted
    at exactly the slide and position of its entry, in order. *)
Theorem X15_generated_mapping_is_carried_out dw dh mappings image_files insert
    (n : nat) (m : OccupancyTable) entries :
  (forall k j q a b c d, insert k j q a b c d = true) ->
  DocJson.generate_json_mapping dw dh mappings = Some (m, entries) ->
  Forall (fun e =>
            1 <= DocJson.entry_image_number e <= Z.of_nat image_files
            /\ 1 <= DocJson.entry_slide_number e <= Z.of_nat n) entries ->
  exists placements,
    Imgins._parse_json_mapping (map DocJson.entry_json entries)
    = Imgins.Returned placements
    /\ snd (Imgins.process_mappings image_files insert
              (Some (replicate n [])) placements)
       = map (fun e => Imgins.Inserted (DocJson.entry_slide_number e)
                                       (DocJson.entry_position e)) entries.
Proof.
  intros Hins Hgen Hrange.
  exists (map entry_request entries). split; [apply parse_json_mapping_entries|].
  destruct (assign_mappings_run dw dh mappings ∅ [] generator_consistent_empty)
    as (m' & entries' & Hgen' & (_ & Hnd & _) & _).
  unfold DocJson.generate_json_mapping in Hgen. rewrite Hgen in Hgen'.
  injection Hgen' as <- <-. cbn [app] in Hnd.
  unfold Imgins.process_mappings, Imgins.initial_inserter,
    Imgins.scan_existing_images.
  rewrite scan_from_no_shapes, length_replicate.
  destruct (process_placements_honoured image_files insert
              (map entry_request entries) Hins (Imgins.mkInserter ∅ n))
    as [Hout _].
  - apply Forall_fmap. eapply Forall_impl; [exact Hrange|].
    intros e [Himg Hslide]. split.
    + apply invalid_image_number_false. done.
    + cbn. eauto.
  - by rewrite requested_pairs_entries.
  - intros s p _. reflexivity.
  - rewrite Hout, requested_pairs_entries. unfold entry_pairs.
    rewrite map_map. done.
Qed.

(** Five images for slide 1 and one for slide 2, on a two-slide deck:
    the fourth and fifth image go to slide 2, and so does the sixth. *)
Lemma X15_six_images_on_two_slides :
  exists m entries placements,
    DocJson.generate_json_mapping (3 # 1) (2 # 1) Scenario.mappings_overflowing
    = Some (m, entries)
    /\ Imgins._parse_json_mapping (map DocJson.entry_json entries)
       = Imgins.Returned placements
    /\ snd (Imgins.process_mappings 6 Scenario.insert_ok
              (Some (replicate 2 [])) placements)
       = [Imgins.Inserted 1 BOTTOM_LEFT; Imgins.Inserted 1 BOTTOM_RIGHT;
          Imgins.Inserted 1 TOP_RIGHT; Imgins.Inserted 2 BOTTOM_LEFT;
          Imgins.Inserted 2 BOTTOM_RIGHT; Imgins.Inserted 2 TOP_RIGHT].
Proof.
  destruct (DocJson.generate_json_mapping (3 # 1) (2 # 1)
              Scenario.mappings_overflowing) as [[m entries]|] eqn:Hgen;
    [|vm_compute in Hgen; discriminate Hgen].
  destruct (X15_generated_mapping_is_carried_out (3 # 1) (2 # 1)
              Scenario.mappings_overflowing 6 Scenario.insert_ok 2 m entries)
    as (placements & Hparse & Hrun).
  - reflexivity.
  - exact Hgen.
  - vm_compute in Hgen. injection Hgen as <- <-.
    repeat constructor; cbn; lia.
  - exists m, entries, placements. split; [reflexivity|]. split; [exact Hparse|].
    rewrite Hrun. vm_compute in Hgen. injection Hgen as <- <-. reflexivity.
Defined.

(** ** The coordinate mapper and the scanner *)

(** [Inches] rounds as the floats do: the literal [0.57] is the float
    nearest to 57/100, which is [57.0 / 100.0], and [Inches(0.57)] is
    521207, one below the exact product. *)
Lemma Inches_of_a_rounded_literal :
  Imgins.Inches (Imgins.float_div (Imgins.float_of 57 0) (Imgins.float_of 100 0))
  = Some 521207.
Proof. vm_compute. reflexivity. Qed.

(** X16.  [get_position_coordinates] has an anchor exactly for the four
    quadrant positions, and the scanner classifies a picture placed at the
    anchor of a quadrant, [Inches(pos_left)] and [Inches(pos_top)], as
    that same quadrant: what the inserter puts at a predefined position, a
    later scan finds there. *)
Theorem X16_anchor_is_scanned_as_its_quadrant (position : Position)
    (width height : option Q) :
  match Imgins.get_position_coordinates position width height with
  | Some (pos_left, pos_top) =>
      exists left top,
        Imgins.Inches pos_left = Some left
        /\ Imgins.Inches pos_top = Some top
        /\ Imgins._determine_position_from_coordinates left top (10 # 1) (15 # 2)
           = position
  | None => position = CENTER \/ position = CUSTOM
  end.
Proof.
  destruct position; cbn [Imgins.get_position_coordinates]; auto;
    eexists _, _; split_and!; vm_compute; reflexivity.
Qed.

(** ** The line-oriented form: short records, long records, blanks for colons *)

(** X17.  In the line-oriented form a record may stop after any field
    and may carry more than seven: fields left out at the end read as
    blank fields, and whatever follows the seventh field is ignored. *)
Theorem X17_trailing_fields float (parts : list string) :
  parts <> [] ->
  Imgins.parse_txt_parts float parts
  = Imgins.parse_txt_parts float (take 7 (parts ++ replicate 7 EmptyString)).
Proof.
  intros Hne.
  destruct parts as [|p0 [|p1 [|p2 [|p3 [|p4 [|p5 [|p6 rest]]]]]]];
    [done | reflexivity ..].
Qed.

(** The record [7:2] reads as [7:2:::::], and an eighth field changes
    nothing. *)
Lemma X17_short_and_long_records :
  ["7"; "2"]%string <> []
  /\ Imgins.parse_txt_parts Scenario.float_of_integer_literal ["7"; "2"]%string
     = Imgins.parse_txt_parts Scenario.float_of_integer_literal
         ["7"; "2"; ""; ""; ""; ""; ""]%string
  /\ Imgins.parse_txt_parts Scenario.float_of_integer_literal
       ["7"; "2"; "center"; "1"; "1"; "3"; "2"; "ignored"]%string
     = Imgins.parse_txt_parts Scenario.float_of_integer_literal
         ["7"; "2"; "center"; "1"; "1"; "3"; "2"]%string.
Proof.
  split; [discriminate|]. split.
  - exact (X17_trailing_fields Scenario.float_of_integer_literal
             ["7"; "2"]%string ltac:(discriminate)).
  - exact (X17_trailing_fields Scenario.float_of_integer_literal
             ["7"; "2"; "center"; "1"; "1"; "3"; "2"; "ignored"]%string
             ltac:(discriminate)).
Defined.

Lemma no_blank_lstrip (t : string) : no_blank t = true -> Py.lstrip t = t.
Proof.
  destruct t as [|c t]; [done|]. cbn [no_blank Py.lstrip].
  intros [Hc _]%andb_true_iff. apply negb_true_iff in Hc. by rewrite Hc.
Qed.

Lemma no_blank_rstrip (t : string) : no_blank t = true -> Py.rstrip t = t.
Proof.
  induction t as [|c t IH]; [done|]. cbn [no_blank].
  intros [Hc Ht]%andb_true_iff. apply negb_true_iff in Hc.
  by apply rstrip_cons; [|apply IH].
Qed.

Lemma word_plain (t : string) : word t -> plain t.
Proof.
  intros (_ & Hb & Hc). split; [done|]. unfold Py.strip.
  by rewrite (no_blank_lstrip t Hb), (no_blank_rstrip t Hb).
Qed.

Lemma no_blank_app (a b : string) :
  no_blank (a ++ b) = no_blank a && no_blank b.
Proof.
  induction a as [|c a IH]; [by rewrite append_empty|].
  rewrite append_cons. cbn [no_blank]. rewrite IH. by rewrite andb_assoc.
Qed.

(** Joined by a colon or by a blank, words make a line that needs no
    stripping and that is cut back into the same words. *)
Lemma join_colon_parts (words : list string) :
  words <> [] -> Forall word words ->
  Py.lstrip (join ":" words) = join ":" words
  /\ Py.rstrip (join ":" words) = join ":" words
  /\ join ":" words <> EmptyString
  /\ Py.split ":" (join ":" words) = words.
Proof.
  induction words as [|w rest IH]; [done|]. intros _ Hwords.
  apply Forall_cons in Hwords. destruct Hwords as [Hw Hrest].
  destruct (word_plain w Hw) as [Hcolon Hstrip]. destruct Hw as (Hne & Hb & _).
  destruct rest as [|w' rest'].
  - cbn [join]. split_and!; [by apply no_blank_lstrip | by apply no_blank_rstrip
                             | done | by apply split_no_sep].
  - destruct IH as (_ & Hr & Hne' & Hsplit); [done | done |].
    change (join ":" (w :: w' :: rest'))
      with (w ++ String ":" (join ":" (w' :: rest')))%string.
    split_and!.
    + apply lstrip_app; [by apply no_blank_lstrip | done].
    + apply rstrip_app; [by apply rstrip_cons | done].
    + destruct w; [done|]. by rewrite append_cons.
    + rewrite split_app_sep by done. by rewrite Hsplit.
Qed.

Lemma split_whitespace_word (w rest : string) :
  w <> EmptyString -> no_blank w = true ->
  Py.split_whitespace (w ++ String " " rest) = w :: Py.split_whitespace rest.
Proof.
  induction w as [|c w IH]; [done|]. intros _. cbn [no_blank].
  intros [Hc Hw]%andb_true_iff. apply negb_true_iff in Hc.
  rewrite append_cons. cbn [Py.split_whitespace]. rewrite Hc.
  destruct w as [|c' w'].
  - rewrite append_empty. change (Py.isspace " ") with true. done.
  - rewrite append_cons. cbn [no_blank] in Hw.
    apply andb_true_iff in Hw as [Hc' Hw']. apply negb_true_iff in Hc'.
    rewrite Hc'. rewrite <- append_cons.
    rewrite IH; [done | done |]. cbn [no_blank]. by rewrite Hc', Hw'.
Qed.

Lemma split_whitespace_single (w : string) :
  w <> EmptyString -> no_blank w = true -> Py.split_whitespace w = [w].
Proof.
  induction w as [|c w IH]; [done|]. intros _. cbn [no_blank].
  intros [Hc Hw]%andb_true_iff. apply negb_true_iff in Hc.
  cbn [Py.split_whitespace]. rewrite Hc.
  destruct w as [|c' w']; [done|].
  cbn [no_blank] in Hw. apply andb_true_iff in Hw as [Hc' Hw'].
  apply negb_true_iff in Hc'. rewrite Hc'.
  rewrite IH; [done | done |]. cbn [no_blank]. by rewrite Hc', Hw'.
Qed.

Lemma join_blank_parts (words : list string) :
  words <> [] -> Forall word words ->
  Py.lstrip (join " " words) = join " " words
  /\ Py.rstrip (join " " words) = join " " words
  /\ join " " words <> EmptyString
  /\ Py.contains ":" (join " " words) = false
  /\ Py.split_whitespace (join " " words) = words.
Proof.
  induction words as [|w rest IH]; [done|]. intros _ Hwords.
  apply Forall_cons in Hwords. destruct Hwords as [Hw Hrest].
  destruct Hw as (Hne & Hb & Hcolon).
  destruct rest as [|w' rest'].
  - cbn [join]. split_and!; [by apply no_blank_lstrip | by apply no_blank_rstrip
                             | done | done | by apply split_whitespace_single].
  - destruct IH as (_ & Hr & Hne' & Hc' & Hsplit); [done | done |].
    change (join " " (w :: w' :: rest'))
      with (w ++ String " " (join " " (w' :: rest')))%string.
    split_and!.
    + apply lstrip_app; [by apply no_blank_lstrip | done].
    + apply rstrip_app; [|discriminate].
      cbn [Py.rstrip]. rewrite Hr.
      destruct (join " " (w' :: rest')); [congruence | done].
    + destruct w; [done|]. by rewrite append_cons.
    + rewrite contains_app. cbn [Py.contains]. rewrite Hcolon, Hc'. done.
    + rewrite split_whitespace_word by done. by rewrite Hsplit.
Qed.

(** X18.  A record written as words separated by single blanks is read
    exactly as the same words separated by colons. *)
Theorem X18_blanks_for_colons float (words : list string) :
  words <> [] -> Forall word words ->
  Imgins.parse_txt_line float (join " " words)
  = Imgins.parse_txt_line float (join ":" words).
Proof.
  intros Hne Hwords.
  destruct (join_blank_parts words Hne Hwords) as (Hl & Hr & Hne1 & Hc & Hsplit).
  destruct (join_colon_parts words Hne Hwords) as (Hl' & Hr' & Hne2 & Hsplit').
  unfold Imgins.parse_txt_line, Py.strip. rewrite Hl, Hr, Hl', Hr', Hc, Hsplit.
  assert (Py.startswith "#" (join " " words) = Py.startswith "#" (join ":" words)
          /\ Py.truthy (join " " words) = Py.truthy (join ":" words)) as [-> ->].
  { destruct words as [|w [|w' rest]]; [done | done |].
    cbn [join]. apply Forall_cons in Hwords as [(Hw & _) _].
    destruct w; [done|]. rewrite !append_cons. done. }
  destruct (Py.contains ":" (join ":" words)) eqn:Ecolon.
  - by rewrite Hsplit'.
  - destruct words as [|w [|w' rest]]; [done | |].
    + cbn [join] in *. by rewrite Hsplit.
    + cbn [join] in Ecolon. rewrite contains_app in Ecolon.
      cbn [String.append Py.contains] in Ecolon.
      rewrite append_cons in Ecolon. cbn [Py.contains] in Ecolon.
      by rewrite orb_true_r in Ecolon.
Qed.

(** [3 2 bottom-right] reads as [3:2:bottom-right]. *)
Lemma X18_three_words :
  Imgins.parse_txt_line Scenario.float_of_integer_literal "3 2 bottom-right"
  = Imgins.parse_txt_line Scenario.float_of_integer_literal "3:2:bottom-right"
  /\ Imgins.parse_txt_line Scenario.float_of_integer_literal "3 2 bottom-right"
     = Imgins.Parsed (Scenario.request 3 2 BOTTOM_RIGHT).
Proof.
  split; [|reflexivity].
  apply (X18_blanks_for_colons Scenario.float_of_integer_literal
           Scenario.three_words).
  - discriminate.
  - repeat constructor; discriminate.
Defined.

(** ** Lists of image numbers *)

Lemma strictly_sorted (l : list Z) :
  StronglySorted Z.le l -> NoDup l -> StronglySorted Z.lt l.
Proof.
  induction 1 as [|x l Hl IH Hx]; intros Hnd; constructor.
  - apply IH. by apply NoDup_cons in Hnd as [_ ?].
  - apply NoDup_cons in Hnd as [Hnotin _].
    apply Forall_forall. intros y Hy.
    assert (x <= y) by (by eapply Forall_forall in Hx; [|exact Hy]).
    assert (x <> y) by (intros ->; by apply Hnotin, list_elem_of_In).
    lia.
Qed.

Lemma sorted_set_spec (numbers : list Z) :
  StronglySorted Z.lt (DocJson.sorted_set numbers)
  /\ forall x, In x (DocJson.sorted_set numbers) <-> In x numbers.
Proof.
  unfold DocJson.sorted_set. split.
  - apply strictly_sorted.
    + apply (StronglySorted_merge_sort Z.le).
    + rewrite merge_sort_Permutation. apply NoDup_remove_dups.
  - intros x. rewrite <- !list_elem_of_In.
    by rewrite merge_sort_Permutation, elem_of_remove_dups.
Qed.

(** X19.  [_parse_number_list] returns a strictly increasing list, so
    without duplicates, which holds exactly the numbers that the parts of
    the text contribute; a part that is neither a number nor a range
    contributes nothing and stops nothing. *)
Theorem X19_number_list_sorted_and_exact (numbers_str : string) :
  StronglySorted Z.lt (DocJson._parse_number_list numbers_str)
  /\ forall x,
       In x (DocJson._parse_number_list numbers_str)
       <-> exists part,
             In part (DocJson.re_split_separators false (Py.strip numbers_str))
             /\ In x (DocJson.part_numbers part).
Proof.
  unfold DocJson._parse_number_list. cbn zeta.
  destruct (sorted_set_spec
              (flat_map DocJson.part_numbers
                 (DocJson.re_split_separators false (Py.strip numbers_str))))
    as [Hsorted Hin].
  split; [done|]. intros x. rewrite Hin. apply in_flat_map.
Qed.

Lemma split_once_app sep (a b : string) :
  Py.contains sep a = false ->
  DocJson.split_once sep (a ++ String sep b) = Some (a, b).
Proof.
  induction a as [|c a IH].
  - intros _. rewrite append_empty. cbn [DocJson.split_once].
    by rewrite Ascii.eqb_refl.
  - rewrite append_cons. cbn [DocJson.split_once Py.contains].
    intros [Hc Ha]%orb_false_iff. by rewrite Hc, IH.
Qed.

Lemma re_split_no_separator (t : string) :
  no_separator t = true -> DocJson.re_split_separators false t = [t].
Proof.
  induction t as [|c t IH]; [done|]. cbn [no_separator DocJson.re_split_separators].
  intros [Hc Ht]%andb_true_iff. apply negb_true_iff in Hc.
  by rewrite Hc, IH.
Qed.

Lemma no_separator_no_blank (t : string) : no_separator t = true -> no_blank t = true.
Proof.
  induction t as [|c t IH]; [done|]. cbn [no_separator no_blank].
  intros [Hc Ht]%andb_true_iff. rewrite IH by done.
  unfold DocJson.is_separator in Hc. apply negb_true_iff, orb_false_iff in Hc.
  destruct Hc as [_ ->]. done.
Qed.

(** X20.  A range [lo-hi], written without blanks or commas, yields
    exactly the integers from [lo] to [hi], both included, and nothing
    when [hi] is below [lo]. *)
Theorem X20_range_of_numbers (a b : string) lo hi :
  a <> EmptyString ->
  Py.contains "-" a = false ->
  no_separator (a ++ String "-" b) = true ->
  Py.int a = Some lo ->
  Py.int b = Some hi ->
  forall x, In x (DocJson._parse_number_list (a ++ String "-" b)) <-> lo <= x <= hi.
Proof.
  intros Hne Hdash Hsep Ha Hb x.
  unfold DocJson._parse_number_list. cbn zeta.
  assert (Py.strip (a ++ String "-" b) = (a ++ String "-" b)%string) as ->.
  { apply no_separator_no_blank in Hsep. unfold Py.strip.
    by rewrite (no_blank_lstrip _ Hsep), (no_blank_rstrip _ Hsep). }
  rewrite re_split_no_separator by done. cbn [flat_map]. rewrite app_nil_r.
  rewrite (proj2 (sorted_set_spec _)).
  unfold DocJson.part_numbers.
  assert (Py.contains "-" (a ++ String "-" b) = true) as ->.
  { rewrite contains_app. cbn [Py.contains]. by rewrite orb_true_r. }
  assert (Py.startswith "-" (a ++ String "-" b) = false) as ->.
  { destruct a as [|c a]; [done|]. rewrite append_cons. cbn [Py.startswith].
    cbn [Py.contains] in Hdash. by apply orb_false_iff in Hdash as [-> _]. }
  cbn [negb andb]. rewrite split_once_app, Ha, Hb by done.
  rewrite <- list_elem_of_In, elem_of_seqZ. lia.
Qed.

(** [2-4] yields 2, 3 and 4. *)
Lemma X20_two_to_four :
  In 3 (DocJson._parse_number_list "2-4")
  /\ ~ In 5 (DocJson._parse_number_list "2-4")
  /\ DocJson._parse_number_list "2-4" = [2; 3; 4].
Proof.
  assert (forall x, In x (DocJson._parse_number_list "2-4") <-> 2 <= x <= 4)
    as Hrange.
  { apply (X20_range_of_numbers "2" "4" 2 4); [discriminate | reflexivity ..]. }
  split; [apply Hrange; lia|]. split; [rewrite Hrange; lia|].
  vm_compute. reflexivity.
Defined.

(** ** The text form of [doc_json2.py]: headings and image lines *)

Lemma truthy_empty (s : string) : Py.truthy s = false <-> s = EmptyString.
Proof. destruct s; split; intros H; done. Qed.

Lemma truthy_int_some (slide_match : option Z) :
  Py.truthy_int slide_match = true
  <-> exists s, slide_match = Some s /\ s <> 0.
Proof.
  destruct slide_match as [n|]; cbn.
  - rewrite negb_true_iff, Z.eqb_neq. split.
    + intros Hn. exists n. done.
    + intros (s & [= ->] & Hs). done.
  - split; [done|]. intros (s & Hs & _). done.
Qed.

Lemma truthy_int_none (slide_match : option Z) :
  Py.truthy_int slide_match = false
  <-> slide_match = None \/ slide_match = Some 0.
Proof.
  destruct slide_match as [n|]; cbn.
  - rewrite negb_false_iff, Z.eqb_eq. split.
    + intros ->. by right.
    + intros [H | [= ->]]; done.
  - split; [by left | done].
Qed.

Lemma heading_not_image find_slide image_match line s imgs :
  heading_line find_slide line s -> image_line find_slide image_match line imgs -> False.
Proof.
  intros (_ & Hs & Hne) (_ & [Hn | Hn] & _); rewrite Hs in Hn; congruence.
Qed.

Lemma heading_not_inert find_slide image_match line s :
  heading_line find_slide line s -> inert_line find_slide image_match line -> False.
Proof.
  intros (Hl & Hs & Hne) [He | ([Hn | Hn] & _)]; [done | |];
    rewrite Hs in Hn; congruence.
Qed.

Lemma image_not_inert find_slide image_match line imgs :
  image_line find_slide image_match line imgs ->
  inert_line find_slide image_match line -> False.
Proof.
  intros (Hl & _ & Hi & Hne) [He | (_ & Hn)]; [done|]. congruence.
Qed.

Lemma heading_step find_slide image_match line s current_slide mappings :
  heading_line find_slide line s ->
  DocJson.slide_mappings_step find_slide image_match (current_slide, mappings) line
  = (Some s, mappings).
Proof.
  intros (Hl & Hs & Hne). unfold DocJson.slide_mappings_step.
  fold (normalised line).
  destruct (Py.truthy (normalised line)) eqn:Et;
    [|by apply truthy_empty in Et].
  cbn [negb]. rewrite Hs. cbn [Py.truthy_int].
  by rewrite (proj2 (Z.eqb_neq s 0) Hne).
Qed.

Lemma image_step_some find_slide image_match line imgs slide mappings :
  image_line find_slide image_match line imgs ->
  DocJson.slide_mappings_step find_slide image_match (Some slide, mappings) line
  = (None, mappings ++ [DocJson.mkSlideMapping slide imgs []]).
Proof.
  intros (Hl & Hn & Hi & Hne). unfold DocJson.slide_mappings_step.
  fold (normalised line).
  destruct (Py.truthy (normalised line)) eqn:Et;
    [|by apply truthy_empty in Et].
  cbn [negb]. rewrite (proj2 (truthy_int_none _) Hn), Hi.
  destruct imgs; done.
Qed.

Lemma step_none find_slide image_match line mappings :
  (forall s, ~ heading_line find_slide line s) ->
  DocJson.slide_mappings_step find_slide image_match (None, mappings) line
  = (None, mappings).
Proof.
  intros Hn. unfold DocJson.slide_mappings_step. fold (normalised line).
  destruct (Py.truthy (normalised line)) eqn:Et; [|done]. cbn [negb].
  destruct (Py.truthy_int (find_slide (normalised line))) eqn:Es; [|done].
  apply truthy_int_some in Es as (s & Hs & Hne).
  destruct (Hn s). split_and!; [|done..]. by destruct (normalised line).
Qed.

Lemma inert_step find_slide image_match line state :
  inert_line find_slide image_match line ->
  DocJson.slide_mappings_step find_slide image_match state line = state.
Proof.
  destruct state as [current_slide mappings].
  unfold DocJson.slide_mappings_step. fold (normalised line).
  intros [He | (Hn & Hi)].
  - by rewrite He.
  - destruct (Py.truthy (normalised line)); [|done]. cbn [negb].
    rewrite (proj2 (truthy_int_none _) Hn), Hi. by destruct current_slide.
Qed.

(** Every line is a heading, an image line or inert. *)
Lemma line_cases find_slide image_match line :
  (exists s, heading_line find_slide line s)
  \/ (exists imgs, image_line find_slide image_match line imgs)
  \/ inert_line find_slide image_match line.
Proof.
  destruct (normalised line) as [|c l] eqn:El.
  { right. right. left. done. }
  destruct (Py.truthy_int (find_slide (normalised line))) eqn:Es.
  - apply truthy_int_some in Es as (s & Hs & Hne).
    left. exists s. split_and!; [by rewrite El | done | done].
  - apply truthy_int_none in Es.
    destruct (DocJson._find_image_numbers image_match (normalised line))
      as [|i imgs] eqn:Ei.
    + right. right. right. done.
    + right. left. exists (i :: imgs). split_and!; [by rewrite El | done..].
Qed.

(** The mappings of a run from [current_slide]: those held before, the
    one that the pending heading gets, and those of later headings. *)
Lemma slide_mappings_run find_slide image_match lines :
  forall current_slide mappings m,
    In m (snd (fold_left (DocJson.slide_mappings_step find_slide image_match)
                 lines (current_slide, mappings)))
    <-> In m mappings
        \/ (exists s inert j after imgs,
              current_slide = Some s
              /\ lines = inert ++ j :: after
              /\ Forall (inert_line find_slide image_match) inert
              /\ image_line find_slide image_match j imgs
              /\ m = DocJson.mkSlideMapping s imgs [])
        \/ (exists before h inert j after s imgs,
              lines = before ++ h :: inert ++ j :: after
              /\ heading_line find_slide h s
              /\ Forall (inert_line find_slide image_match) inert
              /\ image_line find_slide image_match j imgs
              /\ m = DocJson.mkSlideMapping s imgs []).
Proof.
  induction lines as [|line lines IH]; intros current_slide mappings m.
  { cbn [fold_left snd]. split; [by left|].
    intros [H | [(s & inert & j & after & imgs & _ & H & _)
               | (before & h & inert & j & after & s & imgs & H & _)]];
      [done | by destruct inert | by destruct before]. }
  cbn [fold_left].
  destruct (line_cases find_slide image_match line)
    as [(s' & Hh) | [(imgs' & Hi) | Hinert]].
  - (* a heading *)
    rewrite (heading_step _ _ _ _ _ _ Hh), IH. split.
    + intros [H | [(s & inert & j & after & imgs & [= <-] & -> & Hin & Hj & ->)
                 | (before & h & inert & j & after & s & imgs & -> & H)]].
      * by left.
      * right. right. exists [], line, inert, j, after, s', imgs. done.
      * right. right. exists (line :: before), h, inert, j, after, s, imgs. done.
    + intros [H | [(s & inert & j & after & imgs & _ & Hl & Hin & Hj & _)
                 | (before & h & inert & j & after & s & imgs & Hl & Hhd & Hin & Hj & ->)]].
      * by left.
      * destruct inert as [|x inert]; injection Hl as <- _.
        -- destruct (heading_not_image _ _ _ _ _ Hh Hj).
        -- apply Forall_cons in Hin as [Hx _].
           destruct (heading_not_inert _ _ _ _ Hh Hx).
      * destruct before as [|x before]; injection Hl as <- ->.
        -- right. left. exists s', inert, j, after, imgs.
           destruct Hh as (_ & Hs' & _), Hhd as (_ & Hs & _).
           rewrite Hs' in Hs. injection Hs as ->. done.
        -- right. right. exists before, h, inert, j, after, s, imgs. done.
  - (* an image line *)
    assert (forall m,
      (exists before h inert j after s imgs,
         line :: lines = before ++ h :: inert ++ j :: after
         /\ heading_line find_slide h s
         /\ Forall (inert_line find_slide image_match) inert
         /\ image_line find_slide image_match j imgs
         /\ m = DocJson.mkSlideMapping s imgs [])
      <-> (exists before h inert j after s imgs,
         lines = before ++ h :: inert ++ j :: after
         /\ heading_line find_slide h s
         /\ Forall (inert_line find_slide image_match) inert
         /\ image_line find_slide image_match j imgs
         /\ m = DocJson.mkSlideMapping s imgs [])) as Hlater.
    { intros m0. split.
      - intros (before & h & inert & j & after & s & imgs & Hl & Hhd & H).
        destruct before as [|x before]; injection Hl as <- ->.
        + destruct (heading_not_image _ _ _ _ _ Hhd Hi).
        + exists before, h, inert, j, after, s, imgs. done.
      - intros (before & h & inert & j & after & s & imgs & -> & H).
        exists (line :: before), h, inert, j, after, s, imgs. done. }
    rewrite Hlater.
    destruct current_slide as [slide|].
    + rewrite (image_step_some _ _ _ _ _ _ Hi), IH, in_app_iff. split.
      * intros [[H | [<- | []]] | [(s & inert & j & after & imgs & [=] & _) | H]].
        -- by left.
        -- right. left. exists slide, [], line, lines, imgs'. done.
        -- right. by right.
      * intros [H | [(s & inert & j & after & imgs & [= <-] & Hl & Hin & Hj & ->) | H]].
        -- left. by left.
        -- destruct inert as [|x inert]; injection Hl as <- _.
           ++ destruct Hi as (_ & _ & Hi & _), Hj as (_ & _ & Hj & _).
              rewrite Hi in Hj. subst imgs. left. right. by left.
           ++ apply Forall_cons in Hin as [Hx _].
              destruct (image_not_inert _ _ _ _ Hi Hx).
        -- right. by right.
    + rewrite step_none, IH
        by (intros s Hs; exact (heading_not_image _ _ _ _ _ Hs Hi)).
      split.
      * intros [H | [(s & inert & j & after & imgs & [=] & _) | H]];
          [by left | right; by right].
      * intros [H | [(s & inert & j & after & imgs & [=] & _) | H]];
          [by left | right; by right].
  - (* an inert line *)
    rewrite (inert_step _ _ _ _ Hinert), IH. split.
    + intros [H | [(s & inert & j & after & imgs & -> & -> & Hin & Hj & ->)
                 | (before & h & inert & j & after & s & imgs & -> & H)]].
      * by left.
      * right. left. exists s, (line :: inert), j, after, imgs.
        split_and!; [done | done | by constructor | done | done].
      * right. right. exists (line :: before), h, inert, j, after, s, imgs. done.
    + intros [H | [(s & inert & j & after & imgs & -> & Hl & Hin & Hj & ->)
                 | (before & h & inert & j & after & s & imgs & Hl & Hhd & H)]].
      * by left.
      * destruct inert as [|x inert]; injection Hl as <- ->.
        -- destruct (image_not_inert _ _ _ _ Hj Hinert).
        -- apply Forall_cons in Hin as [_ Hin].
           right. left. exists s, inert, j, after, imgs. done.
      * destruct before as [|x before]; injection Hl as <- ->.
        -- destruct (heading_not_inert _ _ _ _ Hhd Hinert).
        -- right. right. exists before, h, inert, j, after, s, imgs. done.
Qed.

(** X21.  [_parse_slide_mappings] yields a mapping exactly for every
    heading that is followed, after lines that are blank or name neither
    a slide nor an image, by a line that lists images and is no heading
    itself: the mapping has the slide of the heading and the images of
    that line.  So a heading directly followed by another heading yields
    nothing, a second image line under one heading is dropped, images
    listed on the heading line itself are dropped, and a heading for
    slide 0 is no heading. *)
Theorem X21_one_image_line_per_heading find_slide image_match text m :
  In m (DocJson._parse_slide_mappings find_slide image_match text)
  <-> exists before h inert j after s imgs,
        Py.split "010" text = before ++ h :: inert ++ j :: after
        /\ heading_line find_slide h s
        /\ Forall (inert_line find_slide image_match) inert
        /\ image_line find_slide image_match j imgs
        /\ m = DocJson.mkSlideMapping s imgs [].
Proof.
  unfold DocJson._parse_slide_mappings. cbn zeta.
  rewrite slide_mappings_run. split.
  - intros [[] | [(s & inert & j & after & imgs & [=] & _) | H]]. exact H.
  - intros H. right. by right.
Qed.

(** ** The Word document of [doc_json.py]: numbering the embedded images *)

Lemma truthy_lower (s : string) : Py.truthy (Py.lower s) = Py.truthy s.
Proof. by destruct s. Qed.

Lemma images_of_cons p paras :
  images_of (p :: paras) = (DocJson.para_images p + images_of paras)%nat.
Proof. done. Qed.

Lemma images_of_app paras1 paras2 :
  images_of (paras1 ++ paras2) = (images_of paras1 + images_of paras2)%nat.
Proof.
  induction paras1 as [|p paras1 IH]; [done|].
  cbn [app]. rewrite !images_of_cons, IH. lia.
Qed.

Lemma seqZ_nat_app (c : Z) (n k : nat) :
  seqZ c (Z.of_nat (n + k))
  = seqZ c (Z.of_nat n) ++ seqZ (c + Z.of_nat n) (Z.of_nat k).
Proof. rewrite Nat2Z.inj_add. apply seqZ_app; lia. Qed.

Lemma extend_fold paras :
  forall slide_images image_counter,
    fold_left DocJson.extend_from_paragraph paras (slide_images, image_counter)
    = (slide_images ++ seqZ image_counter (Z.of_nat (images_of paras)),
       image_counter + Z.of_nat (images_of paras)).
Proof.
  induction paras as [|p paras IH]; intros imgs c; cbn [fold_left].
  - cbn. by rewrite app_nil_r, Z.add_0_r.
  - unfold DocJson.extend_from_paragraph at 2, DocJson._extract_images_from_paragraph.
    rewrite IH, images_of_cons, seqZ_nat_app, <- app_assoc, Nat2Z.inj_add.
    f_equal. lia.
Qed.

Lemma names_slide_paragraph find_slide text :
  Py.truthy_int
    (if Py.truthy (Py.strip text) then find_slide (Py.lower (Py.strip text))
     else None)
  = names_slide find_slide text.
Proof. unfold names_slide. by destruct (Py.truthy (Py.strip text)). Qed.

Lemma names_slide_cell find_slide text :
  Py.truthy_int
    (if Py.truthy (Py.lower (Py.strip text))
     then find_slide (Py.lower (Py.strip text)) else None)
  = names_slide find_slide text.
Proof. rewrite truthy_lower. apply names_slide_paragraph. Qed.

Lemma names_slide_set find_slide text :
  names_slide find_slide text = true ->
  (if Py.truthy (Py.strip text) then find_slide (Py.lower (Py.strip text))
   else None) = find_slide (Py.lower (Py.strip text))
  /\ exists s, find_slide (Py.lower (Py.strip text)) = Some s /\ s <> 0.
Proof.
  unfold names_slide. intros [-> Hs]%andb_true_iff. split; [done|].
  by apply truthy_int_some.
Qed.

Lemma append_slide_images mappings current_slide slide_images :
  (current_slide = None -> slide_images = []) ->
  concat (map DocJson.image_numbers
            (DocJson.append_slide mappings current_slide slide_images))
  = concat (map DocJson.image_numbers mappings) ++ slide_images.
Proof.
  intros Hnone. unfold DocJson.append_slide.
  destruct current_slide as [s|]; [|by rewrite Hnone, app_nil_r].
  destruct slide_images as [|i imgs]; [by rewrite app_nil_r|].
  rewrite map_app, concat_app. cbn. by rewrite app_nil_r.
Qed.

Lemma append_slide_proper mappings current_slide slide_images :
  set_slide current_slide ->
  Forall proper_mapping mappings ->
  Forall proper_mapping (DocJson.append_slide mappings current_slide slide_images).
Proof.
  intros Hset Hproper. unfold DocJson.append_slide.
  destruct current_slide as [s|]; [|done].
  destruct slide_images as [|i imgs]; [done|].
  apply Forall_app. split; [done|]. constructor; [|constructor].
  split_and!; [by apply Hset | done | done].
Qed.

(** The images that a run of the loop saves: all of them once a slide
    is set, else those from the first heading on. *)
Lemma paragraphs_fold find_slide paras :
  forall mappings current_slide slide_images image_counter,
    set_slide current_slide ->
    (current_slide = None -> slide_images = []) ->
    Forall proper_mapping mappings ->
    exists mappings' current_slide' slide_images',
      let k := match current_slide with
               | Some _ => images_of paras
               | None => images_under_headings find_slide paras
               end in
      fold_left (DocJson.paragraph_step find_slide) paras
        (mappings, current_slide, slide_images, image_counter)
      = (mappings', current_slide', slide_images', image_counter + Z.of_nat k)
      /\ concat (map DocJson.image_numbers mappings') ++ slide_images'
         = concat (map DocJson.image_numbers mappings) ++ slide_images
           ++ seqZ image_counter (Z.of_nat k)
      /\ set_slide current_slide'
      /\ (current_slide' = None -> slide_images' = [])
      /\ Forall proper_mapping mappings'.
Proof.
  induction paras as [|p paras IH];
    intros mappings cur imgs c Hset Hnone Hproper; cbn [fold_left].
  { exists mappings, cur, imgs.
    assert (match cur with
            | Some _ => images_of []
            | None => images_under_headings find_slide []
            end = 0%nat) as -> by by destruct cur.
    cbn. by rewrite Z.add_0_r, app_nil_r. }
  unfold DocJson.paragraph_step at 2.
  rewrite names_slide_paragraph.
  destruct (names_slide find_slide (DocJson.para_text p)) eqn:Eh.
  - destruct (names_slide_set _ _ Eh) as (-> & s' & Hs' & Hne). rewrite Hs'.
    unfold DocJson._extract_images_from_paragraph. cbn [app].
    destruct (IH (DocJson.append_slide mappings cur imgs) (Some s')
                (seqZ c (Z.of_nat (DocJson.para_images p)))
                (c + Z.of_nat (DocJson.para_images p)))
      as (mappings' & cur' & imgs' & Hfold & Himgs & Hset' & Hnone' & Hproper').
    + intros s [= <-]. done.
    + done.
    + by apply append_slide_proper.
    + exists mappings', cur', imgs'. cbn zeta in *.
      assert (match cur with
              | Some _ => images_of (p :: paras)
              | None => images_under_headings find_slide (p :: paras)
              end = (DocJson.para_images p + images_of paras)%nat) as ->.
      { destruct cur; [done|]. unfold images_under_headings.
        cbn [from_first]. by rewrite Eh. }
      split_and!; [| | done..].
      * rewrite Hfold. f_equal. lia.
      * rewrite Himgs, append_slide_images, seqZ_nat_app, <- !app_assoc by done.
        done.
  - destruct cur as [s|].
    + unfold DocJson._extract_images_from_paragraph.
      destruct (IH mappings (Some s)
                  (imgs ++ seqZ c (Z.of_nat (DocJson.para_images p)))
                  (c + Z.of_nat (DocJson.para_images p)))
        as (mappings' & cur' & imgs' & Hfold & Himgs & Hset' & Hnone' & Hproper');
        [done | done | done |].
      exists mappings', cur', imgs'. cbn zeta in *.
      rewrite images_of_cons.
      split_and!; [| | done..].
      * rewrite Hfold. f_equal. lia.
      * rewrite Himgs, seqZ_nat_app, <- !app_assoc. done.
    + destruct (IH mappings None imgs c)
        as (mappings' & cur' & imgs' & Hfold & Himgs & Hset' & Hnone' & Hproper');
        [done | done | done |].
      exists mappings', cur', imgs'. cbn zeta in *.
      assert (images_under_headings find_slide (p :: paras)
              = images_under_headings find_slide paras) as ->.
      { unfold images_under_headings. cbn [from_first]. by rewrite Eh. }
      done.
Qed.

Lemma cells_fold find_slide row :
  forall current_slide slide_images image_counter,
    set_slide current_slide ->
    exists current_slide',
      let k := match current_slide with
               | Some _ => images_of (flat_map DocJson.cell_paragraphs row)
               | None => images_of_row find_slide row
               end in
      fold_left (DocJson.cell_step find_slide) row
        (current_slide, slide_images, image_counter)
      = (current_slide', slide_images ++ seqZ image_counter (Z.of_nat k),
         image_counter + Z.of_nat k)
      /\ set_slide current_slide'
      /\ (current_slide' = None -> current_slide = None /\ k = 0%nat).
Proof.
  induction row as [|cell row IH]; intros cur imgs c Hset; cbn [fold_left].
  { exists cur. cbn zeta. destruct cur; cbn; rewrite Z.add_0_r, app_nil_r; done. }
  unfold DocJson.cell_step at 2.
  rewrite names_slide_cell, truthy_lower.
  destruct (names_slide find_slide (DocJson.cell_text cell)) eqn:Eh.
  - destruct (names_slide_set _ _ Eh) as (-> & s' & Hs' & Hne). rewrite Hs'.
    rewrite extend_fold.
    destruct (IH (Some s')
                (imgs ++ seqZ c (Z.of_nat (images_of (DocJson.cell_paragraphs cell))))
                (c + Z.of_nat (images_of (DocJson.cell_paragraphs cell))))
      as (cur' & Hfold & Hset' & Hnone').
    { intros s [= <-]. done. }
    exists cur'. cbn zeta in *.
    assert (match cur with
            | Some _ => images_of (flat_map DocJson.cell_paragraphs (cell :: row))
            | None => images_of_row find_slide (cell :: row)
            end = (images_of (DocJson.cell_paragraphs cell)
                   + images_of (flat_map DocJson.cell_paragraphs row))%nat) as ->.
    { destruct cur.
      - cbn [flat_map]. apply images_of_app.
      - unfold images_of_row. cbn [from_first]. rewrite Eh.
        cbn [flat_map]. apply images_of_app. }
    split_and!; [| done |].
    + rewrite Hfold, seqZ_nat_app, <- !app_assoc. f_equal. lia.
    + intros Hc. by destruct (Hnone' Hc).
  - destruct cur as [s|].
    + rewrite extend_fold.
      destruct (IH (Some s)
                  (imgs ++ seqZ c (Z.of_nat (images_of (DocJson.cell_paragraphs cell))))
                  (c + Z.of_nat (images_of (DocJson.cell_paragraphs cell))))
        as (cur' & Hfold & Hset' & Hnone'); [done|].
      exists cur'. cbn zeta in *. cbn [flat_map]. rewrite images_of_app.
      split_and!; [| done |].
      * rewrite Hfold, seqZ_nat_app, <- !app_assoc. f_equal. lia.
      * intros Hc. by destruct (Hnone' Hc).
    + destruct (IH None imgs c) as (cur' & Hfold & Hset' & Hnone'); [done|].
      exists cur'. cbn zeta in *.
      assert (images_of_row find_slide (cell :: row)
              = images_of_row find_slide row) as ->.
      { unfold images_of_row. cbn [from_first]. by rewrite Eh. }
      done.
Qed.

Lemma row_step_images find_slide mappings image_counter row :
  Forall proper_mapping mappings ->
  exists mappings',
    DocJson.row_step find_slide (mappings, image_counter) row
    = (mappings', image_counter + Z.of_nat (images_of_row find_slide row))
    /\ concat (map DocJson.image_numbers mappings')
       = concat (map DocJson.image_numbers mappings)
         ++ seqZ image_counter (Z.of_nat (images_of_row find_slide row))
    /\ Forall proper_mapping mappings'.
Proof.
  intros Hproper. unfold DocJson.row_step.
  destruct (cells_fold find_slide row None [] image_counter)
    as (cur' & Hfold & Hset' & Hnone'); [done|].
  cbn zeta in *. rewrite Hfold. cbn [app].
  eexists. split_and!; [done | | by apply append_slide_proper].
  apply append_slide_images. intros Hc. destruct (Hnone' Hc) as [_ ->]. done.
Qed.

Lemma rows_fold find_slide table :
  forall mappings image_counter,
    Forall proper_mapping mappings ->
    exists mappings',
      let k := sum_list (map (images_of_row find_slide) table) in
      fold_left (DocJson.row_step find_slide) table (mappings, image_counter)
      = (mappings', image_counter + Z.of_nat k)
      /\ concat (map DocJson.image_numbers mappings')
         = concat (map DocJson.image_numbers mappings)
           ++ seqZ image_counter (Z.of_nat k)
      /\ Forall proper_mapping mappings'.
Proof.
  induction table as [|row table IH]; intros mappings c Hproper; cbn [fold_left].
  { exists mappings. cbn. by rewrite Z.add_0_r, app_nil_r. }
  destruct (row_step_images find_slide mappings c row Hproper)
    as (mappings1 & -> & Himgs1 & Hproper1).
  destruct (IH mappings1 (c + Z.of_nat (images_of_row find_slide row)) Hproper1)
    as (mappings' & Hfold & Himgs & Hproper').
  exists mappings'. cbn zeta in *. cbn [map sum_list sum_list_with id].
  split_and!; [| | done].
  - rewrite Hfold. f_equal. lia.
  - rewrite Himgs, Himgs1, seqZ_nat_app, <- !app_assoc. done.
Qed.

Lemma tables_fold find_slide tables :
  forall mappings image_counter,
    Forall proper_mapping mappings ->
    exists mappings',
      let k := sum_list (map (images_of_row find_slide) (concat tables)) in
      fold_left (DocJson.table_step find_slide) tables (mappings, image_counter)
      = (mappings', image_counter + Z.of_nat k)
      /\ concat (map DocJson.image_numbers mappings')
         = concat (map DocJson.image_numbers mappings)
           ++ seqZ image_counter (Z.of_nat k)
      /\ Forall proper_mapping mappings'.
Proof.
  induction tables as [|table tables IH]; intros mappings c Hproper;
    cbn [fold_left].
  { exists mappings. cbn. by rewrite Z.add_0_r, app_nil_r. }
  unfold DocJson.table_step at 2, DocJson._process_table_with_images.
  destruct (rows_fold find_slide table [] c) as (tm & Hrows & Htm & Hptm);
    [done|].
  cbn zeta in *. rewrite Hrows.
  destruct (IH (mappings ++ tm)
              (c + Z.of_nat (sum_list (map (images_of_row find_slide) table))))
    as (mappings' & Hfold & Himgs & Hproper').
  { apply Forall_app. done. }
  exists mappings'. cbn [concat]. rewrite map_app, sum_list_with_app.
  split_and!; [| | done].
  - rewrite Hfold. f_equal. lia.
  - rewrite Himgs, map_app, concat_app, Htm, seqZ_nat_app, <- !app_assoc. done.
Qed.

Lemma parse_document_images find_slide image_counter doc :
  let result :=
    DocJson._parse_document_with_images find_slide image_counter doc in
  let n := Z.of_nat (images_to_place find_slide doc) in
  snd result = image_counter + n
  /\ concat (map DocJson.image_numbers (fst result)) ≡ₚ seqZ image_counter n
  /\ Forall proper_mapping (fst result).
Proof.
  cbn zeta. unfold DocJson._parse_document_with_images, images_to_place.
  destruct (paragraphs_fold find_slide (DocJson.paragraphs doc) [] None []
              image_counter)
    as (mp & cur & imgs & Hpar & Himgs & Hset & Hnone & Hproper);
    [done | done | done |].
  cbn zeta in *. rewrite Hpar.
  destruct (tables_fold find_slide (DocJson.tables doc) mp
              (image_counter
               + Z.of_nat (images_under_headings find_slide (DocJson.paragraphs doc)))
              Hproper)
    as (mt & Htab & Htimgs & Hproper').
  cbn zeta in *. rewrite Htab. cbn [fst snd].
  split_and!.
  - rewrite Nat2Z.inj_add. lia.
  - rewrite append_slide_images, Htimgs, seqZ_nat_app by done.
    cbn [map concat app] in Himgs. rewrite <- Himgs, <- !app_assoc.
    apply Permutation_app_head, Permutation_app_comm.
  - by apply append_slide_proper.
Qed.

(** X22.  Parsing a Word document saves exactly the images that stand
    under a heading (in the body from the first heading on, in a table
    row from its first heading cell on) and numbers them consecutively
    from the counter; each of these numbers is in exactly one mapping,
    and every mapping names a slide other than 0 and at least one
    image. *)
Theorem X22_every_saved_image_is_mapped_once find_slide image_counter doc :
  let result :=
    DocJson._parse_document_with_images find_slide image_counter doc in
  let n := Z.of_nat (images_to_place find_slide doc) in
  snd result = image_counter + n
  /\ concat (map DocJson.image_numbers (fst result)) ≡ₚ seqZ image_counter n
  /\ Forall proper_mapping (fst result).
Proof. apply parse_document_images. Qed.

Lemma requests_images (mappings : list DocJson.SlideMapping) :
  map fst (requests mappings) = concat (map DocJson.image_numbers mappings).
Proof.
  unfold requests. induction mappings as [|mapping rest IH]; [done|].
  cbn [flat_map map concat]. rewrite map_app, IH, map_map. cbn [fst].
  by rewrite map_id.
Qed.

Lemma entries_image_numbers dw dh entries (reqs : list (Z * Z)) :
  Forall2
    (fun e request =>
       DocJson.entry_image_number e = fst request
       /\ snd request <= DocJson.entry_slide_number e
       /\ DocJson.entry_width e = dw /\ DocJson.entry_height e = dh)
    entries reqs ->
  map DocJson.entry_image_number entries = map fst reqs.
Proof.
  induction 1 as [|e r entries reqs (He & _) _ IH]; [done|].
  cbn [map]. by rewrite He, IH.
Qed.

(** X23.  From the Word document to the JSON mapping: the generator,
    run on the mappings parsed from the document, writes exactly one
    entry for every image saved and none for any other number; with the
    counter at 1, as [__init__] sets it, the image numbers of the entries
    are the numbers 1 to [n] of the [n] files saved, each once. *)
Theorem X23_one_entry_per_saved_image find_slide image_counter doc dw dh :
  exists m entries,
    DocJson.generate_json_mapping dw dh
      (fst (DocJson._parse_document_with_images find_slide image_counter doc))
    = Some (m, entries)
    /\ map DocJson.entry_image_number entries
       ≡ₚ seqZ image_counter (Z.of_nat (images_to_place find_slide doc)).
Proof.
  destruct (parse_document_images find_slide image_counter doc)
    as (_ & Hperm & _). cbn zeta in Hperm.
  destruct (assign_mappings_run dw dh
              (fst (DocJson._parse_document_with_images find_slide
                      image_counter doc))
              ∅ [] generator_consistent_empty)
    as (m & entries & Hgen & _ & Hentries).
  exists m, entries. split; [exact Hgen|].
  rewrite <- Hperm, <- requests_images.
  apply entries_image_numbers in Hentries. by rewrite Hentries.
Qed.
